(** * task4safety: the user-management backend (backend/server.js)

    A shallow embedding of the Express application of [backend/server.js]:
    the [users] table behind [pool.query], the two middlewares
    [authenticateToken] and [checkIfBlocked], the five routes, and the
    socket.io broadcast.  Handlers are written in a state-and-exception
    monad over the process state ([World]); the libraries the server calls
    (bcryptjs, jsonwebtoken, the pg driver's value conversions) are an
    interface ([Libs]), with one small instance to run the model on.

    The [UserTable] component of the client, in the two versions the
    repository holds, is embedded as far as it talks to this server: its
    state as a record, [fetch] as one request served by the application. *)

From Stdlib Require Import List String Ascii Bool ZArith NArith Lia.
From Stdlib Require Import Permutation Sorted DecimalString DecimalN.
Import ListNotations.
Open Scope string_scope.
#[local] Set Warnings "-register-all".

(** ** JSON values

    Request bodies (after [express.json()]) and response bodies
    ([res.json(...)]). *)

Inductive Json : Type :=
| JNull
| JBool (b : bool)
| JNum (z : Z)
| JStr (s : string)
| JArr (items : list Json)
| JObj (fields : list (string * Json)).

(** [obj_get k fields]: the value of key [k]; [JSON.parse] keeps the last of
    a repeated key.  [None] is JavaScript's [undefined]. *)
Fixpoint obj_get (k : string) (fields : list (string * Json)) : option Json :=
  match fields with
  | [] => None
  | (k', v) :: rest =>
      match obj_get k rest with
      | Some v' => Some v'
      | None => if String.eqb k k' then Some v else None
      end
  end.

(** [const { name } = req.body]: property access on the parsed body. *)
Definition js_get (k : string) (j : Json) : option Json :=
  match j with
  | JObj fields => obj_get k fields
  | _ => None
  end.

(** JavaScript truthiness, as [!x] reads it: [undefined], [null], [false],
    [0] and the empty string are falsy, everything else is truthy. *)
Definition js_truthy (v : option Json) : bool :=
  match v with
  | None => false
  | Some JNull => false
  | Some (JBool b) => b
  | Some (JNum z) => negb (Z.eqb z 0)
  | Some (JStr s) => negb (String.eqb s "")
  | Some (JArr _) => true
  | Some (JObj _) => true
  end.

(** [has_key k j]: some object inside [j] has a field named [k]. *)
Fixpoint has_key (k : string) (j : Json) : bool :=
  match j with
  | JArr items => existsb (has_key k) items
  | JObj fields =>
      existsb (fun p => match p with
                        | (k', v) => String.eqb k k' || has_key k v
                        end) fields
  | _ => false
  end.

(** ** Strings as the server reads them *)

(** [s.startsWith(p)]. *)
Fixpoint startsWith (s p : string) : bool :=
  match p with
  | EmptyString => true
  | String a p' =>
      match s with
      | EmptyString => false
      | String b s' => Ascii.eqb a b && startsWith s' p'
      end
  end.

(** [s.split(sep)] for a one-character separator: never empty, [""] splits
    into [[""]]. *)
Fixpoint split (sep : ascii) (s : string) : list string :=
  match s with
  | EmptyString => [EmptyString]
  | String c rest =>
      if Ascii.eqb c sep then EmptyString :: split sep rest
      else match split sep rest with
           | [] => [String c EmptyString]
           | h :: t => String c h :: t
           end
  end.

Definition space : ascii := " "%char.

(** [lacks c s]: the character [c] does not occur in [s]. *)
Fixpoint lacks (c : ascii) (s : string) : bool :=
  match s with
  | EmptyString => true
  | String a rest => negb (Ascii.eqb a c) && lacks c rest
  end.

(** ** The users table *)

Inductive Status : Type := active | blocked.

Definition Status_eqb (a b : Status) : bool :=
  match a, b with
  | active, active => true
  | blocked, blocked => true
  | _, _ => false
  end.

Definition Status_text (s : Status) : string :=
  match s with
  | active => "active"
  | blocked => "blocked"
  end.

Record User : Type := mkUser {
  user_id : N;
  user_name : string;
  user_email : string;
  user_password : string;
  user_status : Status;
  user_last_login : N
}.

Definition with_status (s : Status) (u : User) : User :=
  mkUser (user_id u) (user_name u) (user_email u) (user_password u) s
         (user_last_login u).

Definition with_last_login (t : N) (u : User) : User :=
  mkUser (user_id u) (user_name u) (user_email u) (user_password u)
         (user_status u) t.

(** ** Process state *)

Record World : Type := mkWorld {
  rows : list User;               (* the rows of table users, oldest first *)
  next_id : N;                    (* the id the next inserted row gets *)
  clock : N;                      (* current time in seconds: NOW(), Date.now() *)
  rng : N;                        (* state of the salt generator *)
  faults : list bool;             (* the coming store round trips: true = fails *)
  env_JWT_SECRET : option string; (* process.env.JWT_SECRET *)
  sockets : list N;               (* connected socket.io clients *)
  delivered : list (N * string)   (* events pushed so far: client, event name *)
}.

Definition set_rows (r : list User) (w : World) : World :=
  mkWorld r (next_id w) (clock w) (rng w) (faults w) (env_JWT_SECRET w)
          (sockets w) (delivered w).

Definition set_next_id (n : N) (w : World) : World :=
  mkWorld (rows w) n (clock w) (rng w) (faults w) (env_JWT_SECRET w)
          (sockets w) (delivered w).

Definition set_rng (n : N) (w : World) : World :=
  mkWorld (rows w) (next_id w) (clock w) n (faults w) (env_JWT_SECRET w)
          (sockets w) (delivered w).

Definition set_faults (f : list bool) (w : World) : World :=
  mkWorld (rows w) (next_id w) (clock w) (rng w) f (env_JWT_SECRET w)
          (sockets w) (delivered w).

Definition set_delivered (d : list (N * string)) (w : World) : World :=
  mkWorld (rows w) (next_id w) (clock w) (rng w) (faults w) (env_JWT_SECRET w)
          (sockets w) d.

(** ** Exceptions and the handler monad *)

(** A thrown JavaScript error, as far as the handlers look at it:
    [error.code]. *)
Record Error : Type := mkError { error_code : option string }.

Inductive Res (A : Type) : Type :=
| Ok (a : A)
| Throw (e : Error).
Arguments Ok {A} a.
Arguments Throw {A} e.

Definition M (A : Type) : Type := World -> Res A * World.

Definition ret {A} (a : A) : M A := fun w => (Ok a, w).

Definition throw {A} (e : Error) : M A := fun w => (Throw e, w).

Definition bind {A B} (m : M A) (k : A -> M B) : M B :=
  fun w => match m w with
           | (Ok a, w') => k a w'
           | (Throw e, w') => (Throw e, w')
           end.

(** [try { body } catch (error) { handler }]. *)
Definition try_catch {A} (body : M A) (handler : Error -> M A) : M A :=
  fun w => match body w with
           | (Ok a, w') => (Ok a, w')
           | (Throw e, w') => handler e w'
           end.

Declare Scope handler_scope.
Delimit Scope handler_scope with handler.
Notation "x <- c ;; k" := (bind c (fun x => k))
  (at level 100, c at next level, right associativity) : handler_scope.
Notation "c ;;; k" := (bind c (fun _ => k))
  (at level 100, right associativity) : handler_scope.
Open Scope handler_scope.

(** ** The libraries the server calls *)

(** What [jwt.sign] is given, and what [jwt.verify] hands back: the payload
    with the issue and expiry times the library adds. *)
Record Payload : Type := mkPayload { payload_id : N; payload_email : string }.

Record Claims : Type := mkClaims {
  claims_id : N;
  claims_email : string;
  claims_iat : N;
  claims_exp : N
}.

Class Libs : Type := {
  (* bcrypt.hash(s, rounds), the salt drawn from the generator state *)
  bcrypt_hash : string -> nat -> N -> string;
  (* bcrypt.compare(s, hash) *)
  bcrypt_compare : string -> string -> bool;
  (* jwt.sign(payload, secret, { expiresIn }) at a given time *)
  jwt_sign : Payload -> string -> N -> N -> string;
  (* jwt.verify(token, secret) at a given time; None is the err callback *)
  jwt_verify : string -> string -> N -> option Claims;
  (* the text the pg driver sends for a JavaScript query parameter *)
  pg_text : option Json -> string;
  (* the store's reading of a text parameter compared with the id column *)
  pg_int : string -> option N
}.

(** [{ expiresIn: "1h" }], in seconds. *)
Definition expiresIn_1h : N := 3600.

(** ** HTTP requests and responses *)

(** The methods the routes and the client use. *)
Inductive Method : Type := GET | POST | PUT | DELETE.

Definition Method_eqb (a b : Method) : bool :=
  match a, b with
  | GET, GET | POST, POST | PUT, PUT | DELETE, DELETE => true
  | _, _ => false
  end.

Record Request : Type := mkRequest {
  req_method : Method;
  req_path : list string;                 (* the URL path, split at "/" *)
  req_authorization : option string;      (* req.header("Authorization") *)
  req_body : Json;                        (* req.body *)
  req_params : list (string * string);    (* req.params, set by the router *)
  req_user : option Claims                (* req.user, set by authenticateToken *)
}.

Definition set_params (p : list (string * string)) (r : Request) : Request :=
  mkRequest (req_method r) (req_path r) (req_authorization r) (req_body r) p
            (req_user r).

Definition set_user (u : Claims) (r : Request) : Request :=
  mkRequest (req_method r) (req_path r) (req_authorization r) (req_body r)
            (req_params r) (Some u).

Record Response : Type := mkResponse { res_status : nat; res_body : Json }.

(** What a middleware or handler does with a request: answer it, or call
    [next()]. *)
Inductive Flow : Type :=
| Next (req : Request)
| Send (res : Response).

Definition Middleware : Type := Request -> M Flow.

(** [res.status(code).json(body)]. *)
Definition send (code : nat) (body : Json) : M Flow :=
  ret (Send (mkResponse code body)).

Definition error_body (msg : string) : Json := JObj [("error", JStr msg)].

Definition message_body (msg : string) : Json := JObj [("message", JStr msg)].

(** [process.env.JWT_SECRET || "your_secret_key"]. *)
Definition JWT_SECRET (w : World) : string :=
  match env_JWT_SECRET w with
  | Some s => if String.eqb s "" then "your_secret_key" else s
  | None => "your_secret_key"
  end.

(** ** The store: [pool.query] and the six statements *)

Definition unique_violation : Error := mkError (Some "23505").
Definition invalid_text_representation : Error := mkError (Some "22P02").
Definition connection_failure : Error := mkError (Some "ECONNREFUSED").
Definition type_error : Error := mkError None.

(** [await pool.query(...)]: one round trip to the store.  It fails as a
    whole when the connection does, and then the statement has no effect. *)
Definition pool_query {A} (statement : M A) : M A :=
  fun w => match faults w with
           | [] => statement w
           | false :: later => statement (set_faults later w)
           | true :: later => (Throw connection_failure, set_faults later w)
           end.

(** [ORDER BY last_login DESC]. *)
Fixpoint insert_desc (u : User) (l : list User) : list User :=
  match l with
  | [] => [u]
  | v :: l' =>
      if (user_last_login v <? user_last_login u)%N then u :: v :: l'
      else v :: insert_desc u l'
  end.

Definition order_by_last_login_desc (l : list User) : list User :=
  fold_right insert_desc [] l.

(** The value of a column of a row, as the driver hands it to JavaScript. *)
Definition column (c : string) (u : User) : Json :=
  if String.eqb c "id" then JNum (Z.of_N (user_id u))
  else if String.eqb c "name" then JStr (user_name u)
  else if String.eqb c "email" then JStr (user_email u)
  else if String.eqb c "password" then JStr (user_password u)
  else if String.eqb c "status" then JStr (Status_text (user_status u))
  else if String.eqb c "last_login" then JNum (Z.of_N (user_last_login u))
  else JNull.

(** A result row of [SELECT c1, ..., cn]. *)
Definition select_columns (cols : list string) (u : User) : Json :=
  JObj (map (fun c => (c, column c u)) cols).

Section Server.

Context {L : Libs}.

(** [SELECT status FROM users WHERE id = $1]. *)
Definition sql_select_status_by_id (id : N) : M (list Status) :=
  fun w => (Ok (map user_status
                    (filter (fun u => N.eqb (user_id u) id) (rows w))), w).

(** Modelled from the spec: the definition of table [users] is not part of
    the source; [id] is unique and assigned by the store, and [email] carries
    a unique constraint.

    [INSERT INTO users (name, email, password, status, last_login)
     VALUES ($1, $2, $3, 'active', NOW())]. *)
Definition sql_insert_user (name email : option Json) (hashed : string)
  : M unit :=
  fun w =>
    if existsb (fun u => String.eqb (user_email u) (pg_text email)) (rows w)
    then (Throw unique_violation, w)
    else (Ok tt,
          set_next_id (next_id w + 1)
            (set_rows (rows w ++ [mkUser (next_id w) (pg_text name)
                                         (pg_text email) hashed active
                                         (clock w)]) w)).

(** [SELECT * FROM users WHERE email = $1]. *)
Definition sql_select_user_by_email (email : option Json) : M (list User) :=
  fun w => (Ok (filter (fun u => String.eqb (user_email u) (pg_text email))
                       (rows w)), w).

(** [UPDATE users SET last_login = NOW() WHERE id = $1]. *)
Definition sql_update_last_login (id : N) : M unit :=
  fun w => (Ok tt,
            set_rows (map (fun u => if N.eqb (user_id u) id
                                    then with_last_login (clock w) u else u)
                          (rows w)) w).

(** [SELECT id, name, email, last_login, status FROM users
     ORDER BY last_login DESC]. *)
Definition sql_select_users : M (list Json) :=
  fun w => (Ok (map (select_columns ["id"; "name"; "email"; "last_login";
                                     "status"])
                    (order_by_last_login_desc (rows w))), w).

(** [UPDATE users SET status = '...' WHERE id = $1 RETURNING *], the
    parameter being the text of the path; the result is [rowCount]. *)
Definition sql_update_status (s : Status) (id : string) : M nat :=
  fun w =>
    match pg_int id with
    | None => (Throw invalid_text_representation, w)
    | Some i =>
        (Ok (List.length (filter (fun u => N.eqb (user_id u) i) (rows w))),
         set_rows (map (fun u => if N.eqb (user_id u) i
                                 then with_status s u else u)
                       (rows w)) w)
    end.

(** ** socket.io *)

(** [io.emit(event)]: the event goes to every connected client. *)
Definition io_emit (event : string) : M unit :=
  fun w => (Ok tt,
            set_delivered (delivered w ++ map (fun c => (c, event)) (sockets w))
                          w).

(** ** Library calls on JavaScript values *)

(** [await bcrypt.hash(password, rounds)]: bcryptjs rejects an argument that
    is not a string. *)
Definition bcrypt_hash_js (password : option Json) (rounds : nat) : M string :=
  fun w =>
    match password with
    | Some (JStr s) => (Ok (bcrypt_hash s rounds (rng w)), set_rng (rng w + 1) w)
    | _ => (Throw type_error, w)
    end.

(** [await bcrypt.compare(password, hash)]. *)
Definition bcrypt_compare_js (password : option Json) (hash : string) : M bool :=
  match password with
  | Some (JStr s) => ret (bcrypt_compare s hash)
  | _ => throw type_error
  end.

(** [jwt.sign(payload, secret, { expiresIn: "1h" })]. *)
Definition jwt_sign_1h (payload : Payload) : M string :=
  fun w => (Ok (jwt_sign payload (JWT_SECRET w) (clock w) expiresIn_1h), w).

(** ** Middlewares *)

Definition authenticateToken : Middleware :=
  fun req w =>
    let authHeader := req_authorization req in
    match authHeader with
    | None =>
        send 401 (error_body "Access denied. No token provided.") w
    | Some h =>
        if String.eqb h "" || negb (startsWith h "Bearer ")
        then send 401 (error_body "Access denied. No token provided.") w
        else
          let token := nth_error (split space h) 1 in
          match match token with
                | Some t => jwt_verify t (JWT_SECRET w) (clock w)
                | None => None
                end with
          | None => send 403 (error_body "Invalid token.") w
          | Some user => ret (Next (set_user user req)) w
          end
    end.

Definition checkIfBlocked : Middleware :=
  fun req =>
    try_catch
      (id <- match req_user req with
             | Some user => ret (claims_id user)
             | None => throw type_error
             end ;;
       userResult <- pool_query (sql_select_status_by_id id) ;;
       match userResult with
       | [] => send 404 (error_body "User not found.")
       | status :: _ =>
           if Status_eqb status blocked
           then send 403 (error_body "You are blocked. Action not allowed.")
           else ret (Next req)
       end)
      (fun error => send 500 (error_body "Server error.")).

(** ** Route handlers *)

(** [error.code === c]. *)
Definition code_is (error : Error) (c : string) : bool :=
  match error_code error with
  | Some c' => String.eqb c' c
  | None => false
  end.

(** [app.post("/api/register", ...)]. *)
Definition post_api_register : Middleware :=
  fun req =>
    let name := js_get "name" (req_body req) in
    let email := js_get "email" (req_body req) in
    let password := js_get "password" (req_body req) in
    if negb (js_truthy name) || negb (js_truthy email)
       || negb (js_truthy password)
    then send 400 (error_body "All fields are required.")
    else
      try_catch
        (hashedPassword <- bcrypt_hash_js password 10 ;;
         pool_query (sql_insert_user name email hashedPassword) ;;;
         send 201 (message_body "User registered successfully!"))
        (fun error =>
           if code_is error "23505"
           then send 409 (error_body "Email already exists.")
           else send 500 (error_body "Could not register user.")).

(** [app.post("/api/login", ...)]. *)
Definition post_api_login : Middleware :=
  fun req =>
    let email := js_get "email" (req_body req) in
    let password := js_get "password" (req_body req) in
    if negb (js_truthy email) || negb (js_truthy password)
    then send 400 (error_body "Email and password are required.")
    else
      try_catch
        (userResult <- pool_query (sql_select_user_by_email email) ;;
         match userResult with
         | [] => send 401 (error_body "Invalid email or password.")
         | user :: _ =>
             if Status_eqb (user_status user) blocked
             then send 403 (error_body "User is blocked.")
             else
               isPasswordValid <-
                 bcrypt_compare_js password (user_password user) ;;
               if negb isPasswordValid
               then send 401 (error_body "Invalid email or password.")
               else
                 token <- jwt_sign_1h
                            (mkPayload (user_id user) (user_email user)) ;;
                 pool_query (sql_update_last_login (user_id user)) ;;;
                 send 200 (JObj [("message", JStr "Login successful!");
                                 ("token", JStr token)])
         end)
        (fun error => send 500 (error_body "Login failed.")).

(** [app.get("/api/users", authenticateToken, ...)], the last handler. *)
Definition get_api_users : Middleware :=
  fun req =>
    try_catch
      (users <- pool_query sql_select_users ;;
       send 200 (JObj [("users", JArr users)]))
      (fun error => send 500 (error_body "Could not fetch users.")).

(** [const { id } = req.params]. *)
Definition param (k : string) (req : Request) : option string :=
  option_map snd (find (fun p => String.eqb (fst p) k) (req_params req)).

(** A path parameter as a query parameter; [undefined] goes out as NULL,
    which no id equals. *)
Definition sql_update_status_param (s : Status) (id : option string) : M nat :=
  match id with
  | Some text => sql_update_status s text
  | None => ret 0
  end.

(** [app.put("/api/users/block/:id", authenticateToken, checkIfBlocked, ...)],
    the last handler. *)
Definition put_api_users_block : Middleware :=
  fun req =>
    let id := param "id" req in
    try_catch
      (rowCount <- pool_query (sql_update_status_param blocked id) ;;
       if Nat.eqb rowCount 0
       then send 404 (error_body "User not found.")
       else
         io_emit "usersUpdated" ;;;
         send 200 (message_body "User has been blocked."))
      (fun error => send 500 (error_body "Could not block user.")).

(** [app.put("/api/users/unblock/:id", authenticateToken, checkIfBlocked,
    ...)], the last handler. *)
Definition put_api_users_unblock : Middleware :=
  fun req =>
    let id := param "id" req in
    try_catch
      (rowCount <- pool_query (sql_update_status_param active id) ;;
       if Nat.eqb rowCount 0
       then send 404 (error_body "User not found.")
       else
         io_emit "usersUpdated" ;;;
         send 200 (message_body "User has been unblocked."))
      (fun error => send 500 (error_body "Could not unblock user.")).

(** ** The router *)

Inductive Seg : Type :=
| Lit (s : string)
| Param (name : string).

(** A route path against the segments of a URL path; a parameter takes one
    non-empty segment. *)
Fixpoint match_path (pattern : list Seg) (path : list string)
  : option (list (string * string)) :=
  match pattern, path with
  | [], [] => Some []
  | Lit s :: pattern', x :: path' =>
      if String.eqb s x then match_path pattern' path' else None
  | Param n :: pattern', x :: path' =>
      if String.eqb x "" then None
      else option_map (cons (n, x)) (match_path pattern' path')
  | _, _ => None
  end.

Record Route : Type := mkRoute {
  route_method : Method;
  route_path : list Seg;
  route_stack : list Middleware
}.

(** The handlers of one route, in order, each reached by the [next()] of the
    one before. *)
Fixpoint run_stack (stack : list Middleware) (req : Request) : M Flow :=
  match stack with
  | [] => ret (Next req)
  | m :: rest =>
      flow <- m req ;;
      match flow with
      | Next req' => run_stack rest req'
      | Send res => ret (Send res)
      end
  end.

(** The routes in registration order; the first that matches method and
    path runs. *)
Fixpoint handle (routes : list Route) (req : Request) : M Flow :=
  match routes with
  | [] => ret (Next req)
  | r :: rest =>
      if Method_eqb (route_method r) (req_method req)
      then match match_path (route_path r) (req_path req) with
           | Some params =>
               flow <- run_stack (route_stack r) (set_params params req) ;;
               match flow with
               | Next req' => handle rest req'
               | Send res => ret (Send res)
               end
           | None => handle rest req
           end
      else handle rest req
  end.

(** The routes of server.js. *)
Definition app : list Route :=
  [ mkRoute POST [Lit "api"; Lit "register"] [post_api_register];
    mkRoute POST [Lit "api"; Lit "login"] [post_api_login];
    mkRoute GET [Lit "api"; Lit "users"] [authenticateToken; get_api_users];
    mkRoute PUT [Lit "api"; Lit "users"; Lit "block"; Param "id"]
            [authenticateToken; checkIfBlocked; put_api_users_block];
    mkRoute PUT [Lit "api"; Lit "users"; Lit "unblock"; Param "id"]
            [authenticateToken; checkIfBlocked; put_api_users_unblock] ].

(** What the client of one request sees. *)
Inductive Outcome : Type :=
| Answered (res : Response)   (* a handler of server.js answered *)
| NoRoute                     (* none did: Express answers 404 itself *)
| Uncaught (e : Error).       (* an error escaped every handler *)

Definition outcome_of (r : Res Flow * World) : Outcome * World :=
  match r with
  | (Ok (Send res), w') => (Answered res, w')
  | (Ok (Next _), w') => (NoRoute, w')
  | (Throw e, w') => (Uncaught e, w')
  end.

(** One HTTP request against the application. *)
Definition serve (req : Request) (w : World) : Outcome * World :=
  outcome_of (handle app req w).

(** The two status-changing routes, by the status they set. *)
Definition action (s : Status) : string :=
  match s with
  | blocked => "block"
  | active => "unblock"
  end.

Definition put_api_users (s : Status) : Middleware :=
  match s with
  | blocked => put_api_users_block
  | active => put_api_users_unblock
  end.

Definition done_message (s : Status) : string :=
  match s with
  | blocked => "User has been blocked."
  | active => "User has been unblocked."
  end.

End Server.

(** The HTTP status the client receives; an error that escapes an async
    handler leaves the request without an answer. *)
Definition http_status (o : Outcome) : option nat :=
  match o with
  | Answered res => Some (res_status res)
  | NoRoute => Some 404
  | Uncaught _ => None
  end.

(** ** The life of the process *)

Definition set_clock (t : N) (w : World) : World :=
  mkWorld (rows w) (next_id w) t (rng w) (faults w) (env_JWT_SECRET w)
          (sockets w) (delivered w).

Definition set_sockets (s : list N) (w : World) : World :=
  mkWorld (rows w) (next_id w) (clock w) (rng w) (faults w) (env_JWT_SECRET w)
          s (delivered w).

(** What happens to the server: an HTTP request, a socket.io client
    connecting or disconnecting ([io.on("connection")], [socket.on
    ("disconnect")] only log), time passing. *)
Inductive Event : Type :=
| Http (req : Request)
| Connect (client : N)
| Disconnect (client : N)
| Tick (seconds : N).

Definition step {L : Libs} (e : Event) (w : World) : World :=
  match e with
  | Http req => snd (serve req w)
  | Connect c => set_sockets (c :: sockets w) w
  | Disconnect c => set_sockets (filter (fun c' => negb (N.eqb c' c)) (sockets w)) w
  | Tick d => set_clock (clock w + d) w
  end.

Definition run {L : Libs} (events : list Event) (w : World) : World :=
  fold_left (fun w' e => step e w') events w.

(** The store answers its next [n] round trips. *)
Definition store_answers (n : nat) (w : World) : Prop :=
  existsb (fun failed => failed) (firstn n (faults w)) = false.

(** A request as it reaches the application: the router has set no
    parameter yet, and no middleware has set [req.user]. *)
Definition incoming (m : Method) (path : list string) (auth : option string)
           (body : Json) : Request :=
  mkRequest m path auth body [] None.

(** The state once a round trip is over. *)
Definition after_query (w : World) : World := set_faults (tl (faults w)) w.

(** Modelled from the spec: the constraints of table [users], whose
    definition is not part of the source: ids and emails are unique, and the
    ids already given are below the next one. *)
Definition table_ok (w : World) : Prop :=
  NoDup (map user_id (rows w))
  /\ NoDup (map user_email (rows w))
  /\ Forall (fun u => (user_id u < next_id w)%N) (rows w).

(** [Authorization: Bearer <token>] with a token that verifies now as [c]. *)
Definition bearer_of (auth : option string) (w : World) {L : Libs} (c : Claims)
  : Prop :=
  exists h t,
    auth = Some h
    /\ startsWith h "Bearer " = true
    /\ nth_error (split space h) 1 = Some t
    /\ jwt_verify t (JWT_SECRET w) (clock w) = Some c.

(** The status the store holds for the row [SELECT ... WHERE id = $1]
    returns first. *)
Definition status_of (id : N) (w : World) : option Status :=
  option_map user_status (find (fun u => N.eqb (user_id u) id) (rows w)).

(** [jwt.verify] accepts what [jwt.sign] issued, with the same secret, until
    the expiry time, and hands back the payload with both times. *)
Definition jwt_sound (L : Libs) : Prop :=
  forall p secret iat d t,
    (t < iat + d)%N ->
    jwt_verify (jwt_sign p secret iat d) secret t
    = Some (mkClaims (payload_id p) (payload_email p) iat (iat + d)).

(** The rows after [UPDATE users SET status = s WHERE id = id]. *)
Definition set_status_where (s : Status) (id : N) (l : list User) : list User :=
  map (fun u => if N.eqb (user_id u) id then with_status s u else u) l.

(** The rows after [UPDATE users SET last_login = t WHERE id = id]. *)
Definition set_last_login_where (t : N) (id : N) (l : list User) : list User :=
  map (fun u => if N.eqb (user_id u) id then with_last_login t u else u) l.

(** The routes registered behind [authenticateToken]. *)
Inductive protected : Method -> list string -> Prop :=
| protected_list : protected GET ["api"; "users"]
| protected_put (s : Status) (seg : string) :
    seg <> "" -> protected PUT ["api"; "users"; action s; seg].

(** A computation that ends the request: it sends a response. *)
Definition answers (m : M Flow) : Prop :=
  forall w, exists res w', m w = (Ok (Send res), w').

(** The body of a [try]: it sends a response or throws. *)
Definition answers_or_throws (m : M Flow) : Prop :=
  forall w, (exists res w', m w = (Ok (Send res), w'))
            \/ (exists e w', m w = (Throw e, w')).


(** The columns the list route selects. *)
Definition listed_columns : list string :=
  ["id"; "name"; "email"; "last_login"; "status"].

(** A request left the table and the pushed events as they were. *)
Definition same_state (w w' : World) : Prop :=
  rows w' = rows w /\ next_id w' = next_id w /\ delivered w' = delivered w.

(** The state after a status change that found its row. *)
Definition changed (s : Status) (id : N) (w : World) : World :=
  set_delivered (delivered w ++ map (fun c => (c, "usersUpdated")) (sockets w))
    (set_rows (set_status_where s id (rows w)) (after_query (after_query w))).

(** A computation that keeps the constraints of the table. *)
Definition keeps_table {A} (m : M A) : Prop :=
  forall w, table_ok w -> table_ok (snd (m w)).

(** A computation that lets no error escape. *)
Definition never_throws (m : M Flow) : Prop :=
  forall w, exists flow w', m w = (Ok flow, w').

(** ** A reference instance of the libraries

    Small stand-ins to run the model on concrete requests: a token carries
    its fields in the clear, a hash is the salt followed by the password.
    The theorems below hold for every instance of [Libs]. *)

Module Reference.

Definition hex_digit (n : N) : ascii :=
  ascii_of_N (if (n <? 10)%N then 48 + n else 87 + n).

Definition hex_value (c : ascii) : option N :=
  let n := N_of_ascii c in
  if ((48 <=? n) && (n <=? 57))%N then Some (n - 48)%N
  else if ((97 <=? n) && (n <=? 102))%N then Some (n - 87)%N
  else None.

Fixpoint hex (s : string) : string :=
  match s with
  | EmptyString => EmptyString
  | String a rest =>
      String (hex_digit (N_of_ascii a / 16))
             (String (hex_digit (N_of_ascii a mod 16)) (hex rest))
  end.

Fixpoint unhex (s : string) : option string :=
  match s with
  | EmptyString => Some EmptyString
  | String h (String l rest) =>
      match hex_value h, hex_value l, unhex rest with
      | Some a, Some b, Some t => Some (String (ascii_of_N (16 * a + b)) t)
      | _, _, _ => None
      end
  | String _ EmptyString => None
  end.

Definition dec (n : N) : string := NilEmpty.string_of_uint (N.to_uint n).

Definition undec (s : string) : option N :=
  if String.eqb s "" then None
  else option_map N.of_uint (NilEmpty.uint_of_string s).

Definition dot : ascii := "."%char.

Definition sign (p : Payload) (secret : string) (now expiresIn : N) : string :=
  hex secret ++ "." ++ hex (payload_email p) ++ "." ++ dec (payload_id p)
  ++ "." ++ dec now ++ "." ++ dec (now + expiresIn).

Definition verify (token secret : string) (now : N) : option Claims :=
  match split dot token with
  | [s; e; i; a; x] =>
      match unhex s, unhex e, undec i, undec a, undec x with
      | Some s', Some e', Some i', Some a', Some x' =>
          if String.eqb s' secret && (now <? x')%N
          then Some (mkClaims i' e' a' x')
          else None
      | _, _, _, _, _ => None
      end
  | _ => None
  end.

Definition hash (s : string) (rounds : nat) (salt : N) : string :=
  dec salt ++ "$" ++ s.

Definition compare (s h : string) : bool :=
  match split "$"%char h with
  | _ :: rest => String.eqb (String.concat "$" rest) s
  | [] => false
  end.

Definition text (v : option Json) : string :=
  match v with
  | Some (JStr s) => s
  | Some (JNum z) => if (z <? 0)%Z then "-" ++ dec (Z.to_N (- z))
                     else dec (Z.to_N z)
  | Some (JBool true) => "true"
  | Some (JBool false) => "false"
  | _ => ""
  end.

Definition libs : Libs :=
  {| bcrypt_hash := hash;
     bcrypt_compare := compare;
     jwt_sign := sign;
     jwt_verify := verify;
     pg_text := text;
     pg_int := undec |}.

(** An empty store at time 1000, one client connected. *)
Definition w0 : World :=
  mkWorld [] 1 1000 7 [] None [5%N] [].

Definition json_post (path : list string) (body : Json) : Request :=
  incoming POST path None body.

Definition credentials (name email password : string) : Json :=
  JObj [("name", JStr name); ("email", JStr email); ("password", JStr password)].

Definition register_alice : Request :=
  json_post ["api"; "register"] (credentials "Alice" "alice@x.com" "pw123").

Definition login_alice : Request :=
  json_post ["api"; "login"] (credentials "Alice" "alice@x.com" "pw123").

Definition register_bob : Request :=
  json_post ["api"; "register"] (credentials "Bob" "bob@x.com" "hunter2").

Definition login_bob : Request :=
  json_post ["api"; "login"] (credentials "Bob" "bob@x.com" "hunter2").

(** Alice again, with the name left empty. *)
Definition register_empty_name : Request :=
  json_post ["api"; "register"] (credentials "" "alice@x.com" "pw123").

(** Alice registered. *)
Definition w_alice : World := run (L := libs) [Http register_alice] w0.

(** Alice and Bob registered, a minute apart, and then logged in, Bob
    first: the clock is at 1180. *)
Definition w_two : World :=
  run (L := libs)
      [Tick 60; Http register_bob; Tick 60; Http login_bob; Tick 60;
       Http login_alice] w_alice.

(** The tokens the two logins returned. *)
Definition alice_token : string :=
  sign (mkPayload 1 "alice@x.com") "your_secret_key" 1180 3600.

Definition bob_token : string :=
  sign (mkPayload 2 "bob@x.com") "your_secret_key" 1120 3600.

Definition alice_claims : Claims := mkClaims 1 "alice@x.com" 1180 4780.

Definition bob_claims : Claims := mkClaims 2 "bob@x.com" 1120 4720.

(** A token for an id the table never held. *)
Definition ghost_token : string :=
  sign (mkPayload 9 "ghost@x.com") "your_secret_key" 1180 3600.

Definition ghost_claims : Claims := mkClaims 9 "ghost@x.com" 1180 4780.

Definition bearer (token : string) : option string :=
  Some ("Bearer " ++ token).

(** Bob blocks Alice. *)
Definition bob_blocks_alice : Request :=
  incoming PUT ["api"; "users"; action blocked; "1"] (bearer bob_token) JNull.

Definition w_alice_blocked : World :=
  run (L := libs) [Http bob_blocks_alice] w_two.

Definition alice_row (s : Status) : User :=
  mkUser 1 "Alice" "alice@x.com" "7$pw123" s 1180.

Definition bob_row : User :=
  mkUser 2 "Bob" "bob@x.com" "8$hunter2" active 1120.

End Reference.

(** ** What every request respects *)

(** A property of one handler run: the state before, what the handler
    returned, the state after. *)
Definition holds (Q : World -> Res Flow -> World -> Prop) (m : M Flow) : Prop :=
  forall w, Q w (fst (m w)) (snd (m w)).

(** The events one [io.emit("usersUpdated")] pushes. *)
Definition pushed (w : World) : list (N * string) :=
  map (fun c => (c, "usersUpdated")) (sockets w).

(** Rows and pushed events are as before. *)
Definition untouched (w w' : World) : Prop :=
  rows w' = rows w /\ delivered w' = delivered w.

(** Unless the answer is 200 or 201, rows and pushed events are as before. *)
Definition atomic (w : World) (r : Res Flow) (w' : World) : Prop :=
  match r with
  | Ok (Send res) =>
      res_status res = 200 \/ res_status res = 201 \/ untouched w w'
  | _ => untouched w w'
  end.

(** Clients, clock and secret are as before, and the pushed events are as
    before or one [io.emit] longer, the latter only with the success answer of
    block or unblock. *)
Definition pushes_once (w : World) (r : Res Flow) (w' : World) : Prop :=
  sockets w' = sockets w /\ clock w' = clock w
  /\ env_JWT_SECRET w' = env_JWT_SECRET w
  /\ (delivered w' = delivered w
      \/ (exists s,
             r = Ok (Send (mkResponse 200 (message_body (done_message s))))
             /\ delivered w' = (delivered w ++ pushed w)%list)).

(** What identifies a row and what its owner stored: id, name, email and
    password hash. *)
Definition identity (u : User) : N * string * string * string :=
  (user_id u, user_name u, user_email u, user_password u).

(** The rows keep their identities, in order; only the 201 of a registration
    comes with one more row, at the end. *)
Definition keeps_identities (w : World) (r : Res Flow) (w' : World) : Prop :=
  map identity (rows w') = map identity (rows w)
  \/ (exists u,
         r = Ok (Send (mkResponse 201
                         (message_body "User registered successfully!")))
         /\ map identity (rows w')
            = (map identity (rows w) ++ [identity u])%list).

(** The error answers of server.js: status and message. *)
Definition error_catalogue : list (nat * string) :=
  [ (401, "Access denied. No token provided.");
    (403, "Invalid token.");
    (404, "User not found.");
    (403, "You are blocked. Action not allowed.");
    (500, "Server error.");
    (400, "All fields are required.");
    (409, "Email already exists.");
    (500, "Could not register user.");
    (400, "Email and password are required.");
    (401, "Invalid email or password.");
    (403, "User is blocked.");
    (500, "Login failed.");
    (500, "Could not fetch users.");
    (500, "Could not block user.");
    (500, "Could not unblock user.") ].

(** The answers of server.js: an error of the catalogue, or one of the four
    success shapes. *)
Definition catalogued (res : Response) : Prop :=
  (exists msg, In (res_status res, msg) error_catalogue
               /\ res_body res = error_body msg)
  \/ res = mkResponse 201 (message_body "User registered successfully!")
  \/ (exists s, res = mkResponse 200 (message_body (done_message s)))
  \/ (exists token,
         res = mkResponse 200 (JObj [("message", JStr "Login successful!");
                                     ("token", JStr token)]))
  \/ (exists listed,
         res = mkResponse 200
                 (JObj [("users",
                         JArr (map (select_columns listed_columns) listed))])).

Definition answers_catalogued (w : World) (r : Res Flow) (w' : World) : Prop :=
  match r with
  | Ok (Send res) => catalogued res
  | _ => True
  end.

(** [bcrypt.compare] accepts a password against the hash [bcrypt.hash] made
    of it. *)
Definition bcrypt_sound (L : Libs) : Prop :=
  forall p rounds salt, bcrypt_compare p (bcrypt_hash p rounds salt) = true.

(** [jwt.verify] rejects what [jwt.sign] issued once the expiry time is
    reached. *)
Definition jwt_expires (L : Libs) : Prop :=
  forall p secret iat d t,
    (iat + d <= t)%N ->
    jwt_verify (jwt_sign p secret iat d) secret t = None.

(** A token of [jwt.sign] holds no space. *)
Definition jwt_compact (L : Libs) : Prop :=
  forall p secret iat d, lacks space (jwt_sign p secret iat d) = true.

(** The store reads the decimal text of an id as that id. *)
Definition reads_ids (L : Libs) : Prop :=
  forall id, pg_int (NilEmpty.string_of_int (Z.to_int (Z.of_N id))) = Some id.

(** The rows after the status of each id of a list was set, in order. *)
Definition set_status_of_all (s : Status) (ids : list N) (l : list User)
  : list User :=
  fold_left (fun rows id => set_status_where s id rows) ids l.

(** * The client: the UserTable component

    The two versions of the component in the repository, as far as they talk
    to the server: component state and localStorage as a record, a state
    setter as an update of the record, [fetch] as one request against the
    application. *)

Module UserTable.

(** A call of [alert]. *)
Inductive Alert : Type :=
| Said (text : string)                (* alert("...") *)
| Shown (value : option Json)         (* alert(data.error) *)
| ActionFailed (error : option Json). (* alert(`Action failed: ${data.error}`) *)

Record Client : Type := mkClient {
  users : option Json;            (* useState([]), later data.users *)
  isLoggedIn : bool;
  selectedUsers : list Z;         (* the ids of the checked rows *)
  showRegister : bool;
  errorMessage : string;
  token : option string;          (* the state token: a string or null *)
  stored_token : option string;   (* localStorage.getItem("token") *)
  alerts : list Alert;            (* the calls of alert so far *)
  emitted : list string           (* the calls of socket.emit so far *)
}.

Definition setUsers (v : option Json) (c : Client) : Client :=
  mkClient v (isLoggedIn c) (selectedUsers c) (showRegister c) (errorMessage c)
           (token c) (stored_token c) (alerts c) (emitted c).

Definition setIsLoggedIn (v : bool) (c : Client) : Client :=
  mkClient (users c) v (selectedUsers c) (showRegister c) (errorMessage c)
           (token c) (stored_token c) (alerts c) (emitted c).

Definition setSelectedUsers (v : list Z) (c : Client) : Client :=
  mkClient (users c) (isLoggedIn c) v (showRegister c) (errorMessage c)
           (token c) (stored_token c) (alerts c) (emitted c).

Definition setShowRegister (v : bool) (c : Client) : Client :=
  mkClient (users c) (isLoggedIn c) (selectedUsers c) v (errorMessage c)
           (token c) (stored_token c) (alerts c) (emitted c).

Definition setErrorMessage (v : string) (c : Client) : Client :=
  mkClient (users c) (isLoggedIn c) (selectedUsers c) (showRegister c) v
           (token c) (stored_token c) (alerts c) (emitted c).

Definition setToken (v : option string) (c : Client) : Client :=
  mkClient (users c) (isLoggedIn c) (selectedUsers c) (showRegister c)
           (errorMessage c) v (stored_token c) (alerts c) (emitted c).

(** [localStorage.removeItem("token")]. *)
Definition removeItem_token (c : Client) : Client :=
  mkClient (users c) (isLoggedIn c) (selectedUsers c) (showRegister c)
           (errorMessage c) (token c) None (alerts c) (emitted c).

Definition alert (a : Alert) (c : Client) : Client :=
  mkClient (users c) (isLoggedIn c) (selectedUsers c) (showRegister c)
           (errorMessage c) (token c) (stored_token c) (alerts c ++ [a])
           (emitted c).

Definition socket_emit (event : string) (c : Client) : Client :=
  mkClient (users c) (isLoggedIn c) (selectedUsers c) (showRegister c)
           (errorMessage c) (token c) (stored_token c) (alerts c)
           (emitted c ++ [event]).

(** [`${userId}`] for an integer id. *)
Definition Number_toString (z : Z) : string :=
  NilEmpty.string_of_int (Z.to_int z).

(** [`${token}`] for a string or null. *)
Definition template (v : option string) : string :=
  match v with
  | Some s => s
  | None => "null"
  end.

(** [!token] for a string or null. *)
Definition falsy (v : option string) : bool :=
  match v with
  | Some s => String.eqb s ""
  | None => true
  end.

(** [response.ok]. *)
Definition response_ok (res : Response) : bool :=
  Nat.leb 200 (res_status res) && Nat.leb (res_status res) 299.

(** [prev.includes(userId) ? prev.filter((id) => id !== userId)
                           : [...prev, userId]]. *)
Definition toggleSelection (userId : Z) (prev : list Z) : list Z :=
  if existsb (Z.eqb userId) prev
  then filter (fun id => negb (Z.eqb id userId)) prev
  else prev ++ [userId].

(** The box in the table head, [ids] being [users.map((u) => u.id)]:
    [checked={selectedUsers.length === users.length}] and, on change,
    [selectedUsers.length === users.length ? [] : users.map((u) => u.id)]. *)
Definition all_checked (selected ids : list Z) : bool :=
  Nat.eqb (List.length selected) (List.length ids).

Definition toggle_all (selected ids : list Z) : list Z :=
  if all_checked selected ids then [] else ids.

Section WithServer.

Context {L : Libs}.

(** [await fetch(url, { method, headers })] with the Authorization header
    and no body. *)
Definition fetch (m : Method) (path : list string) (authorization : string)
  : World -> Outcome * World :=
  serve (incoming m path (Some authorization) (JObj [])).

End WithServer.

(** ** The second version *)

Module Second.

Definition handleLogout (c : Client) : Client :=
  setToken None
    (setErrorMessage ""
       (setShowRegister true (setIsLoggedIn false (removeItem_token c)))).

Section WithServer.

Context {L : Libs}.

(** [fetchUsers(storedToken)].  Express's own 404 is not JSON, so
    [response.json()] throws on it. *)
Definition fetchUsers (storedToken : option string) (c : Client) (w : World)
  : Client * World :=
  match fetch GET ["api"; "users"] ("Bearer " ++ template storedToken) w with
  | (Answered response, w') =>
      let data := res_body response in
      if negb (response_ok response)
      then if Nat.eqb (res_status response) 403
           then (handleLogout
                   (setErrorMessage
                      "You have been blocked. Please contact an administrator."
                      c), w')
           else (c, w')
      else (setUsers (js_get "users" data) c, w')
  | (_, w') =>
      (handleLogout (setErrorMessage "Session expired. Please log in again." c),
       w')
  end.

(** The body of [for (const userId of selectedUsers)] and what follows the
    loop. *)
Fixpoint requests (action : string) (token : string) (ids : list Z)
         (c : Client) (w : World) : Client * World :=
  match ids with
  | [] => (socket_emit "usersUpdated" (setSelectedUsers [] c), w)
  | userId :: rest =>
      let '(method, path) :=
        if String.eqb action "delete"
        then (DELETE, ["api"; "users"; Number_toString userId])
        else (PUT, ["api"; "users"; action; Number_toString userId]) in
      match fetch method path ("Bearer " ++ token) w with
      | (Answered response, w') =>
          let data := res_body response in
          if negb (response_ok response)
          then if Nat.eqb (res_status response) 403
               then (handleLogout (alert (Shown (js_get "error" data)) c), w')
               else requests action token rest c w'
          else requests action token rest c w'
      | (_, w') => (c, w')
      end
  end.

Definition handleAction (action : string) (c : Client) (w : World)
  : Client * World :=
  if Nat.eqb (List.length (selectedUsers c)) 0 || falsy (token c)
  then (c, w)
  else requests action (template (token c)) (selectedUsers c) c w.

(** [socket.on("usersUpdated", handleUserUpdate)] while there is a token. *)
Definition on_usersUpdated (c : Client) (w : World) : Client * World :=
  if falsy (token c) then (c, w) else fetchUsers (token c) c w.

End WithServer.

End Second.

(** ** The first version *)

Module First.

Section WithServer.

Context {L : Libs}.

(** The [catch] of [fetchUsers]. *)
Definition session_expired (c : Client) : Client :=
  removeItem_token
    (setIsLoggedIn false
       (setErrorMessage "Session expired. Please log in again." c)).

(** [fetchUsers(storedToken)]: the [throw] of the branch for a status other
    than 403 lands in the [catch], as a failing [response.json()] does. *)
Definition fetchUsers (storedToken : option string) (c : Client) (w : World)
  : Client * World :=
  if falsy storedToken then (setIsLoggedIn false c, w)
  else
    match fetch GET ["api"; "users"] ("Bearer " ++ template storedToken) w with
    | (Answered response, w') =>
        let data := res_body response in
        if negb (response_ok response)
        then if Nat.eqb (res_status response) 403
             then (setIsLoggedIn false
                     (removeItem_token
                        (setErrorMessage
                           "You have been blocked. Please contact an administrator."
                           c)), w')
             else (session_expired c, w')
        else (setUsers (js_get "users" data) c, w')
    | (_, w') => (session_expired c, w')
    end.

Fixpoint requests (action : string) (token : string) (ids : list Z)
         (c : Client) (w : World) : Client * World :=
  match ids with
  | [] => (setSelectedUsers [] c, w)
  | userId :: rest =>
      let '(method, path) :=
        if String.eqb action "unblock"
        then (PUT, ["api"; "users"; "unblock"; Number_toString userId])
        else if String.eqb action "delete"
        then (DELETE, ["api"; "users"; "delete"; Number_toString userId])
        else (PUT, ["api"; "users"; action; Number_toString userId]) in
      match fetch method path ("Bearer " ++ token) w with
      | (Answered response, w') =>
          let data := res_body response in
          if Nat.eqb (res_status response) 403
          then
            match js_get "error" data with
            | Some (JStr error) =>
                if String.eqb error "You are blocked. Action not allowed."
                then (setIsLoggedIn false
                        (removeItem_token
                           (alert (Said "You are blocked! Logging out...") c)),
                      w')
                else if String.eqb error "Invalid token"
                then (setIsLoggedIn false
                        (removeItem_token
                           (alert (Said "Session expired or invalid. Logging out...")
                                  c)),
                      w')
                else requests action token rest
                              (alert (ActionFailed (Some (JStr error))) c) w'
            | error => requests action token rest (alert (ActionFailed error) c) w'
            end
          else requests action token rest c w'
      | (_, w') => (c, w')
      end
  end.

Definition handleAction (action : string) (c : Client) (w : World)
  : Client * World :=
  if Nat.eqb (List.length (selectedUsers c)) 0 || falsy (token c)
  then (c, w)
  else requests action (template (token c)) (selectedUsers c) c w.

End WithServer.

End First.

End UserTable.

(** ** Scenarios for the client and for later requests *)

Module Scenario.

Import Reference UserTable.

(** The table of [w_two], with a store that answers once and then fails. *)
Definition w_flaky : World := set_faults [false; true] w_two.

(** [w_two] an hour later: both tokens have expired. *)
Definition w_later : World := run (L := libs) [Tick 3600] w_two.

Definition carol : Json := credentials "Carol" "carol@x.com" "s3cret".

(** A client after login: the token in state and in localStorage, some rows
    checked. *)
Definition logged_in (token : string) (selected : list Z) : Client :=
  mkClient (Some (JArr [])) true selected false "" (Some token) (Some token)
           [] [].

End Scenario.


Create HintDb handlers.

(** * Facts *)

Section Facts.

Context {L : Libs}.

(** ** The store's round trips *)

Lemma pool_query_answers {A} (statement : M A) (w : World) :
  store_answers 1 w -> pool_query statement w = statement (after_query w).
Proof.
  unfold store_answers, pool_query, after_query.
  destruct w as [r n c g f e s d]; simpl.
  destruct f as [|[] f']; simpl; intros H; try discriminate; reflexivity.
Qed.

Lemma store_answers_next (n : nat) (w : World) :
  store_answers (S n) w -> store_answers 1 w /\ store_answers n (after_query w).
Proof.
  unfold store_answers, after_query; simpl.
  destruct (faults w) as [|[] f']; simpl; intros H; try discriminate.
  - split; [reflexivity | destruct n; reflexivity].
  - split; [destruct (firstn 0 f'); reflexivity | exact H].
Qed.

Lemma store_answers_le (n m : nat) (w : World) :
  m <= n -> store_answers n w -> store_answers m w.
Proof.
  unfold store_answers. revert m. generalize (faults w) as f.
  induction n as [|n IH]; intros f m Hm H.
  - replace m with 0 by lia. reflexivity.
  - destruct m as [|m]; [reflexivity|].
    destruct f as [|b f']; [reflexivity|]. simpl in *.
    apply orb_false_iff in H. destruct H as [Hb H].
    rewrite Hb. simpl. apply IH; [lia | exact H].
Qed.

(** ** The two middlewares *)

Lemma startsWith_nonempty (h : string) :
  startsWith h "Bearer " = true -> String.eqb h "" = false.
Proof. destruct h; [discriminate | reflexivity]. Qed.

Lemma authenticateToken_no_header (req : Request) (w : World) :
  req_authorization req = None ->
  authenticateToken req w
  = (Ok (Send (mkResponse 401 (error_body "Access denied. No token provided."))),
     w).
Proof. intros H. unfold authenticateToken. rewrite H. reflexivity. Qed.

Lemma authenticateToken_not_bearer (req : Request) (w : World) (h : string) :
  req_authorization req = Some h ->
  startsWith h "Bearer " = false ->
  authenticateToken req w
  = (Ok (Send (mkResponse 401 (error_body "Access denied. No token provided."))),
     w).
Proof.
  intros H Hp. unfold authenticateToken. rewrite H, Hp, orb_true_r.
  reflexivity.
Qed.

Lemma authenticateToken_invalid (req : Request) (w : World) (h : string) :
  req_authorization req = Some h ->
  startsWith h "Bearer " = true ->
  match nth_error (split space h) 1 with
  | Some t => jwt_verify t (JWT_SECRET w) (clock w)
  | None => None
  end = None ->
  authenticateToken req w
  = (Ok (Send (mkResponse 403 (error_body "Invalid token."))), w).
Proof.
  intros H Hp Hv. unfold authenticateToken.
  rewrite H, (startsWith_nonempty _ Hp), Hp, Hv. reflexivity.
Qed.

Lemma authenticateToken_valid (req : Request) (w : World) (c : Claims) :
  bearer_of (req_authorization req) w c ->
  authenticateToken req w = (Ok (Next (set_user c req)), w).
Proof.
  intros (h & t & H & Hp & Ht & Hv). unfold authenticateToken.
  rewrite H, (startsWith_nonempty _ Hp), Hp, Ht, Hv. reflexivity.
Qed.

Lemma find_filter_status (id : N) (l : list User) :
  map user_status (filter (fun u => N.eqb (user_id u) id) l)
  = match find (fun u => N.eqb (user_id u) id) l with
    | Some u =>
        user_status u
        :: map user_status
             (tl (filter (fun u => N.eqb (user_id u) id) l))
    | None => []
    end.
Proof.
  induction l as [|u l IH]; simpl; [reflexivity|].
  destruct (N.eqb (user_id u) id); simpl; [reflexivity | exact IH].
Qed.

Lemma checkIfBlocked_answer (req : Request) (w : World) (c : Claims) :
  req_user req = Some c ->
  store_answers 1 w ->
  checkIfBlocked req w
  = match status_of (claims_id c) w with
    | None =>
        (Ok (Send (mkResponse 404 (error_body "User not found."))),
         after_query w)
    | Some blocked =>
        (Ok (Send (mkResponse 403
                     (error_body "You are blocked. Action not allowed."))),
         after_query w)
    | Some active => (Ok (Next req), after_query w)
    end.
Proof.
  intros Hu Hs. unfold checkIfBlocked, try_catch, bind. rewrite Hu.
  unfold ret at 1. rewrite (pool_query_answers _ _ Hs).
  unfold sql_select_status_by_id, status_of.
  rewrite find_filter_status. simpl.
  destruct (find _ (rows w)) as [u|]; simpl; [|reflexivity].
  destruct (user_status u); reflexivity.
Qed.

(** ** The status-changing handlers *)

Lemma set_status_where_absent (s : Status) (id : N) (l : list User) :
  existsb (fun u => N.eqb (user_id u) id) l = false ->
  set_status_where s id l = l.
Proof.
  induction l as [|u l IH]; simpl; [reflexivity|].
  intros H. apply orb_false_iff in H. destruct H as [Hu Hl].
  rewrite Hu, (IH Hl). reflexivity.
Qed.

Lemma length_filter_zero {A} (f : A -> bool) (l : list A) :
  Nat.eqb (List.length (filter f l)) 0 = negb (existsb f l).
Proof.
  induction l as [|a l IH]; simpl; [reflexivity|].
  destruct (f a); simpl; [reflexivity | exact IH].
Qed.

Lemma put_api_users_answer (s : Status) (req : Request) (w : World)
      (seg : string) (id : N) :
  param "id" req = Some seg ->
  pg_int seg = Some id ->
  store_answers 1 w ->
  put_api_users s req w
  = if existsb (fun u => N.eqb (user_id u) id) (rows w)
    then (Ok (Send (mkResponse 200 (message_body (done_message s)))),
          set_delivered
            (delivered w ++ map (fun c => (c, "usersUpdated")) (sockets w))
            (set_rows (set_status_where s id (rows w)) (after_query w)))
    else (Ok (Send (mkResponse 404 (error_body "User not found."))),
          set_rows (rows w) (after_query w)).
Proof.
  intros Hp Hi Hs.
  destruct s; unfold put_api_users, put_api_users_block, put_api_users_unblock,
    try_catch, bind; rewrite Hp; rewrite (pool_query_answers _ _ Hs);
    unfold sql_update_status_param, sql_update_status; rewrite Hi;
    rewrite length_filter_zero; simpl;
    destruct (existsb _ (rows w)) eqn:E; simpl; try reflexivity;
    fold (set_status_where active id (rows w));
    fold (set_status_where blocked id (rows w));
    rewrite (set_status_where_absent _ _ _ E); reflexivity.
Qed.

(** ** Routing *)

Lemma send_answers (code : nat) (body : Json) : answers (send code body).
Proof. intros w. eexists. eexists. reflexivity. Qed.

Lemma answers_weaken (m : M Flow) : answers m -> answers_or_throws m.
Proof. intros H w. left. apply H. Qed.

Lemma bind_answers_or_throws {A} (m : M A) (k : A -> M Flow) :
  (forall a, answers_or_throws (k a)) -> answers_or_throws (bind m k).
Proof.
  intros H w. unfold bind. destruct (m w) as [[a|e] w'].
  - apply H.
  - right. eexists. eexists. reflexivity.
Qed.

Lemma try_catch_answers (body : M Flow) (handler : Error -> M Flow) :
  answers_or_throws body -> (forall e, answers (handler e)) ->
  answers (try_catch body handler).
Proof.
  intros Hb Hh w. unfold try_catch.
  destruct (Hb w) as [(res & w' & E)|(e & w' & E)]; rewrite E.
  - eexists. eexists. reflexivity.
  - apply Hh.
Qed.

#[local] Hint Resolve send_answers answers_weaken : handlers.

Lemma put_api_users_answers (s : Status) (req : Request) :
  answers (put_api_users s req).
Proof.
  destruct s; apply try_catch_answers; auto with handlers;
    apply bind_answers_or_throws; intros n; destruct (Nat.eqb n 0);
    auto with handlers; apply bind_answers_or_throws; auto with handlers.
Qed.

Lemma get_api_users_answers (req : Request) : answers (get_api_users req).
Proof.
  apply try_catch_answers; auto with handlers.
  apply bind_answers_or_throws; auto with handlers.
Qed.

Lemma post_api_register_answers (req : Request) :
  answers (post_api_register req).
Proof.
  unfold post_api_register.
  destruct (_ || _); auto with handlers.
  apply try_catch_answers.
  - repeat (apply bind_answers_or_throws; intros); auto with handlers.
  - intros e. destruct (code_is e "23505"); auto with handlers.
Qed.

Lemma post_api_login_answers (req : Request) : answers (post_api_login req).
Proof.
  unfold post_api_login.
  destruct (_ || _); auto with handlers.
  apply try_catch_answers; auto with handlers.
  apply bind_answers_or_throws. intros [|user rest]; auto with handlers.
  destruct (Status_eqb _ _); auto with handlers.
  apply bind_answers_or_throws. intros [|]; simpl; auto with handlers.
  repeat (apply bind_answers_or_throws; intros); auto with handlers.
Qed.

Lemma serve_put_users (s : Status) (seg : string) (auth : option string)
      (body : Json) (w : World) (c : Claims) :
  seg <> "" ->
  bearer_of auth w c ->
  store_answers 1 w ->
  serve (incoming PUT ["api"; "users"; action s; seg] auth body) w
  = match status_of (claims_id c) w with
    | None =>
        (Answered (mkResponse 404 (error_body "User not found.")),
         after_query w)
    | Some blocked =>
        (Answered (mkResponse 403
                     (error_body "You are blocked. Action not allowed.")),
         after_query w)
    | Some active =>
        outcome_of
          (put_api_users s
             (mkRequest PUT ["api"; "users"; action s; seg] auth body
                        [("id", seg)] (Some c))
             (after_query w))
    end.
Proof.
  intros Hseg Hb Hs.
  apply String.eqb_neq in Hseg.
  destruct s; unfold serve, app, handle, incoming; simpl; rewrite Hseg; simpl;
    unfold bind;
    rewrite (authenticateToken_valid _ _ c) by exact Hb;
    rewrite (checkIfBlocked_answer _ _ c) by (try reflexivity; exact Hs);
    (destruct (status_of (claims_id c) w) as [[|]|]; [|reflexivity|reflexivity]);
    unfold set_user, set_params; simpl;
    match goal with
    | |- context [put_api_users_block ?r (after_query w)] =>
        destruct (put_api_users_answers blocked r (after_query w))
          as (res & w' & E)
    | |- context [put_api_users_unblock ?r (after_query w)] =>
        destruct (put_api_users_answers active r (after_query w))
          as (res & w' & E)
    end;
    simpl in E; rewrite E; reflexivity.
Qed.

Lemma serve_protected_rejected (m : Method) (path : list string)
      (auth : option string) (body : Json) (w : World) (res : Response) :
  protected m path ->
  (forall req, req_authorization req = auth ->
               authenticateToken req w = (Ok (Send res), w)) ->
  serve (incoming m path auth body) w = (Answered res, w).
Proof.
  intros Hp Ha.
  destruct Hp as [|s seg Hseg].
  - unfold serve, app, handle, incoming; simpl. unfold bind.
    rewrite Ha by reflexivity. reflexivity.
  - apply String.eqb_neq in Hseg.
    destruct s; unfold serve, app, handle, incoming; simpl; rewrite Hseg; simpl;
      unfold bind; rewrite Ha by reflexivity; reflexivity.
Qed.

Lemma split_nonempty (sep : ascii) (s : string) :
  exists h t, split sep s = h :: t.
Proof.
  induction s as [|c s (h & t & IH)]; simpl.
  - eexists. eexists. reflexivity.
  - destruct (Ascii.eqb c sep); [|rewrite IH]; eexists; eexists; reflexivity.
Qed.

(** A header that starts with ["Bearer "] always has a second piece. *)
Lemma bearer_has_token (h : string) :
  startsWith h "Bearer " = true ->
  exists t, nth_error (split space h) 1 = Some t.
Proof.
  intros H.
  do 7 (destruct h as [|? h]; [discriminate|];
        cbn [startsWith] in H; apply andb_prop in H; destruct H as [Hc H];
        apply Ascii.eqb_eq in Hc; subst).
  simpl. destruct (split_nonempty space h) as (t & l & E). rewrite E.
  exists t. reflexivity.
Qed.

(** ** No error escapes a handler *)

Lemma authenticateToken_cases (req : Request) (w : World) :
  authenticateToken req w
  = (Ok (Send (mkResponse 401 (error_body "Access denied. No token provided."))),
     w)
  \/ authenticateToken req w
     = (Ok (Send (mkResponse 403 (error_body "Invalid token."))), w)
  \/ exists c, bearer_of (req_authorization req) w c
               /\ authenticateToken req w = (Ok (Next (set_user c req)), w).
Proof.
  destruct (req_authorization req) as [h|] eqn:Ha.
  - destruct (startsWith h "Bearer ") eqn:Hp.
    + destruct (bearer_has_token h Hp) as (t & Ht).
      destruct (jwt_verify t (JWT_SECRET w) (clock w)) as [c|] eqn:Hv.
      * right. right. exists c.
        assert (Hb : bearer_of (Some h) w c).
        { exists h, t. repeat split; assumption. }
        split; [exact Hb | apply authenticateToken_valid; rewrite Ha; exact Hb].
      * right. left. apply (authenticateToken_invalid _ _ h); try assumption.
        rewrite Ht. exact Hv.
    + left. apply (authenticateToken_not_bearer _ _ h); assumption.
  - left. apply authenticateToken_no_header. exact Ha.
Qed.

Lemma answers_never_throws (m : M Flow) : answers m -> never_throws m.
Proof. intros H w. destruct (H w) as (res & w' & E). rewrite E. eauto. Qed.

Lemma authenticateToken_never_throws (req : Request) :
  never_throws (authenticateToken req).
Proof.
  intros w.
  destruct (authenticateToken_cases req w) as [E|[E|(c & _ & E)]];
    rewrite E; eauto.
Qed.

Lemma checkIfBlocked_never_throws (req : Request) :
  never_throws (checkIfBlocked req).
Proof.
  intros w. unfold checkIfBlocked, try_catch.
  match goal with |- context [match ?body w with _ => _ end] =>
    destruct (body w) as [[flow|e] w'] end; unfold send, ret; eauto.
Qed.

Lemma run_stack_never_throws (stack : list Middleware) :
  Forall (fun m => forall req, never_throws (m req)) stack ->
  forall req, never_throws (run_stack stack req).
Proof.
  induction 1 as [|m stack Hm _ IH]; intros req w; simpl.
  - unfold ret. eauto.
  - unfold bind. destruct (Hm req w) as ([req'|res] & w' & E); rewrite E.
    + apply IH.
    + unfold ret. eauto.
Qed.

Lemma handle_never_throws (routes : list Route) :
  Forall (fun r => Forall (fun m => forall req, never_throws (m req))
                          (route_stack r)) routes ->
  forall req, never_throws (handle routes req).
Proof.
  induction 1 as [|r routes Hr _ IH]; intros req w; simpl.
  - unfold ret. eauto.
  - destruct (Method_eqb _ _); [|apply IH].
    destruct (match_path _ _) as [params|]; [|apply IH].
    unfold bind.
    destruct (run_stack_never_throws _ Hr (set_params params req) w)
      as ([req'|res] & w' & E); rewrite E.
    + apply IH.
    + unfold ret. eauto.
Qed.

(** Every request is answered by a handler of server.js or finds no route:
    each handler turns the errors of the store and of the libraries into a
    response of its own. *)
Lemma serve_settles (req : Request) (w : World) :
  exists w', serve req w = (NoRoute, w')
             \/ exists res, serve req w = (Answered res, w').
Proof.
  unfold serve.
  assert (H : never_throws (handle app req)).
  { apply handle_never_throws. unfold app.
    repeat first [apply Forall_nil | apply Forall_cons]; intros req0;
      first [ apply authenticateToken_never_throws
            | apply checkIfBlocked_never_throws
            | apply answers_never_throws;
              first [ apply post_api_register_answers
                    | apply post_api_login_answers
                    | apply get_api_users_answers
                    | apply (put_api_users_answers blocked)
                    | apply (put_api_users_answers active) ] ]. }
  destruct (H w) as ([req'|res] & w' & E); rewrite E; exists w'; simpl; eauto.
Qed.

(** Each protected path is served by a route of [app] whose first handler
    is [authenticateToken]. *)
Lemma protected_in_app (m : Method) (path : list string) :
  protected m path ->
  exists r params,
    In r app /\ route_method r = m
    /\ match_path (route_path r) path = Some params
    /\ hd_error (route_stack r) = Some authenticateToken.
Proof.
  intros [|s seg Hseg].
  - eexists. exists []. split; [right; right; left; reflexivity|].
    repeat split.
  - apply String.eqb_neq in Hseg. destruct s.
    + eexists. exists [("id", seg)].
      split; [do 4 right; left; reflexivity|].
      simpl. rewrite Hseg. repeat split.
    + eexists. exists [("id", seg)].
      split; [do 3 right; left; reflexivity|].
      simpl. rewrite Hseg. repeat split.
Qed.

End Facts.

(** * The claims *)

Section Claims.

Context {L : Libs}.

Lemma status_of_absent (id : N) (w : World) :
  (forall u, In u (rows w) -> user_id u <> id) -> status_of id w = None.
Proof.
  intros H. unfold status_of.
  destruct (find _ (rows w)) as [u|] eqn:E; [|reflexivity].
  apply find_some in E. destruct E as [Hin Heq].
  apply N.eqb_eq in Heq. destruct (H u Hin Heq).
Qed.

Lemma same_state_after_query (w : World) : same_state w (after_query w).
Proof. repeat split. Qed.

(** C1. Every protected route first checks the token: without an
    Authorization header, or with one that does not start with "Bearer ",
    the answer is 401 "Access denied. No token provided."; with a bearer
    token that [jwt.verify] rejects (invalid or expired) it is 403 "Invalid
    token."; both before any round trip to the store.  On the block and
    unblock routes the caller's status is then read from the store, and a
    caller whose row says blocked gets 403 "You are blocked. Action not
    allowed." although the token verifies; table and pushed events stay as
    they were. *)
Theorem authorization_gate :
  (forall m path auth body w,
      protected m path ->
      (auth = None \/ exists h, auth = Some h /\ startsWith h "Bearer " = false) ->
      serve (incoming m path auth body) w
      = (Answered (mkResponse 401
                     (error_body "Access denied. No token provided.")), w))
  /\ (forall m path h t body w,
         protected m path ->
         startsWith h "Bearer " = true ->
         nth_error (split space h) 1 = Some t ->
         jwt_verify t (JWT_SECRET w) (clock w) = None ->
         serve (incoming m path (Some h) body) w
         = (Answered (mkResponse 403 (error_body "Invalid token.")), w))
  /\ (forall s seg auth body w c,
         seg <> "" ->
         bearer_of auth w c ->
         store_answers 1 w ->
         status_of (claims_id c) w = Some blocked ->
         fst (serve (incoming PUT ["api"; "users"; action s; seg] auth body) w)
         = Answered (mkResponse 403
                       (error_body "You are blocked. Action not allowed."))
         /\ same_state w
              (snd (serve (incoming PUT ["api"; "users"; action s; seg]
                                    auth body) w))).
Proof.
  split; [|split].
  - intros m path auth body w Hp [Ha|(h & Ha & Hs)];
      apply serve_protected_rejected; try exact Hp; intros req Hr.
    + apply authenticateToken_no_header. congruence.
    + apply (authenticateToken_not_bearer _ _ h); congruence.
  - intros m path h t body w Hp Hs Ht Hv.
    apply serve_protected_rejected; try exact Hp; intros req Hr.
    apply (authenticateToken_invalid _ _ h); try assumption.
    rewrite Ht. exact Hv.
  - intros s seg auth body w c Hseg Hb Hst Hblocked.
    rewrite (serve_put_users s seg auth body w c Hseg Hb Hst), Hblocked.
    split; [reflexivity | apply same_state_after_query].
Qed.

(** C10. On the block and unblock routes, a token that verifies but whose
    id no row of the table carries is answered 404 "User not found." by the
    blocked-status check; the handler does not run, table and pushed events
    stay as they were. *)
Theorem unknown_caller_not_found (s : Status) (seg : string)
        (auth : option string) (body : Json) (w : World) (c : Claims) :
  seg <> "" ->
  bearer_of auth w c ->
  store_answers 1 w ->
  (forall u, In u (rows w) -> user_id u <> claims_id c) ->
  fst (serve (incoming PUT ["api"; "users"; action s; seg] auth body) w)
  = Answered (mkResponse 404 (error_body "User not found."))
  /\ same_state w
       (snd (serve (incoming PUT ["api"; "users"; action s; seg] auth body) w)).
Proof.
  intros Hseg Hb Hst Hnone.
  rewrite (serve_put_users s seg auth body w c Hseg Hb Hst).
  rewrite (status_of_absent _ _ Hnone).
  split; [reflexivity | apply same_state_after_query].
Qed.

Lemma existsb_id_true (id : N) (l : list User) :
  (exists u, In u l /\ user_id u = id) ->
  existsb (fun u => N.eqb (user_id u) id) l = true.
Proof.
  intros (u & Hin & Hid). apply existsb_exists. exists u.
  split; [exact Hin | apply N.eqb_eq; exact Hid].
Qed.

Lemma existsb_id_false (id : N) (l : list User) :
  (forall u, In u l -> user_id u <> id) ->
  existsb (fun u => N.eqb (user_id u) id) l = false.
Proof.
  intros H. destruct (existsb _ l) eqn:E; [|reflexivity].
  apply existsb_exists in E. destruct E as (u & Hin & Hid).
  apply N.eqb_eq in Hid. destruct (H u Hin Hid).
Qed.

Lemma with_status_same (u : User) : with_status (user_status u) u = u.
Proof. destruct u; reflexivity. Qed.

Lemma set_status_where_same (s : Status) (id : N) (l : list User) :
  (forall u, In u l -> user_id u = id -> user_status u = s) ->
  set_status_where s id l = l.
Proof.
  induction l as [|u l IH]; simpl; intros H; [reflexivity|].
  rewrite IH by (intros v Hv; apply H; right; exact Hv).
  destruct (N.eqb_spec (user_id u) id) as [E|E]; [|reflexivity].
  rewrite <- (H u (or_introl eq_refl) E), with_status_same. reflexivity.
Qed.

Lemma set_status_where_idem (s : Status) (id : N) (l : list User) :
  set_status_where s id (set_status_where s id l) = set_status_where s id l.
Proof.
  unfold set_status_where. rewrite map_map. apply map_ext. intros u.
  destruct (N.eqb (user_id u) id) eqn:E; simpl; rewrite E; reflexivity.
Qed.

Lemma set_status_where_in (s : Status) (id : N) (l : list User) (u : User) :
  In u (set_status_where s id l) -> user_id u = id -> user_status u = s.
Proof.
  unfold set_status_where. intros Hin Hid.
  apply in_map_iff in Hin. destruct Hin as (v & Hv & _).
  destruct (N.eqb_spec (user_id v) id) as [E|E]; subst u.
  - reflexivity.
  - contradiction.
Qed.

Lemma set_status_where_others (s : Status) (id : N) (l : list User) (u : User) :
  user_id u <> id -> (In u (set_status_where s id l) <-> In u l).
Proof.
  unfold set_status_where. intros Hid. split; intros Hin.
  - apply in_map_iff in Hin. destruct Hin as (v & Hv & Hin).
    destruct (N.eqb_spec (user_id v) id) as [E|E]; subst u.
    + destruct Hid. exact E.
    + exact Hin.
  - apply in_map_iff. exists u. split; [|exact Hin].
    destruct (N.eqb_spec (user_id u) id) as [E|E]; [contradiction|reflexivity].
Qed.

(** A block or unblock request that passes both checks. *)
Lemma serve_put_users_allowed (s : Status) (seg : string)
      (auth : option string) (body : Json) (w : World) (c : Claims) (id : N) :
  seg <> "" ->
  bearer_of auth w c ->
  status_of (claims_id c) w = Some active ->
  store_answers 2 w ->
  pg_int seg = Some id ->
  serve (incoming PUT ["api"; "users"; action s; seg] auth body) w
  = if existsb (fun u => N.eqb (user_id u) id) (rows w)
    then (Answered (mkResponse 200 (message_body (done_message s))),
          changed s id w)
    else (Answered (mkResponse 404 (error_body "User not found.")),
          set_rows (rows w) (after_query (after_query w))).
Proof.
  intros Hseg Hb Hc Hst Hid.
  destruct (store_answers_next 1 w Hst) as [H1 H2].
  rewrite (serve_put_users s seg auth body w c Hseg Hb H1), Hc.
  rewrite (put_api_users_answer s _ _ seg id) by (reflexivity || assumption).
  simpl rows. destruct (existsb _ (rows w)); reflexivity.
Qed.

(** C3. A block (unblock) request that passes both checks of the gate, and
    whose update the store answers: when no row carries the target id the
    answer is 404 "User not found." and table and pushed events stay as they
    were; when a row does, every row with that id now has status blocked
    (active), all other rows are as before, "usersUpdated" goes to every
    connected client, and the answer is 200 with the success message. *)
Theorem block_unblock_effect (s : Status) (seg : string) (auth : option string)
        (body : Json) (w : World) (c : Claims) (id : N) :
  seg <> "" ->
  bearer_of auth w c ->
  status_of (claims_id c) w = Some active ->
  store_answers 2 w ->
  pg_int seg = Some id ->
  let result := serve (incoming PUT ["api"; "users"; action s; seg] auth body) w in
  ((forall u, In u (rows w) -> user_id u <> id) ->
   fst result = Answered (mkResponse 404 (error_body "User not found."))
   /\ same_state w (snd result))
  /\ ((exists u, In u (rows w) /\ user_id u = id) ->
      fst result = Answered (mkResponse 200 (message_body (done_message s)))
      /\ rows (snd result) = set_status_where s id (rows w)
      /\ (forall u, In u (rows (snd result)) -> user_id u = id ->
                    user_status u = s)
      /\ (forall u, user_id u <> id ->
                    (In u (rows (snd result)) <-> In u (rows w)))
      /\ delivered (snd result)
         = (delivered w
            ++ map (fun client => (client, "usersUpdated")) (sockets w))%list
      /\ (forall client, In client (sockets w) ->
                         In (client, "usersUpdated") (delivered (snd result)))).
Proof.
  intros Hseg Hb Hc Hst Hid result. subst result.
  rewrite (serve_put_users_allowed s seg auth body w c id Hseg Hb Hc Hst Hid).
  split.
  - intros Hnone. rewrite (existsb_id_false _ _ Hnone).
    split; [reflexivity | repeat split].
  - intros Hsome. rewrite (existsb_id_true _ _ Hsome). simpl.
    split; [reflexivity|].
    split; [reflexivity|].
    split; [apply set_status_where_in|].
    split; [intros u Hu; apply set_status_where_others; exact Hu|].
    split; [reflexivity|].
    intros client Hin. apply in_or_app. right.
    apply in_map_iff. exists client. split; [reflexivity | exact Hin].
Qed.

Lemma existsb_set_status_where (s : Status) (id id' : N) (l : list User) :
  existsb (fun u => N.eqb (user_id u) id') (set_status_where s id l)
  = existsb (fun u => N.eqb (user_id u) id') l.
Proof.
  unfold set_status_where.
  induction l as [|u l IH]; simpl; [reflexivity|].
  rewrite IH. destruct (N.eqb (user_id u) id); reflexivity.
Qed.

(** C9. Block and unblock are idempotent.  A request that passes the gate
    and whose target already has the status it sets is answered with the
    same 200 success message, and the rows are as before.  After a
    successful request, the same request again leaves the rows as the first
    left them, and as long as its caller is still not blocked it gets the
    same answer. *)
Theorem block_unblock_idempotent (s : Status) (seg : string)
        (auth : option string) (body : Json) (w : World) (c : Claims) (id : N) :
  seg <> "" ->
  bearer_of auth w c ->
  status_of (claims_id c) w = Some active ->
  store_answers 4 w ->
  pg_int seg = Some id ->
  (exists u, In u (rows w) /\ user_id u = id) ->
  let req := incoming PUT ["api"; "users"; action s; seg] auth body in
  let once := snd (serve req w) in
  ((forall u, In u (rows w) -> user_id u = id -> user_status u = s) ->
   fst (serve req w) = Answered (mkResponse 200 (message_body (done_message s)))
   /\ rows once = rows w)
  /\ rows (snd (serve req once)) = rows once
  /\ (status_of (claims_id c) once = Some active ->
      fst (serve req once) = fst (serve req w)).
Proof.
  intros Hseg Hb Hc Hst Hid Hsome req once. subst req once.
  assert (Hst2 : store_answers 2 w) by (apply (store_answers_le 4); [lia | exact Hst]).
  rewrite (serve_put_users_allowed s seg auth body w c id Hseg Hb Hc Hst2 Hid).
  rewrite (existsb_id_true _ _ Hsome). simpl fst. simpl snd.
  assert (Hb' : bearer_of auth (changed s id w) c) by exact Hb.
  assert (Hst' : store_answers 2 (changed s id w)).
  { destruct (store_answers_next 3 w Hst) as [_ H3].
    destruct (store_answers_next 2 _ H3) as [_ H2]. exact H2. }
  split; [|split].
  - intros Hsame. split; [reflexivity|].
    simpl. apply set_status_where_same. exact Hsame.
  - destruct (store_answers_next 1 _ Hst') as [H1 H2].
    rewrite (serve_put_users s seg auth body _ c Hseg Hb' H1).
    destruct (status_of (claims_id c) (changed s id w)) as [[|]|];
      try reflexivity.
    rewrite (put_api_users_answer s _ _ seg id) by (reflexivity || assumption).
    destruct (existsb _ _); simpl; [apply set_status_where_idem | reflexivity].
  - intros Hc'.
    rewrite (serve_put_users_allowed s seg auth body _ c id Hseg Hb' Hc' Hst' Hid).
    simpl rows. rewrite existsb_set_status_where, (existsb_id_true _ _ Hsome).
    reflexivity.
Qed.

(** ** Registration and login, path by path *)

Lemma serve_register (auth : option string) (body : Json) (w : World) :
  serve (incoming POST ["api"; "register"] auth body) w
  = let name := js_get "name" body in
    let email := js_get "email" body in
    let password := js_get "password" body in
    if negb (js_truthy name) || negb (js_truthy email)
       || negb (js_truthy password)
    then (Answered (mkResponse 400 (error_body "All fields are required.")), w)
    else
      match password with
      | Some (JStr p) =>
          let w1 := after_query (set_rng (rng w + 1) w) in
          if hd false (faults w)
          then (Answered (mkResponse 500 (error_body "Could not register user.")),
                w1)
          else if existsb (fun u => String.eqb (user_email u) (pg_text email))
                          (rows w)
          then (Answered (mkResponse 409 (error_body "Email already exists.")),
                w1)
          else (Answered (mkResponse 201
                            (message_body "User registered successfully!")),
                set_next_id (next_id w + 1)
                  (set_rows (rows w
                             ++ [mkUser (next_id w) (pg_text name)
                                        (pg_text email)
                                        (bcrypt_hash p 10 (rng w)) active
                                        (clock w)]) w1))
      | _ => (Answered (mkResponse 500 (error_body "Could not register user.")),
              w)
      end.
Proof.
  unfold serve, app, handle, incoming; simpl.
  unfold bind at 1. unfold post_api_register. simpl.
  destruct (negb (js_truthy (js_get "name" body))
            || negb (js_truthy (js_get "email" body))
            || negb (js_truthy (js_get "password" body)));
    [reflexivity|].
  unfold try_catch, bind, bcrypt_hash_js, pool_query, sql_insert_user.
  destruct (js_get "password" body) as [[| | |p| |]|]; try reflexivity.
  destruct w as [r n c g f e so d]; simpl.
  destruct f as [|[] f']; simpl; try reflexivity;
    destruct (existsb _ r); reflexivity.
Qed.

Lemma serve_login (auth : option string) (body : Json) (w : World) :
  serve (incoming POST ["api"; "login"] auth body) w
  = let email := js_get "email" body in
    let password := js_get "password" body in
    if negb (js_truthy email) || negb (js_truthy password)
    then (Answered (mkResponse 400
                      (error_body "Email and password are required.")), w)
    else if hd false (faults w)
    then (Answered (mkResponse 500 (error_body "Login failed.")), after_query w)
    else
      match filter (fun u => String.eqb (user_email u) (pg_text email)) (rows w)
      with
      | [] => (Answered (mkResponse 401
                           (error_body "Invalid email or password.")),
               after_query w)
      | user :: _ =>
          if Status_eqb (user_status user) blocked
          then (Answered (mkResponse 403 (error_body "User is blocked.")),
                after_query w)
          else
            match password with
            | Some (JStr p) =>
                if negb (bcrypt_compare p (user_password user))
                then (Answered (mkResponse 401
                                  (error_body "Invalid email or password.")),
                      after_query w)
                else if hd false (tl (faults w))
                then (Answered (mkResponse 500 (error_body "Login failed.")),
                      after_query (after_query w))
                else
                  (Answered
                     (mkResponse 200
                        (JObj [("message", JStr "Login successful!");
                               ("token",
                                JStr (jwt_sign
                                        (mkPayload (user_id user)
                                                   (user_email user))
                                        (JWT_SECRET w) (clock w)
                                        expiresIn_1h))])),
                   set_rows (set_last_login_where (clock w) (user_id user)
                                                  (rows w))
                            (after_query (after_query w)))
            | _ => (Answered (mkResponse 500 (error_body "Login failed.")),
                    after_query w)
            end
      end.
Proof.
  unfold serve, app, handle, incoming; simpl.
  unfold bind at 1. unfold post_api_login. simpl.
  destruct (negb (js_truthy (js_get "email" body))
            || negb (js_truthy (js_get "password" body)));
    [reflexivity|].
  unfold try_catch, bind, pool_query, sql_select_user_by_email,
    bcrypt_compare_js, jwt_sign_1h, sql_update_last_login,
    set_last_login_where, JWT_SECRET.
  destruct w as [r n c g f e so d]; simpl.
  destruct f as [|[] f']; simpl; try reflexivity;
    (destruct (filter _ r) as [|user rest]; [reflexivity|]);
    (destruct (Status_eqb (user_status user) blocked); [reflexivity|]);
    (destruct (js_get "password" body) as [[| | |p| |]|]; try reflexivity);
    simpl; (destruct (bcrypt_compare p (user_password user)); [|reflexivity]);
    simpl; try reflexivity.
  destruct f' as [|[] f'']; reflexivity.
Qed.

(** ** Listing *)

Lemma store_answers_hd (w : World) :
  store_answers 1 w <-> hd false (faults w) = false.
Proof.
  unfold store_answers. destruct (faults w) as [|b f]; simpl.
  - split; reflexivity.
  - rewrite orb_false_r. split; intros H; exact H.
Qed.







Lemma get_api_users_answer (req : Request) (w : World) :
  get_api_users req w
  = if hd false (faults w)
    then (Ok (Send (mkResponse 500 (error_body "Could not fetch users."))),
          after_query w)
    else (Ok (Send (mkResponse 200
                      (JObj [("users",
                              JArr (map (select_columns listed_columns)
                                        (order_by_last_login_desc (rows w))))]))),
          after_query w).
Proof.
  unfold get_api_users, try_catch, bind, pool_query, sql_select_users,
    after_query, listed_columns.
  destruct w as [r n c g f e so d]; simpl.
  destruct f as [|[] f']; reflexivity.
Qed.

Lemma serve_get_users (auth : option string) (body : Json) (w : World) :
  serve (incoming GET ["api"; "users"] auth body) w
  = match authenticateToken (incoming GET ["api"; "users"] auth body) w with
    | (Ok (Send res), w') => (Answered res, w')
    | (Ok (Next req), w') => outcome_of (get_api_users req w')
    | (Throw e, w') => (Uncaught e, w')
    end.
Proof.
  unfold serve, app, handle, incoming; simpl. unfold bind.
  destruct (authenticateToken _ w) as [[[req|res]|e] w']; try reflexivity.
  destruct (get_api_users_answers req w') as (res & w'' & E).
  rewrite E. reflexivity.
Qed.

Lemma has_key_password_listed (l : list User) :
  existsb (has_key "password") (map (select_columns listed_columns) l) = false.
Proof.
  induction l as [|u l IH]; simpl; [reflexivity|].
  rewrite IH. reflexivity.
Qed.


(** ** Rows found by a unique column *)

Lemma filter_email_absent (e : string) (l : list User) :
  ~ In e (map user_email l) ->
  filter (fun v => String.eqb (user_email v) e) l = [].
Proof.
  induction l as [|v l IH]; simpl; intros H; [reflexivity|].
  destruct (String.eqb_spec (user_email v) e) as [E|E].
  - destruct H. left. exact E.
  - apply IH. intros Hin. apply H. right. exact Hin.
Qed.

Lemma filter_email_unique (u : User) (l : list User) :
  NoDup (map user_email l) -> In u l ->
  filter (fun v => String.eqb (user_email v) (user_email u)) l = [u].
Proof.
  induction l as [|v l IH]; simpl; intros Hnd Hin; [destruct Hin|].
  inversion Hnd as [|? ? Hv Hl]; subst.
  destruct Hin as [E|Hin].
  - subst v. rewrite String.eqb_refl, (filter_email_absent _ _ Hv). reflexivity.
  - destruct (String.eqb_spec (user_email v) (user_email u)) as [E|E].
    + destruct Hv. rewrite E. apply in_map. exact Hin.
    + apply IH; assumption.
Qed.

Lemma same_id_same_row (u v : User) (l : list User) :
  NoDup (map user_id l) -> In u l -> In v l -> user_id u = user_id v -> u = v.
Proof.
  induction l as [|x l IH]; simpl; intros Hnd Hu Hv E; [destruct Hu|].
  inversion Hnd as [|? ? Hx Hl]; subst.
  destruct Hu as [Hu|Hu], Hv as [Hv|Hv]; subst.
  - reflexivity.
  - destruct Hx. rewrite E. apply in_map. exact Hv.
  - destruct Hx. rewrite <- E. apply in_map. exact Hu.
  - apply IH; assumption.
Qed.

(** C2. When the row that carries the email of a login request has status
    blocked, the request is never answered 401 and never with a token, and
    the table stays as it was; a request that carries both email and
    password, and that the store answers, gets 403 "User is blocked.",
    whatever the password. *)
Theorem blocked_user_cannot_login (auth : option string) (body : Json)
        (w : World) (u : User) :
  NoDup (map user_email (rows w)) ->
  In u (rows w) ->
  user_status u = blocked ->
  pg_text (js_get "email" body) = user_email u ->
  let result := serve (incoming POST ["api"; "login"] auth body) w in
  (http_status (fst result) <> Some 401
   /\ (exists res, fst result = Answered res
                   /\ js_get "token" (res_body res) = None)
   /\ same_state w (snd result))
  /\ (js_truthy (js_get "email" body) = true ->
      js_truthy (js_get "password" body) = true ->
      store_answers 1 w ->
      fst result = Answered (mkResponse 403 (error_body "User is blocked."))).
Proof.
  intros Hnd Hin Hblocked Hemail result. subst result.
  rewrite serve_login. cbv zeta.
  rewrite Hemail, (filter_email_unique u _ Hnd Hin), Hblocked. simpl.
  split.
  - destruct (negb _ || negb _); [|destruct (hd false (faults w))]; simpl;
      (split; [discriminate|]);
      (split; [eexists; split; reflexivity | repeat split]).
  - intros He Hp Hst. rewrite He, Hp. simpl.
    apply store_answers_hd in Hst. rewrite Hst. reflexivity.
Qed.

(** The rows after the UPDATE of a login, field by field. *)
Lemma set_last_login_where_fields (t id : N) (l : list User) :
  Forall2 (fun before after =>
             user_id after = user_id before
             /\ user_name after = user_name before
             /\ user_email after = user_email before
             /\ user_password after = user_password before
             /\ user_status after = user_status before
             /\ user_last_login after
                = if N.eqb (user_id before) id then t
                  else user_last_login before)
          l (set_last_login_where t id l).
Proof.
  induction l as [|u l IH]; simpl; constructor; [|exact IH].
  destruct (N.eqb (user_id u) id); repeat split.
Qed.

(** C7. A login whose email finds a row that is not blocked and whose
    password matches the stored hash is answered 200 with a token, which is
    [jwt.sign] of exactly that row's id and email, issued now and expiring
    3600 seconds later.  The rows afterwards are the rows before, in order
    and field by field, but for one field: the last_login of the row that
    logged in reads the current time, whatever it read before; name, email,
    hash and status of that row and every other row are as they were, and
    nothing is pushed.  With a jsonwebtoken that accepts what it signed,
    the token verifies until its expiry to claims with that row's id and
    email. *)
Theorem login_issues_token (auth : option string) (body : Json) (w : World)
        (user : User) (p : string) :
  table_ok w ->
  In user (rows w) ->
  pg_text (js_get "email" body) = user_email user ->
  js_truthy (js_get "email" body) = true ->
  js_get "password" body = Some (JStr p) ->
  p <> "" ->
  user_status user = active ->
  bcrypt_compare p (user_password user) = true ->
  store_answers 2 w ->
  let result := serve (incoming POST ["api"; "login"] auth body) w in
  let token := jwt_sign (mkPayload (user_id user) (user_email user))
                        (JWT_SECRET w) (clock w) 3600 in
  fst result
  = Answered (mkResponse 200 (JObj [("message", JStr "Login successful!");
                                    ("token", JStr token)]))
  /\ Forall2 (fun before after =>
                user_id after = user_id before
                /\ user_name after = user_name before
                /\ user_email after = user_email before
                /\ user_password after = user_password before
                /\ user_status after = user_status before
                /\ user_last_login after
                   = if N.eqb (user_id before) (user_id user) then clock w
                     else user_last_login before)
             (rows w) (rows (snd result))
  /\ In (mkUser (user_id user) (user_name user) (user_email user)
                (user_password user) (user_status user) (clock w))
        (rows (snd result))
  /\ (forall v, In v (rows (snd result)) ->
                user_id v = user_id user -> user_last_login v = clock w)
  /\ (forall v, In v (rows w) -> v <> user -> In v (rows (snd result)))
  /\ delivered (snd result) = delivered w
  /\ (jwt_sound L ->
      forall t, (t < clock w + 3600)%N ->
                jwt_verify token (JWT_SECRET w) t
                = Some (mkClaims (user_id user) (user_email user) (clock w)
                                 (clock w + 3600))).
Proof.
  intros (Hids & Hemails & _) Hin Hemail He Hp Hne Hactive Hcmp Hst result token.
  subst result token.
  destruct (store_answers_next 1 w Hst) as [H1 H2].
  apply store_answers_hd in H1. apply store_answers_hd in H2. simpl in H2.
  rewrite serve_login. cbv zeta.
  rewrite Hemail, (filter_email_unique user _ Hemails Hin), Hactive, He, Hp.
  apply String.eqb_neq in Hne. simpl. rewrite Hne. simpl.
  rewrite H1, Hcmp. simpl. rewrite H2. simpl.
  split; [reflexivity|].
  split; [apply set_last_login_where_fields|].
  fold (set_last_login_where (clock w) (user_id user) (rows w)).
  split.
  { unfold set_last_login_where. apply in_map_iff. exists user.
    rewrite N.eqb_refl. unfold with_last_login. rewrite Hactive.
    split; [reflexivity | exact Hin]. }
  split.
  { intros v Hv Hid. unfold set_last_login_where in Hv.
    apply in_map_iff in Hv. destruct Hv as (u & <- & _).
    destruct (N.eqb_spec (user_id u) (user_id user)) as [E|E];
      [reflexivity | contradiction]. }
  split.
  { intros v Hv Hdiff. unfold set_last_login_where. apply in_map_iff.
    exists v. split; [|exact Hv].
    destruct (N.eqb_spec (user_id v) (user_id user)) as [E|E]; [|reflexivity].
    destruct Hdiff. apply (same_id_same_row v user (rows w)); assumption. }
  split; [reflexivity|].
  intros Hsound t Ht.
  exact (Hsound (mkPayload (user_id user) (user_email user)) (JWT_SECRET w)
                (clock w) 3600%N t Ht).
Qed.

(** ** Registration *)

Lemma exists_email_existsb (e : string) (l : list User) :
  existsb (fun u => String.eqb (user_email u) e) l = true
  <-> exists u, In u l /\ user_email u = e.
Proof.
  rewrite existsb_exists. split; intros (u & Hin & H); exists u; split;
    try exact Hin; apply String.eqb_eq; exact H.
Qed.

Lemma truthy_string (v : option Json) (p : string) :
  v = Some (JStr p) -> (js_truthy v = true <-> p <> "").
Proof.
  intros ->. simpl. rewrite negb_true_iff. apply String.eqb_neq.
Qed.

(** C6, as the code has it.  Registration is answered 400 exactly when one
    of name, email and password is absent or falsy (null, false, 0, the
    empty string).  It is answered 409 exactly when all three are truthy,
    the password is a string, the store answers the insert and a row with
    that email exists already; the table is then as it was, and under the
    unique constraint it holds exactly one row with that email. *)
Theorem registration_errors (auth : option string) (body : Json) (w : World) :
  let result := serve (incoming POST ["api"; "register"] auth body) w in
  let name := js_get "name" body in
  let email := js_get "email" body in
  let password := js_get "password" body in
  (http_status (fst result) = Some 400
   <-> js_truthy name = false \/ js_truthy email = false
       \/ js_truthy password = false)
  /\ (http_status (fst result) = Some 409
      <-> js_truthy name = true /\ js_truthy email = true
          /\ (exists p, password = Some (JStr p) /\ p <> "")
          /\ store_answers 1 w
          /\ exists u, In u (rows w) /\ user_email u = pg_text email)
  /\ (http_status (fst result) = Some 409 ->
      same_state w (snd result)
      /\ (NoDup (map user_email (rows w)) ->
          List.length (filter (fun u => String.eqb (user_email u) (pg_text email))
                              (rows (snd result))) = 1)).
Proof.
  intros result name email password. subst result name email password.
  rewrite serve_register. cbv zeta.
  destruct (js_truthy (js_get "name" body)) eqn:Hn;
    [|simpl; repeat split; try discriminate; intuition discriminate].
  destruct (js_truthy (js_get "email" body)) eqn:He;
    [|simpl; repeat split; try discriminate; intuition discriminate].
  destruct (js_truthy (js_get "password" body)) eqn:Hp; simpl.
  2:{ repeat split; try discriminate; auto.
      intros (_ & _ & (p & Hs & Hne) & _).
      apply (truthy_string _ _ Hs) in Hne. congruence. }
  destruct (js_get "password" body) as [[| | |p| |]|] eqn:Hpw; simpl;
    try (repeat split; try discriminate; try (intuition discriminate);
         intros (_ & _ & (q & Hs & _) & _); discriminate).
  destruct (hd false (faults w)) eqn:Hf; simpl.
  { repeat split; try discriminate; try (intuition discriminate).
    intros (_ & _ & _ & Hst & _). apply store_answers_hd in Hst. congruence. }
  destruct (existsb _ (rows w)) eqn:Hex; simpl.
  - apply exists_email_existsb in Hex.
    split; [split; [discriminate | intuition discriminate]|].
    split.
    + split; [|reflexivity]. intros _.
      split; [reflexivity|]. split; [reflexivity|].
      split; [exists p; split; [reflexivity | apply (truthy_string _ _ eq_refl); exact Hp]|].
      split; [apply store_answers_hd; exact Hf | exact Hex].
    + intros _. split; [repeat split|].
      intros Hnd. destruct Hex as (u & Hin & Hu). rewrite <- Hu.
      rewrite (filter_email_unique u _ Hnd Hin). reflexivity.
  - split; [split; [discriminate | intuition discriminate]|].
    split; [|discriminate].
    split; [discriminate|].
    intros (_ & _ & _ & _ & Hu). apply exists_email_existsb in Hu. congruence.
Qed.

(** C8. A registration answered 201 has put exactly one row at the end of
    the table: the next id, the name and email of the request, status
    active, last_login the current time, and as password the bcrypt hash of
    the request's password with cost 10 and a fresh salt; no event is pushed
    to the clients.  It is answered 201 whenever the three fields are
    truthy, the password is a string, the store answers and the email is
    new. *)
Theorem registration_success (auth : option string) (body : Json) (w : World) :
  let result := serve (incoming POST ["api"; "register"] auth body) w in
  let name := js_get "name" body in
  let email := js_get "email" body in
  (http_status (fst result) = Some 201 ->
   exists p,
     js_get "password" body = Some (JStr p)
     /\ rows (snd result)
        = (rows w ++ [mkUser (next_id w) (pg_text name) (pg_text email)
                             (bcrypt_hash p 10 (rng w)) active (clock w)])%list
     /\ delivered (snd result) = delivered w)
  /\ (forall p,
         js_truthy name = true ->
         js_truthy email = true ->
         js_get "password" body = Some (JStr p) ->
         p <> "" ->
         store_answers 1 w ->
         (forall u, In u (rows w) -> user_email u <> pg_text email) ->
         fst result
         = Answered (mkResponse 201
                       (message_body "User registered successfully!"))).
Proof.
  intros result name email. subst result name email.
  rewrite serve_register. cbv zeta. split.
  - destruct (negb _ || negb _ || negb _); simpl; [discriminate|].
    destruct (js_get "password" body) as [[| | |p| |]|]; simpl;
      try discriminate.
    destruct (hd false (faults w)); simpl; [discriminate|].
    destruct (existsb _ (rows w)); simpl; [discriminate|].
    intros _. exists p. repeat split.
  - intros p Hn He Hp Hne Hst Hnew.
    rewrite Hn, He, Hp.
    apply String.eqb_neq in Hne. simpl. rewrite Hne. simpl.
    apply store_answers_hd in Hst. rewrite Hst.
    destruct (existsb _ (rows w)) eqn:Hex; [|reflexivity].
    apply exists_email_existsb in Hex. destruct Hex as (u & Hin & Hu).
    destruct (Hnew u Hin Hu).
Qed.

(** No route of server.js has method DELETE. *)
Lemma delete_is_not_routed (path : list string) (auth : option string)
      (body : Json) (w : World) :
  serve (incoming DELETE path auth body) w = (NoRoute, w).
Proof. reflexivity. Qed.

(** ** The constraints of the table hold in every state the server reaches *)

Lemma table_ok_same_rows (w w' : World) :
  rows w' = rows w -> next_id w' = next_id w -> table_ok w -> table_ok w'.
Proof. unfold table_ok. intros -> ->. exact (fun H => H). Qed.

Lemma keeps_ret {A} (a : A) : keeps_table (ret a).
Proof. intros w H. exact H. Qed.

Lemma keeps_throw {A} (e : Error) : keeps_table (@throw A e).
Proof. intros w H. exact H. Qed.

Lemma keeps_send (code : nat) (body : Json) : keeps_table (send code body).
Proof. intros w H. exact H. Qed.

Lemma keeps_bind {A B} (m : M A) (k : A -> M B) :
  keeps_table m -> (forall a, keeps_table (k a)) -> keeps_table (bind m k).
Proof.
  intros Hm Hk w H. unfold bind. specialize (Hm w H).
  destruct (m w) as [[a|e] w']; simpl in *; [apply Hk; exact Hm | exact Hm].
Qed.

Lemma keeps_try_catch {A} (body : M A) (handler : Error -> M A) :
  keeps_table body -> (forall e, keeps_table (handler e)) ->
  keeps_table (try_catch body handler).
Proof.
  intros Hb Hh w H. unfold try_catch. specialize (Hb w H).
  destruct (body w) as [[a|e] w']; simpl in *; [exact Hb | apply Hh; exact Hb].
Qed.

Lemma keeps_pool_query {A} (statement : M A) :
  keeps_table statement -> keeps_table (pool_query statement).
Proof.
  intros Hs w H. unfold pool_query.
  destruct (faults w) as [|[] later]; simpl.
  - apply Hs. exact H.
  - apply (table_ok_same_rows w); [reflexivity | reflexivity | exact H].
  - apply Hs. apply (table_ok_same_rows w); [reflexivity | reflexivity | exact H].
Qed.

Lemma table_ok_map (f : User -> User) (w : World) :
  (forall u, user_id (f u) = user_id u) ->
  (forall u, user_email (f u) = user_email u) ->
  table_ok w -> table_ok (set_rows (map f (rows w)) w).
Proof.
  intros Hid Hemail (H1 & H2 & H3). unfold table_ok. simpl.
  rewrite !map_map.
  rewrite (map_ext (fun u => user_id (f u)) user_id Hid).
  rewrite (map_ext (fun u => user_email (f u)) user_email Hemail).
  split; [exact H1|]. split; [exact H2|].
  apply Forall_map. apply (Forall_impl _ (P := fun u => (user_id u < next_id w)%N));
    [|exact H3].
  intros u Hu. rewrite Hid. exact Hu.
Qed.

Lemma keeps_sql_update_status (s : Status) (id : option string) :
  keeps_table (sql_update_status_param s id).
Proof.
  intros w H. destruct id as [text|]; simpl; [|exact H].
  unfold sql_update_status. destruct (pg_int text) as [i|]; simpl; [|exact H].
  apply table_ok_map; [| |exact H]; intros u;
    destruct (N.eqb (user_id u) i); reflexivity.
Qed.

Lemma keeps_sql_update_last_login (id : N) :
  keeps_table (sql_update_last_login id).
Proof.
  intros w H. unfold sql_update_last_login. simpl.
  apply table_ok_map; [| |exact H]; intros u;
    destruct (N.eqb (user_id u) id); reflexivity.
Qed.

Lemma keeps_sql_insert_user (name email : option Json) (hashed : string) :
  keeps_table (sql_insert_user name email hashed).
Proof.
  intros w (H1 & H2 & H3). unfold sql_insert_user.
  destruct (existsb _ (rows w)) eqn:E; simpl; [repeat split; assumption|].
  unfold table_ok. simpl. rewrite !map_app. simpl.
  split; [|split].
  - apply NoDup_app_remove_l with (l := []). simpl.
    apply (Permutation_NoDup (l := next_id w :: map user_id (rows w))).
    + apply Permutation_cons_append.
    + constructor; [|exact H1].
      intros Hin. apply in_map_iff in Hin. destruct Hin as (u & Hu & Hin).
      rewrite Forall_forall in H3. specialize (H3 u Hin). lia.
  - apply (Permutation_NoDup (l := pg_text email :: map user_email (rows w))).
    + apply Permutation_cons_append.
    + constructor; [|exact H2].
      intros Hin. apply in_map_iff in Hin. destruct Hin as (u & Hu & Hin).
      assert (Hex : existsb (fun v => String.eqb (user_email v) (pg_text email))
                            (rows w) = true).
      { apply existsb_exists. exists u. split; [exact Hin|].
        apply String.eqb_eq. exact Hu. }
      congruence.
  - apply Forall_app. split.
    + apply (Forall_impl _ (P := fun u => (user_id u < next_id w)%N)); [|exact H3].
      intros u Hu. lia.
    + constructor; [simpl; lia | constructor].
Qed.

Lemma keeps_sql_select_status_by_id (id : N) :
  keeps_table (sql_select_status_by_id id).
Proof. intros w H. exact H. Qed.

Lemma keeps_sql_select_user_by_email (email : option Json) :
  keeps_table (sql_select_user_by_email email).
Proof. intros w H. exact H. Qed.

Lemma keeps_sql_select_users : keeps_table sql_select_users.
Proof. intros w H. exact H. Qed.

Lemma keeps_io_emit (event : string) : keeps_table (io_emit event).
Proof. intros w H. exact H. Qed.

Lemma keeps_bcrypt_hash_js (password : option Json) (rounds : nat) :
  keeps_table (bcrypt_hash_js password rounds).
Proof.
  intros w H. unfold bcrypt_hash_js.
  destruct password as [[| | |p| |]|]; exact H.
Qed.

Lemma keeps_bcrypt_compare_js (password : option Json) (hash : string) :
  keeps_table (bcrypt_compare_js password hash).
Proof.
  intros w H. unfold bcrypt_compare_js.
  destruct password as [[| | |p| |]|]; exact H.
Qed.

Lemma keeps_jwt_sign_1h (payload : Payload) : keeps_table (jwt_sign_1h payload).
Proof. intros w H. exact H. Qed.

#[local] Hint Resolve keeps_ret keeps_throw keeps_send keeps_pool_query
  keeps_sql_update_status keeps_sql_update_last_login keeps_sql_insert_user
  keeps_sql_select_status_by_id keeps_sql_select_user_by_email
  keeps_sql_select_users
  keeps_io_emit keeps_bcrypt_hash_js keeps_bcrypt_compare_js keeps_jwt_sign_1h
  : handlers.

Ltac keeps :=
  repeat first
    [ apply keeps_try_catch; [|intros ?]
    | apply keeps_bind; [|intros ?]
    | solve [auto with handlers]
    | match goal with
      | |- keeps_table (if ?b then _ else _) => destruct b
      | |- keeps_table (match ?x with _ => _ end) => destruct x
      end ].

Lemma keeps_authenticateToken (req : Request) :
  keeps_table (authenticateToken req).
Proof.
  intros w H.
  destruct (authenticateToken_cases req w) as [E|[E|(c & _ & E)]];
    rewrite E; exact H.
Qed.

Lemma keeps_checkIfBlocked (req : Request) : keeps_table (checkIfBlocked req).
Proof. unfold checkIfBlocked. keeps. Qed.

Lemma keeps_post_api_register (req : Request) :
  keeps_table (post_api_register req).
Proof. unfold post_api_register. keeps. Qed.

Lemma keeps_post_api_login (req : Request) : keeps_table (post_api_login req).
Proof. unfold post_api_login. keeps. Qed.

Lemma keeps_get_api_users (req : Request) : keeps_table (get_api_users req).
Proof. unfold get_api_users. keeps. Qed.

Lemma keeps_put_api_users (s : Status) (req : Request) :
  keeps_table (put_api_users s req).
Proof.
  destruct s; unfold put_api_users, put_api_users_block, put_api_users_unblock;
    keeps.
Qed.

Lemma keeps_run_stack (stack : list Middleware) :
  Forall (fun m => forall req, keeps_table (m req)) stack ->
  forall req, keeps_table (run_stack stack req).
Proof.
  induction 1 as [|m stack Hm _ IH]; intros req; simpl.
  - apply keeps_ret.
  - apply keeps_bind; [apply Hm|]. intros [req'|res]; [apply IH | apply keeps_ret].
Qed.

Lemma keeps_handle (routes : list Route) :
  Forall (fun r => Forall (fun m => forall req, keeps_table (m req))
                          (route_stack r)) routes ->
  forall req, keeps_table (handle routes req).
Proof.
  induction 1 as [|r routes Hr _ IH]; intros req; simpl.
  - apply keeps_ret.
  - destruct (Method_eqb _ _); [|apply IH].
    destruct (match_path _ _) as [params|]; [|apply IH].
    apply keeps_bind; [apply keeps_run_stack; exact Hr|].
    intros [req'|res]; [apply IH | apply keeps_ret].
Qed.

(** Every request keeps the constraints of the table. *)
Lemma serve_keeps_table (req : Request) (w : World) :
  table_ok w -> table_ok (snd (serve req w)).
Proof.
  intros H. unfold serve.
  assert (Hk : keeps_table (handle app req)).
  { apply keeps_handle. unfold app.
    repeat first [apply Forall_nil | apply Forall_cons]; intros req0;
      first [ apply keeps_authenticateToken | apply keeps_checkIfBlocked
            | apply keeps_post_api_register | apply keeps_post_api_login
            | apply keeps_get_api_users
            | apply (keeps_put_api_users blocked)
            | apply (keeps_put_api_users active) ]. }
  specialize (Hk w H).
  destruct (handle app req w) as [[[req'|res]|e] w']; exact Hk.
Qed.

(** And so does everything else that happens to the process. *)
Lemma run_keeps_table (events : list Event) (w : World) :
  table_ok w -> table_ok (run events w).
Proof.
  unfold run. revert w.
  induction events as [|e events IH]; intros w H; simpl; [exact H|].
  apply IH. destruct e as [req|c|c|d]; simpl.
  - apply serve_keeps_table. exact H.
  - exact H.
  - exact H.
  - exact H.
Qed.

End Claims.

(** * What every request respects *)

Section Everywhere.

Context {L : Libs}.

(** One step into the innermost test of a handler. *)
Ltac inner_match :=
  match goal with
  | |- context [match ?x with _ => _ end] =>
      lazymatch x with
      | context [match _ with _ => _ end] => fail
      | _ => destruct x eqn:?
      end
  end.

(** Every path through a handler, each with its answer and its state. *)
Ltac paths :=
  intros w;
  unfold post_api_register, post_api_login, get_api_users, put_api_users_block,
    put_api_users_unblock, checkIfBlocked, try_catch, bind, pool_query,
    sql_insert_user, sql_select_user_by_email, sql_update_last_login,
    sql_select_users, sql_update_status_param, sql_update_status,
    sql_select_status_by_id, bcrypt_hash_js, bcrypt_compare_js, jwt_sign_1h,
    io_emit, send, ret, throw;
  destruct w as [r n c g f e so d];
  cbn [faults rows clock rng next_id sockets delivered set_faults];
  repeat (inner_match;
          cbn [fst snd faults rows clock rng next_id sockets delivered
               set_faults set_rows set_rng set_next_id set_delivered
               negb orb andb]).

Section Lifting.

Variable Q : World -> Res Flow -> World -> Prop.

Hypothesis Q_next : forall w req, Q w (Ok (Next req)) w.

Hypothesis Q_then :
  forall w w1 w2 req r, Q w (Ok (Next req)) w1 -> Q w1 r w2 -> Q w r w2.

Lemma run_stack_holds (stack : list Middleware) :
  Forall (fun m => forall req, holds Q (m req)) stack ->
  forall req, holds Q (run_stack stack req).
Proof.
  induction 1 as [|m stack Hm _ IH]; intros req w; simpl.
  - apply Q_next.
  - unfold bind. specialize (Hm req w).
    destruct (m req w) as [[[req'|res]|e] w1]; simpl in *.
    + apply (Q_then _ w1 _ req'); [exact Hm | apply IH].
    + exact Hm.
    + exact Hm.
Qed.

Lemma handle_holds (routes : list Route) :
  Forall (fun r => Forall (fun m => forall req, holds Q (m req))
                          (route_stack r)) routes ->
  forall req, holds Q (handle routes req).
Proof.
  induction 1 as [|r routes Hr _ IH]; intros req w; simpl.
  - apply Q_next.
  - destruct (Method_eqb _ _); [|apply IH].
    destruct (match_path _ _) as [params|]; [|apply IH].
    unfold bind.
    pose proof (run_stack_holds _ Hr (set_params params req) w) as Hs.
    destruct (run_stack _ _ w) as [[[req'|res]|e] w1]; simpl in *.
    + apply (Q_then _ w1 _ req'); [exact Hs | apply IH].
    + exact Hs.
    + exact Hs.
Qed.

(** What holds of each of the seven handlers holds of the application. *)
Lemma app_holds :
  (forall req, holds Q (authenticateToken req)) ->
  (forall req, holds Q (checkIfBlocked req)) ->
  (forall req, holds Q (post_api_register req)) ->
  (forall req, holds Q (post_api_login req)) ->
  (forall req, holds Q (get_api_users req)) ->
  (forall req, holds Q (put_api_users_block req)) ->
  (forall req, holds Q (put_api_users_unblock req)) ->
  forall req, holds Q (handle app req).
Proof.
  intros H1 H2 H3 H4 H5 H6 H7. apply handle_holds. unfold app.
  repeat first [apply Forall_nil | apply Forall_cons]; assumption.
Qed.

End Lifting.

Lemma authenticateToken_holds (Q : World -> Res Flow -> World -> Prop)
      (req : Request) :
  (forall w res, Q w (Ok (Send res)) w) ->
  (forall w req', Q w (Ok (Next req')) w) ->
  holds Q (authenticateToken req).
Proof.
  intros Hs Hn w.
  destruct (authenticateToken_cases req w) as [E|[E|(c & _ & E)]];
    rewrite E; simpl; auto.
Qed.

(** ** Errors change nothing *)

Lemma update_without_row (s : Status) (id : N) (l : list User) :
  Nat.eqb (List.length (filter (fun u => N.eqb (user_id u) id) l)) 0 = true ->
  map (fun u => if N.eqb (user_id u) id then with_status s u else u) l = l.
Proof.
  rewrite length_filter_zero, negb_true_iff.
  apply set_status_where_absent.
Qed.

Lemma untouched_refl (w : World) : untouched w w.
Proof. split; reflexivity. Qed.

Lemma untouched_trans (w w1 w2 : World) :
  untouched w w1 -> untouched w1 w2 -> untouched w w2.
Proof.
  unfold untouched. intros (A1 & A2) (B1 & B2). split; congruence.
Qed.

Lemma handle_atomic (req : Request) : holds atomic (handle app req).
Proof.
  apply app_holds.
  - intros w r. apply untouched_refl.
  - intros w w1 w2 r [[r'|res]|e] H1 H2; simpl in *;
      try (apply (untouched_trans w w1 w2); assumption).
    destruct H2 as [H2|[H2|H2]]; auto.
    right. right. apply (untouched_trans w w1 w2); assumption.
  - intros r. apply authenticateToken_holds; intros;
      [right; right|]; apply untouched_refl.
  - intros r0. paths. all: unfold atomic, untouched; simpl; auto.
  - intros r0. paths. all: unfold atomic, untouched; simpl; auto.
  - intros r0. paths. all: unfold atomic, untouched; simpl; auto.
  - intros r0. paths. all: unfold atomic, untouched; simpl; auto.
  - intros r0. paths. all: unfold atomic, untouched; simpl; auto.
    all: right; right; split; [apply update_without_row; assumption | auto].
  - intros r0. paths. all: unfold atomic, untouched; simpl; auto.
    all: right; right; split; [apply update_without_row; assumption | auto].
Qed.

(** ** Clients, clock and pushed events *)

Lemma handle_pushes_once (req : Request) : holds pushes_once (handle app req).
Proof.
  apply app_holds.
  - intros w r. unfold pushes_once. auto.
  - intros w w1 w2 r0 r (A1 & A2 & A3 & A4) (B1 & B2 & B3 & B4).
    unfold pushes_once, pushed in *.
    destruct A4 as [A4|(s & E & _)]; [|discriminate].
    rewrite <- A1, <- A2, <- A3, <- A4.
    repeat split; assumption.
  - intros r. apply authenticateToken_holds; intros; unfold pushes_once; auto.
  - intros r0. paths. all: unfold pushes_once; simpl; auto.
  - intros r0. paths. all: unfold pushes_once; simpl; auto.
  - intros r0. paths. all: unfold pushes_once; simpl; auto.
  - intros r0. paths. all: unfold pushes_once; simpl; auto.
  - intros r0. paths. all: unfold pushes_once; simpl; auto.
    all: repeat split; right; exists blocked; split; reflexivity.
  - intros r0. paths. all: unfold pushes_once; simpl; auto.
    all: repeat split; right; exists active; split; reflexivity.
Qed.

(** ** Rows stay, with their identities *)

Lemma map_identity_update (f : User -> User) (l : list User) :
  (forall u, identity (f u) = identity u) ->
  map identity (map f l) = map identity l.
Proof. intros Hf. rewrite map_map. apply map_ext. exact Hf. Qed.

Lemma identity_with_status (s : Status) (id : N) (u : User) :
  identity (if N.eqb (user_id u) id then with_status s u else u) = identity u.
Proof. destruct (N.eqb (user_id u) id); reflexivity. Qed.

Lemma identity_with_last_login (t id : N) (u : User) :
  identity (if N.eqb (user_id u) id then with_last_login t u else u)
  = identity u.
Proof. destruct (N.eqb (user_id u) id); reflexivity. Qed.

Lemma handle_keeps_identities (req : Request) :
  holds keeps_identities (handle app req).
Proof.
  apply app_holds.
  - intros w r. left. reflexivity.
  - intros w w1 w2 r0 r [A|(u & E & _)] B; [|discriminate].
    unfold keeps_identities in *. rewrite <- A.
    destruct B as [B|(u & E & B)]; [left; exact B|].
    right. exists u. split; [exact E | exact B].
  - intros r. apply authenticateToken_holds; intros; left; reflexivity.
  - intros r0. paths. all: unfold keeps_identities; simpl; auto.
  - intros r0. paths. all: unfold keeps_identities; simpl; auto.
    all: right; eexists; split; [reflexivity|];
      rewrite map_app; reflexivity.
  - intros r0. paths. all: unfold keeps_identities; simpl; auto.
    all: left; apply map_identity_update; intros x;
      apply identity_with_last_login.
  - intros r0. paths. all: unfold keeps_identities; simpl; auto.
  - intros r0. paths. all: unfold keeps_identities; simpl; auto.
    all: left; apply map_identity_update; intros x; apply identity_with_status.
  - intros r0. paths. all: unfold keeps_identities; simpl; auto.
    all: left; apply map_identity_update; intros x; apply identity_with_status.
Qed.

(** ** The answers server.js writes *)

Ltac in_catalogue :=
  first
    [ exact I
    | left; eexists; split; [|reflexivity]; simpl;
      repeat (first [left; reflexivity | right]); fail
    | right; left; reflexivity
    | right; right; left; exists blocked; reflexivity
    | right; right; left; exists active; reflexivity
    | right; right; right; left; eexists; reflexivity
    | right; right; right; right; eexists; reflexivity ].

Lemma handlers_answers_catalogued :
  Forall (fun r => Forall (fun m => forall req, holds answers_catalogued (m req))
                          (route_stack r)) app.
Proof.
  assert (H1 : forall req, holds answers_catalogued (authenticateToken req)).
  { intros r w.
    destruct (authenticateToken_cases r w) as [E|[E|(c & _ & E)]];
      rewrite E; unfold answers_catalogued, catalogued; simpl; in_catalogue. }
  assert (H2 : forall req, holds answers_catalogued (checkIfBlocked req)).
  { intros r0. paths.
    all: unfold answers_catalogued, catalogued; simpl; in_catalogue. }
  assert (H3 : forall req, holds answers_catalogued (post_api_register req)).
  { intros r0. paths.
    all: unfold answers_catalogued, catalogued; simpl; in_catalogue. }
  assert (H4 : forall req, holds answers_catalogued (post_api_login req)).
  { intros r0. paths.
    all: unfold answers_catalogued, catalogued; simpl; in_catalogue. }
  assert (H5 : forall req, holds answers_catalogued (get_api_users req)).
  { intros r0. paths.
    all: unfold answers_catalogued, catalogued; simpl; in_catalogue. }
  assert (H6 : forall req, holds answers_catalogued (put_api_users_block req)).
  { intros r0. paths.
    all: unfold answers_catalogued, catalogued; simpl; in_catalogue. }
  assert (H7 : forall req,
             holds answers_catalogued (put_api_users_unblock req)).
  { intros r0. paths.
    all: unfold answers_catalogued, catalogued; simpl; in_catalogue. }
  unfold app. repeat first [apply Forall_nil | apply Forall_cons]; assumption.
Qed.

Lemma handle_answers_catalogued (req : Request) :
  holds answers_catalogued (handle app req).
Proof.
  apply handle_holds; [| |exact handlers_answers_catalogued].
  - intros w r. exact I.
  - intros w w1 w2 r0 r _ H. exact H.
Qed.

(** A stack of middlewares that let no error escape, closed by a handler
    that always answers, always answers. *)
Lemma run_stack_answers (stack : list Middleware) (handler : Middleware) :
  Forall (fun m => forall req, never_throws (m req)) stack ->
  (forall req, answers (handler req)) ->
  forall req, answers (run_stack (stack ++ [handler]) req).
Proof.
  intros Hstack Hh.
  induction Hstack as [|m stack Hm _ IH]; intros req w; simpl; unfold bind.
  - destruct (Hh req w) as (res & w' & E). rewrite E.
    eexists. eexists. reflexivity.
  - destruct (Hm req w) as ([req'|res] & w' & E); rewrite E.
    + apply IH.
    + eexists. eexists. reflexivity.
Qed.

(** Each route of server.js ends in a handler that always answers. *)
Lemma route_answers (r : Route) :
  In r app -> forall req, answers (run_stack (route_stack r) req).
Proof.
  pose proof authenticateToken_never_throws as Ha.
  pose proof checkIfBlocked_never_throws as Hc.
  intros [<-|[<-|[<-|[<-|[<-|[]]]]]]; cbn [route_stack].
  - apply (run_stack_answers []); [constructor|].
    apply post_api_register_answers.
  - apply (run_stack_answers []); [constructor|].
    apply post_api_login_answers.
  - apply (run_stack_answers [authenticateToken]);
      [repeat constructor; assumption|].
    apply get_api_users_answers.
  - apply (run_stack_answers [authenticateToken; checkIfBlocked]);
      [repeat constructor; assumption|].
    apply (put_api_users_answers blocked).
  - apply (run_stack_answers [authenticateToken; checkIfBlocked]);
      [repeat constructor; assumption|].
    apply (put_api_users_answers active).
Qed.

(** ** The four properties, of every request *)

(** X1.  An answer other than 200 and 201 means nothing happened: whatever the
    request and the state, when the status is an error (or no route matched)
    the rows of the table and the pushed events are as before. *)
Theorem error_answers_change_nothing (req : Request) (w : World) :
  http_status (fst (serve req w)) <> Some 200 ->
  http_status (fst (serve req w)) <> Some 201 ->
  rows (snd (serve req w)) = rows w
  /\ delivered (snd (serve req w)) = delivered w.
Proof.
  unfold serve. pose proof (handle_atomic req w) as H.
  destruct (handle app req w) as [[[req'|res]|e] w']; simpl in *;
    intros H200 H201; try exact H.
  destruct H as [H|[H|H]]; [| |exact H]; rewrite H in *; congruence.
Qed.

(** X2.  No request changes the connected clients, the clock or the secret,
    and a request pushes nothing, or "usersUpdated" once to each connected
    client; the latter only together with the 200 of block or unblock. *)
Theorem requests_push_once_or_nothing (req : Request) (w : World) :
  sockets (snd (serve req w)) = sockets w
  /\ clock (snd (serve req w)) = clock w
  /\ env_JWT_SECRET (snd (serve req w)) = env_JWT_SECRET w
  /\ (delivered (snd (serve req w)) = delivered w
      \/ (exists s,
             fst (serve req w)
             = Answered (mkResponse 200 (message_body (done_message s)))
             /\ delivered (snd (serve req w)) = (delivered w ++ pushed w)%list)).
Proof.
  unfold serve. pose proof (handle_pushes_once req w) as H.
  destruct (handle app req w) as [[[req'|res]|e] w']; simpl in *;
    destruct H as (H1 & H2 & H3 & [H4|(s & E & H4)]);
    repeat split; auto; try discriminate.
  right. exists s. injection E as ->. split; [reflexivity | exact H4].
Qed.

Lemma run_identities (events : list Event) (w : World) :
  exists more,
    map identity (rows (run events w))
    = (map identity (rows w) ++ more)%list.
Proof.
  unfold run. revert w.
  induction events as [|e events IH]; intros w; simpl.
  - exists []. rewrite app_nil_r. reflexivity.
  - destruct (IH (step e w)) as (more & E). rewrite E.
    destruct e as [req|c|c|d]; simpl; try (exists more; reflexivity).
    unfold serve. pose proof (handle_keeps_identities req w) as H.
    destruct (handle app req w) as [[[req'|res]|er] w']; simpl in *;
      destruct H as [H|(u & _ & H)]; rewrite H;
      first [ exists more; reflexivity
            | exists (identity u :: more); rewrite <- app_assoc; reflexivity ].
Qed.

(** X3.  No request removes a row, reorders the rows or changes the id, name,
    email or password hash of a row: after one request the identities of the
    rows are as before, or, with the 201 of a registration, followed by one
    more; after any run of events they start as before. *)
Theorem rows_are_never_removed :
  (forall req w,
      map identity (rows (snd (serve req w))) = map identity (rows w)
      \/ (exists u,
             fst (serve req w)
             = Answered (mkResponse 201
                           (message_body "User registered successfully!"))
             /\ map identity (rows (snd (serve req w)))
                = (map identity (rows w) ++ [identity u])%list))
  /\ (forall events w,
         exists more,
           map identity (rows (run events w))
           = (map identity (rows w) ++ more)%list).
Proof.
  split; [|exact run_identities].
  intros req w. unfold serve. pose proof (handle_keeps_identities req w) as H.
  destruct (handle app req w) as [[[req'|res]|e] w']; simpl in *;
    destruct H as [H|(u & E & H)]; auto; try discriminate.
  right. exists u. injection E as ->. split; [reflexivity | exact H].
Qed.

Lemma serve_catalogued (req : Request) (w w' : World) (res : Response) :
  serve req w = (Answered res, w') -> catalogued res.
Proof.
  unfold serve. pose proof (handle_answers_catalogued req w) as H.
  destruct (handle app req w) as [[[req'|res0]|e] w0]; simpl in *;
    intros E; try discriminate.
  injection E as <- _. exact H.
Qed.

Lemma catalogued_403 (res : Response) :
  catalogued res -> res_status res = 403 ->
  res_body res = error_body "Invalid token."
  \/ res_body res = error_body "You are blocked. Action not allowed."
  \/ res_body res = error_body "User is blocked.".
Proof.
  intros [(msg & Hin & E)|[E|[(s & E)|[(token & E)|(listed & E)]]]] H;
    try (rewrite E in H; discriminate).
  rewrite E. rewrite H in Hin. simpl in Hin.
  repeat (destruct Hin as [Hin|Hin];
          [first [discriminate Hin | injection Hin as <-; auto]|]).
  destruct Hin.
Qed.

Lemma catalogued_no_password (res : Response) :
  catalogued res -> has_key "password" (res_body res) = false.
Proof.
  intros [(msg & _ & E)|[E|[(s & E)|[(token & E)|(listed & E)]]]];
    rewrite E; try reflexivity.
  simpl. rewrite has_key_password_listed. reflexivity.
Qed.

(** X4.  What the routes of server.js write.  Whatever request reaches a
    route, with whatever path parameters, header and body, and whatever the
    state, the middlewares and the handler of the route end in an answer:
    none calls next() past the handler and no error escapes.  That answer is
    one of the fifteen error answers of server.js, status and fixed message,
    or one of the four success answers; so it has no field named password.
    What Express answers by itself, before or instead of a route, is not an
    answer of these stacks. *)
Theorem answers_are_catalogued (r : Route) (req : Request) (w : World) :
  In r app ->
  exists res w',
    run_stack (route_stack r) req w = (Ok (Send res), w')
    /\ catalogued res
    /\ has_key "password" (res_body res) = false.
Proof.
  intros Hr. destruct (route_answers r Hr req w) as (res & w' & E).
  exists res, w'. split; [exact E|].
  assert (Hc : catalogued res).
  { assert (Hs : Forall (fun m => forall req0,
                            holds answers_catalogued (m req0))
                        (route_stack r))
      by exact (proj1 (Forall_forall _ _) handlers_answers_catalogued r Hr).
    pose proof (run_stack_holds answers_catalogued
                  (fun _ _ => I) (fun _ _ _ _ _ _ H => H)
                  (route_stack r) Hs req w) as H.
    rewrite E in H. exact H. }
  split; [exact Hc | apply catalogued_no_password; exact Hc].
Qed.

End Everywhere.

(** * Composition of requests *)

Section Composition.

Context {L : Libs}.

(** X5.  The constraints of the table hold after every run of events from a
    state in which they hold: ids stay unique, emails stay unique, and the
    next id stays above every id in use. *)
Theorem table_constraints_hold (events : list Event) (w : World) :
  table_ok w -> table_ok (run events w).
Proof. apply run_keeps_table. Qed.

(** X6.  A login with an unknown email and a login with the wrong password for
    a known, active account get the same answer, 401 "Invalid email or
    password.", and neither changes the table. *)
Theorem login_failures_look_alike (auth : option string)
        (unknown wrong : Json) (w : World) (user : User) (p : string) :
  NoDup (map user_email (rows w)) ->
  store_answers 1 w ->
  js_truthy (js_get "email" unknown) = true ->
  js_truthy (js_get "password" unknown) = true ->
  (forall u, In u (rows w) ->
             user_email u <> pg_text (js_get "email" unknown)) ->
  js_truthy (js_get "email" wrong) = true ->
  In user (rows w) ->
  pg_text (js_get "email" wrong) = user_email user ->
  user_status user = active ->
  js_get "password" wrong = Some (JStr p) ->
  p <> "" ->
  bcrypt_compare p (user_password user) = false ->
  fst (serve (incoming POST ["api"; "login"] auth unknown) w)
  = Answered (mkResponse 401 (error_body "Invalid email or password."))
  /\ fst (serve (incoming POST ["api"; "login"] auth wrong) w)
     = fst (serve (incoming POST ["api"; "login"] auth unknown) w)
  /\ same_state w (snd (serve (incoming POST ["api"; "login"] auth unknown) w))
  /\ same_state w (snd (serve (incoming POST ["api"; "login"] auth wrong) w)).
Proof.
  intros Hnd Hst He Hp Hnone He' Hin Hemail Hactive Hp' Hne Hcmp.
  apply store_answers_hd in Hst.
  assert (Hu : serve (incoming POST ["api"; "login"] auth unknown) w
               = (Answered (mkResponse 401
                              (error_body "Invalid email or password.")),
                  after_query w)).
  { rewrite serve_login. cbv zeta. rewrite He, Hp, Hst. simpl.
    rewrite filter_email_absent; [reflexivity|].
    intros Hin'. apply in_map_iff in Hin'. destruct Hin' as (u & Hu & Hin').
    exact (Hnone u Hin' Hu). }
  assert (Hw : serve (incoming POST ["api"; "login"] auth wrong) w
               = (Answered (mkResponse 401
                              (error_body "Invalid email or password.")),
                  after_query w)).
  { rewrite serve_login. cbv zeta.
    rewrite Hemail, (filter_email_unique user _ Hnd Hin), Hactive, He', Hp'.
    apply String.eqb_neq in Hne. simpl. rewrite Hne, Hst, Hcmp. reflexivity. }
  rewrite Hu, Hw. repeat split.
Qed.

(** X7.  When the store answers the SELECT of a login but fails its UPDATE of
    last_login, the login is answered 500 "Login failed.": the token that was
    signed is not returned, and the table is as before. *)
Theorem login_fails_when_update_fails (auth : option string) (body : Json)
        (w : World) (user : User) (p : string) :
  NoDup (map user_email (rows w)) ->
  In user (rows w) ->
  pg_text (js_get "email" body) = user_email user ->
  js_truthy (js_get "email" body) = true ->
  js_get "password" body = Some (JStr p) ->
  p <> "" ->
  user_status user = active ->
  bcrypt_compare p (user_password user) = true ->
  store_answers 1 w ->
  hd false (tl (faults w)) = true ->
  fst (serve (incoming POST ["api"; "login"] auth body) w)
  = Answered (mkResponse 500 (error_body "Login failed."))
  /\ same_state w (snd (serve (incoming POST ["api"; "login"] auth body) w)).
Proof.
  intros Hnd Hin Hemail He Hp Hne Hactive Hcmp Hst Hfail.
  apply store_answers_hd in Hst. apply String.eqb_neq in Hne.
  rewrite serve_login. cbv zeta.
  rewrite Hemail, (filter_email_unique user _ Hnd Hin), Hactive, He, Hp.
  simpl. rewrite Hne, Hst, Hcmp, Hfail. simpl. repeat split.
Qed.

Lemma bearer_of_same (auth : option string) (w w' : World) (c : Claims) :
  env_JWT_SECRET w' = env_JWT_SECRET w -> clock w' = clock w ->
  bearer_of auth w c -> bearer_of auth w' c.
Proof.
  intros He Hc (h & t & H1 & H2 & H3 & H4). exists h, t.
  unfold JWT_SECRET in *. rewrite He, Hc. repeat split; assumption.
Qed.

Lemma status_of_set_status_where (s : Status) (id id' : N) (l : list User) :
  option_map user_status
             (find (fun u => N.eqb (user_id u) id') (set_status_where s id l))
  = if N.eqb id' id
    then option_map (fun _ => s) (find (fun u => N.eqb (user_id u) id') l)
    else option_map user_status (find (fun u => N.eqb (user_id u) id') l).
Proof.
  unfold set_status_where.
  induction l as [|u l IH]; simpl; [destruct (N.eqb id' id); reflexivity|].
  destruct (N.eqb_spec (user_id u) id) as [E|E]; simpl.
  - destruct (N.eqb_spec (user_id u) id') as [E'|E'].
    + assert (Hid : N.eqb id' id = true) by (apply N.eqb_eq; congruence).
      rewrite Hid. reflexivity.
    + exact IH.
  - destruct (N.eqb_spec (user_id u) id') as [E'|E'].
    + assert (Hid : N.eqb id' id = false) by (apply N.eqb_neq; congruence).
      rewrite Hid. reflexivity.
    + exact IH.
Qed.

Lemma status_of_changed (s : Status) (id id' : N) (w : World) :
  status_of id' (changed s id w)
  = if N.eqb id' id then option_map (fun _ => s) (status_of id' w)
    else status_of id' w.
Proof.
  unfold status_of, changed. simpl. rewrite status_of_set_status_where.
  destruct (N.eqb id' id); [|reflexivity].
  destruct (find _ (rows w)); reflexivity.
Qed.

Lemma set_status_where_twice (s s' : Status) (id : N) (l : list User) :
  set_status_where s' id (set_status_where s id l) = set_status_where s' id l.
Proof.
  unfold set_status_where. rewrite map_map. apply map_ext. intros u.
  destruct (N.eqb (user_id u) id) eqn:E; simpl; rewrite E; reflexivity.
Qed.

Lemma store_answers_changed (n : nat) (s : Status) (id : N) (w : World) :
  store_answers (S (S n)) w -> store_answers n (changed s id w).
Proof.
  intros H. destruct (store_answers_next (S n) w H) as [_ H1].
  destruct (store_answers_next n _ H1) as [_ H2]. exact H2.
Qed.

(** X8.  Unblock undoes block: when a caller who is not the target blocks a
    user whose rows were active and then unblocks the same id, both requests
    are answered 200 and the rows are again what they were before the two. *)
Theorem unblock_undoes_block (seg : string) (auth : option string)
        (body body' : Json) (w : World) (c : Claims) (id : N) :
  seg <> "" ->
  bearer_of auth w c ->
  status_of (claims_id c) w = Some active ->
  claims_id c <> id ->
  store_answers 4 w ->
  pg_int seg = Some id ->
  (exists u, In u (rows w) /\ user_id u = id) ->
  (forall u, In u (rows w) -> user_id u = id -> user_status u = active) ->
  let block := incoming PUT ["api"; "users"; action blocked; seg] auth body in
  let unblock := incoming PUT ["api"; "users"; action active; seg] auth body' in
  fst (serve block w)
  = Answered (mkResponse 200 (message_body "User has been blocked."))
  /\ fst (serve unblock (snd (serve block w)))
     = Answered (mkResponse 200 (message_body "User has been unblocked."))
  /\ rows (snd (serve unblock (snd (serve block w)))) = rows w.
Proof.
  intros Hseg Hb Hc Hother Hst Hid Hsome Hactive block unblock.
  subst block unblock.
  assert (Hst2 : store_answers 2 w)
    by (apply (store_answers_le 4); [lia | exact Hst]).
  rewrite (serve_put_users_allowed blocked seg auth body w c id
             Hseg Hb Hc Hst2 Hid).
  rewrite (existsb_id_true _ _ Hsome). cbn [fst snd].
  assert (Hb' : bearer_of auth (changed blocked id w) c) by exact Hb.
  assert (Hc' : status_of (claims_id c) (changed blocked id w) = Some active).
  { rewrite status_of_changed.
    apply N.eqb_neq in Hother. rewrite Hother. exact Hc. }
  rewrite (serve_put_users_allowed active seg auth body' _ c id Hseg Hb' Hc'
             (store_answers_changed 2 _ _ _ Hst) Hid).
  simpl rows. rewrite existsb_set_status_where, (existsb_id_true _ _ Hsome).
  split; [reflexivity|]. split; [reflexivity|]. simpl.
  rewrite set_status_where_twice. apply set_status_where_same. exact Hactive.
Qed.

(** X9.  Nothing keeps callers from blocking themselves, and then they are
    locked out: the block of the caller's own id is answered 200, and every
    block or unblock request with the same token after it, the unblock of the
    own id included, is answered 403 "You are blocked. Action not allowed."
    and changes nothing. *)
Theorem self_block_locks_out (seg : string) (auth : option string)
        (body : Json) (w : World) (c : Claims) :
  seg <> "" ->
  bearer_of auth w c ->
  status_of (claims_id c) w = Some active ->
  store_answers 3 w ->
  pg_int seg = Some (claims_id c) ->
  let after := snd (serve (incoming PUT ["api"; "users"; action blocked; seg]
                                    auth body) w) in
  fst (serve (incoming PUT ["api"; "users"; action blocked; seg] auth body) w)
  = Answered (mkResponse 200 (message_body "User has been blocked."))
  /\ forall s seg' body',
       seg' <> "" ->
       fst (serve (incoming PUT ["api"; "users"; action s; seg'] auth body')
                  after)
       = Answered (mkResponse 403
                     (error_body "You are blocked. Action not allowed."))
       /\ same_state after
            (snd (serve (incoming PUT ["api"; "users"; action s; seg'] auth
                                  body') after)).
Proof.
  intros Hseg Hb Hc Hst Hid after. subst after.
  assert (Hst2 : store_answers 2 w)
    by (apply (store_answers_le 3); [lia | exact Hst]).
  assert (Hsome : existsb (fun u => N.eqb (user_id u) (claims_id c)) (rows w)
                  = true).
  { unfold status_of in Hc.
    destruct (find _ (rows w)) as [u|] eqn:E; [|discriminate].
    apply find_some in E. apply existsb_exists. exists u. exact E. }
  rewrite (serve_put_users_allowed blocked seg auth body w c (claims_id c)
             Hseg Hb Hc Hst2 Hid).
  rewrite Hsome. cbn [fst snd].
  split; [reflexivity|]. intros s seg' body' Hseg'.
  assert (Hb' : bearer_of auth (changed blocked (claims_id c) w) c) by exact Hb.
  rewrite (serve_put_users s seg' auth body' _ c Hseg' Hb'
             (store_answers_changed 1 _ _ _ Hst)).
  rewrite status_of_changed, N.eqb_refl, Hc. simpl.
  split; [reflexivity | apply same_state_after_query].
Qed.

Lemma existsb_email_false (e : string) (l : list User) :
  (forall v, In v l -> user_email v <> e) ->
  existsb (fun v => String.eqb (user_email v) e) l = false.
Proof.
  intros H. destruct (existsb _ l) eqn:E; [|reflexivity].
  apply exists_email_existsb in E. destruct E as (v & Hin & Hv).
  destruct (H v Hin Hv).
Qed.

Lemma filter_email_new (e : string) (l : list User) (u : User) :
  (forall v, In v l -> user_email v <> e) ->
  user_email u = e ->
  filter (fun v => String.eqb (user_email v) e) (l ++ [u]) = [u].
Proof.
  intros Hnew Hu. rewrite filter_app. simpl.
  rewrite filter_email_absent.
  - rewrite Hu, String.eqb_refl. reflexivity.
  - intros Hin. apply in_map_iff in Hin. destruct Hin as (v & Hv & Hin).
    exact (Hnew v Hin Hv).
Qed.

(** X10.  Register, then log in: with a bcrypt that accepts a password against
    its own hash, a registration with a new email is answered 201, and a login
    with the same email and password right after it is answered 200 with a
    token for the id the registration gave, signed at the current time for one
    hour. *)
Theorem register_then_login (auth auth' : option string) (body : Json)
        (w : World) (p : string) :
  bcrypt_sound L ->
  js_truthy (js_get "name" body) = true ->
  js_truthy (js_get "email" body) = true ->
  js_get "password" body = Some (JStr p) ->
  p <> "" ->
  (forall u, In u (rows w) ->
             user_email u <> pg_text (js_get "email" body)) ->
  store_answers 3 w ->
  let registered := snd (serve (incoming POST ["api"; "register"] auth body) w) in
  fst (serve (incoming POST ["api"; "register"] auth body) w)
  = Answered (mkResponse 201 (message_body "User registered successfully!"))
  /\ fst (serve (incoming POST ["api"; "login"] auth' body) registered)
     = Answered
         (mkResponse 200
            (JObj [("message", JStr "Login successful!");
                   ("token",
                    JStr (jwt_sign (mkPayload (next_id w)
                                              (pg_text (js_get "email" body)))
                                   (JWT_SECRET w) (clock w) 3600))])).
Proof.
  intros Hsound Hn He Hp Hne Hnew Hst registered. subst registered.
  destruct (store_answers_next 2 w Hst) as [H1 H23].
  destruct (store_answers_next 1 _ H23) as [H2 H3].
  apply store_answers_hd in H1. apply store_answers_hd in H2.
  apply store_answers_hd in H3. simpl in H2, H3.
  pose proof Hne as Hne'. apply String.eqb_neq in Hne'.
  rewrite serve_register. cbv zeta. rewrite Hn, He, Hp. simpl.
  rewrite Hne', H1. simpl.
  rewrite (existsb_email_false _ _ Hnew). simpl.
  split; [reflexivity|].
  rewrite serve_login. cbv zeta. rewrite He, Hp. simpl.
  rewrite Hne', H2. simpl.
  erewrite filter_email_new; [|exact Hnew|reflexivity]. simpl.
  rewrite Hsound. simpl. rewrite H3. reflexivity.
Qed.

End Composition.

(** * The bearer token *)

Section BearerToken.

Context {L : Libs}.

Lemma split_whole (sep : ascii) (s : string) :
  lacks sep s = true -> split sep s = [s].
Proof.
  induction s as [|c s IH]; simpl; [reflexivity|].
  intros H. apply andb_prop in H. destruct H as [Hc Hs].
  apply negb_true_iff in Hc. rewrite Hc, (IH Hs). reflexivity.
Qed.

Lemma split_at_separator (sep : ascii) (a b : string) :
  lacks sep a = true -> split sep (a ++ String sep b) = a :: split sep b.
Proof.
  induction a as [|c a IH]; simpl.
  - intros _. rewrite Ascii.eqb_refl. reflexivity.
  - intros H. apply andb_prop in H. destruct H as [Hc Ha].
    apply negb_true_iff in Hc. rewrite Hc, (IH Ha). reflexivity.
Qed.

Lemma startsWith_Bearer (rest : string) :
  startsWith ("Bearer " ++ rest) "Bearer " = true.
Proof. simpl. destruct rest; reflexivity. Qed.

Lemma token_of_header (t : string) :
  lacks space t = true ->
  startsWith ("Bearer " ++ t) "Bearer " = true
  /\ nth_error (split space ("Bearer " ++ t)) 1 = Some t.
Proof.
  intros Ht. split; [apply startsWith_Bearer|].
  change ("Bearer " ++ t) with ("Bearer" ++ String space t).
  rewrite split_at_separator by reflexivity.
  rewrite (split_whole _ _ Ht). reflexivity.
Qed.

Lemma token_of_header_with_tail (t tail : string) :
  lacks space t = true ->
  startsWith ("Bearer " ++ t ++ " " ++ tail) "Bearer " = true
  /\ nth_error (split space ("Bearer " ++ t ++ " " ++ tail)) 1 = Some t.
Proof.
  intros Ht. split; [apply startsWith_Bearer|].
  change ("Bearer " ++ t ++ " " ++ tail)
    with ("Bearer" ++ String space (t ++ String space tail)).
  rewrite split_at_separator by reflexivity.
  rewrite (split_at_separator _ _ _ Ht). reflexivity.
Qed.

(** X11.  [authHeader.split(" ")[1]] is the text between the first and the
    second space: whatever follows a second space is ignored, and the token
    before it decides alone (two spaces after "Bearer" make it the empty
    token). So the list route answers such a header exactly as it answers the
    header without the tail. *)
Theorem text_after_the_token_is_ignored (t tail : string) :
  lacks space t = true ->
  (forall req w,
      req_authorization req = Some ("Bearer " ++ t ++ " " ++ tail) ->
      authenticateToken req w
      = match jwt_verify t (JWT_SECRET w) (clock w) with
        | Some user => (Ok (Next (set_user user req)), w)
        | None => (Ok (Send (mkResponse 403 (error_body "Invalid token."))), w)
        end)
  /\ (forall body w,
         serve (incoming GET ["api"; "users"]
                         (Some ("Bearer " ++ t ++ " " ++ tail)) body) w
         = serve (incoming GET ["api"; "users"] (Some ("Bearer " ++ t)) body) w).
Proof.
  intros Ht.
  destruct (token_of_header t Ht) as [P1 T1].
  destruct (token_of_header_with_tail t tail Ht) as [P2 T2].
  split.
  - intros req w Ha. unfold authenticateToken.
    rewrite Ha, (startsWith_nonempty _ P2), P2, T2. simpl.
    destruct (jwt_verify t (JWT_SECRET w) (clock w)); reflexivity.
  - intros body w. rewrite !serve_get_users.
    unfold authenticateToken, incoming. cbn [req_authorization].
    rewrite (startsWith_nonempty _ P1), (startsWith_nonempty _ P2), P1, P2,
      T1, T2. simpl.
    destruct (jwt_verify t (JWT_SECRET w) (clock w)); [|reflexivity].
    unfold send, ret. rewrite !get_api_users_answer. reflexivity.
Qed.

(** X12.  The life of a token.  With a jsonwebtoken that accepts what it
    signed until its expiry, rejects it from then on, and writes no space into
    a token: the token signed for one hour with the server's secret opens the
    list route, as "Bearer <token>", while the clock is below the expiry,
    whatever the status of its holder; from the expiry on it is answered 403
    "Invalid token." on every protected route, before any round trip to the
    store. *)
Theorem token_lifetime (p : Payload) (iat : N) (body : Json) (w : World) :
  jwt_sound L -> jwt_expires L -> jwt_compact L ->
  let token := jwt_sign p (JWT_SECRET w) iat 3600 in
  ((clock w < iat + 3600)%N ->
   store_answers 1 w ->
   serve (incoming GET ["api"; "users"] (Some ("Bearer " ++ token)) body) w
   = (Answered
        (mkResponse 200
           (JObj [("users",
                   JArr (map (select_columns listed_columns)
                             (order_by_last_login_desc (rows w))))])),
      after_query w))
  /\ ((iat + 3600 <= clock w)%N ->
      forall m path,
        protected m path ->
        serve (incoming m path (Some ("Bearer " ++ token)) body) w
        = (Answered (mkResponse 403 (error_body "Invalid token.")), w)).
Proof.
  intros Hsound Hexp Hcompact token. subst token.
  destruct (token_of_header _ (Hcompact p (JWT_SECRET w) iat 3600%N))
    as [P T].
  split.
  - intros Hfresh Hst.
    assert (Hb : bearer_of (Some ("Bearer "
                                  ++ jwt_sign p (JWT_SECRET w) iat 3600)) w
                           (mkClaims (payload_id p) (payload_email p) iat
                                     (iat + 3600))).
    { eexists. eexists. split; [reflexivity|]. split; [exact P|].
      split; [exact T|]. apply Hsound. exact Hfresh. }
    rewrite serve_get_users.
    rewrite (authenticateToken_valid
               (incoming GET ["api"; "users"]
                         (Some ("Bearer " ++ jwt_sign p (JWT_SECRET w) iat 3600))
                         body) w _ Hb).
    rewrite get_api_users_answer.
    apply store_answers_hd in Hst. rewrite Hst. reflexivity.
  - intros Hold m path Hp.
    apply serve_protected_rejected; [exact Hp|]. intros req Hr.
    apply (authenticateToken_invalid _ _ _ Hr P).
    rewrite T. apply Hexp. exact Hold.
Qed.

End BearerToken.

(** * The client *)

Section Selection.

Import UserTable.

Lemma existsb_eqb_In (x : Z) (l : list Z) :
  existsb (Z.eqb x) l = true <-> In x l.
Proof.
  rewrite existsb_exists. split.
  - intros (y & Hin & E). apply Z.eqb_eq in E. subst y. exact Hin.
  - intros Hin. exists x. split; [exact Hin | apply Z.eqb_refl].
Qed.

Lemma filter_out_In (x y : Z) (l : list Z) :
  In y (filter (fun id => negb (Z.eqb id x)) l) <-> In y l /\ y <> x.
Proof.
  rewrite filter_In, negb_true_iff, Z.eqb_neq. reflexivity.
Qed.

Lemma filter_out_absent (x : Z) (l : list Z) :
  ~ In x l -> filter (fun id => negb (Z.eqb id x)) l = l.
Proof.
  induction l as [|y l IH]; simpl; intros H; [reflexivity|].
  destruct (Z.eqb_spec y x) as [E|E]; simpl.
  - destruct H. left. exact E.
  - rewrite IH; [reflexivity|]. intros Hin. apply H. right. exact Hin.
Qed.

(** X13.  A click on the box of a row flips that row and no other: the id is
    selected afterwards exactly when it was not before, every other id is
    selected as before, and a selection without repetition stays without
    repetition. *)
Theorem toggleSelection_flips (userId : Z) (prev : list Z) :
  (In userId (toggleSelection userId prev) <-> ~ In userId prev)
  /\ (forall id, id <> userId ->
                 (In id (toggleSelection userId prev) <-> In id prev))
  /\ (NoDup prev -> NoDup (toggleSelection userId prev)).
Proof.
  unfold toggleSelection.
  destruct (existsb (Z.eqb userId) prev) eqn:E.
  - apply existsb_eqb_In in E. split; [|split].
    + rewrite filter_out_In. split; [intros [_ H]; destruct H; reflexivity|].
      intros H. destruct (H E).
    + intros id Hid. rewrite filter_out_In. split; [intros [H _]; exact H|].
      intros H. split; assumption.
    + apply NoDup_filter.
  - assert (Hn : ~ In userId prev).
    { intros H. apply existsb_eqb_In in H. congruence. }
    split; [|split].
    + split; [intros _; exact Hn|]. intros _. apply in_or_app. right.
      left. reflexivity.
    + intros id Hid. rewrite in_app_iff. simpl. split; [|auto].
      intros [H|[H|[]]]; [exact H | destruct Hid; symmetry; exact H].
    + intros Hnd. apply NoDup_app_remove_l with (l := []). simpl.
      apply (Permutation_NoDup (l := userId :: prev)).
      * apply Permutation_cons_append.
      * constructor; assumption.
Qed.

(** X14.  Two clicks on the same box give back the selection: the same ids,
    each once; and exactly the same list when the id was not selected before. *)
Theorem toggleSelection_twice (userId : Z) (prev : list Z) :
  NoDup prev ->
  Permutation (toggleSelection userId (toggleSelection userId prev)) prev
  /\ (~ In userId prev ->
      toggleSelection userId (toggleSelection userId prev) = prev).
Proof.
  intros Hnd.
  assert (Hout : ~ In userId prev ->
                 toggleSelection userId (toggleSelection userId prev) = prev).
  { intros Hn. unfold toggleSelection at 2.
    destruct (existsb (Z.eqb userId) prev) eqn:E;
      [apply existsb_eqb_In in E; destruct (Hn E)|].
    unfold toggleSelection.
    assert (Hin : existsb (Z.eqb userId) (prev ++ [userId]) = true).
    { apply existsb_eqb_In. apply in_or_app. right. left. reflexivity. }
    rewrite Hin, filter_app, (filter_out_absent _ _ Hn). simpl.
    rewrite Z.eqb_refl. simpl. apply app_nil_r. }
  split; [|exact Hout].
  destruct (in_dec Z.eq_dec userId prev) as [Hin|Hn];
    [|rewrite (Hout Hn); apply Permutation_refl].
  unfold toggleSelection at 2.
  assert (E : existsb (Z.eqb userId) prev = true)
    by (apply existsb_eqb_In; exact Hin).
  rewrite E. unfold toggleSelection.
  assert (Hgone : existsb (Z.eqb userId)
                          (filter (fun id => negb (Z.eqb id userId)) prev)
                  = false).
  { destruct (existsb _ (filter _ prev)) eqn:E'; [|reflexivity].
    apply existsb_eqb_In in E'. apply filter_out_In in E'.
    destruct E' as [_ H]. destruct H. reflexivity. }
  rewrite Hgone.
  apply NoDup_Permutation.
  - apply NoDup_app_remove_l with (l := []). simpl.
    apply (Permutation_NoDup
             (l := userId :: filter (fun id => negb (Z.eqb id userId)) prev)).
    + apply Permutation_cons_append.
    + constructor; [|apply NoDup_filter; exact Hnd].
      intros H. apply filter_out_In in H. destruct H as [_ H].
      destruct H. reflexivity.
  - exact Hnd.
  - intros id. rewrite in_app_iff, filter_out_In. simpl. split.
    + intros [[H _]|[H|[]]]; [exact H | subst id; exact Hin].
    + intros H. destruct (Z.eq_dec id userId) as [->|Hd]; [right; left;
        reflexivity | left; split; assumption].
Qed.

(** X15.  The box in the table head compares two lengths.  While the selection
    holds ids of the roster, each once, and the roster shows each id once, the
    box is checked exactly when every row is selected, and a click on it then
    clears the selection and otherwise selects every row. *)
Theorem head_box_is_accurate (selected ids : list Z) :
  NoDup selected -> NoDup ids -> incl selected ids ->
  (all_checked selected ids = true <-> incl ids selected)
  /\ (incl ids selected -> toggle_all selected ids = [])
  /\ (~ incl ids selected -> toggle_all selected ids = ids).
Proof.
  intros Hs Hi Hincl.
  assert (H : all_checked selected ids = true <-> incl ids selected).
  { unfold all_checked. rewrite Nat.eqb_eq. split.
    - intros Hlen. apply (NoDup_length_incl Hs); [lia | exact Hincl].
    - intros Hall.
      pose proof (NoDup_incl_length Hs Hincl).
      pose proof (NoDup_incl_length Hi Hall). lia. }
  split; [exact H|]. unfold toggle_all. split.
  - intros Hall. apply H in Hall. rewrite Hall. reflexivity.
  - intros Hnot. destruct (all_checked selected ids) eqn:E; [|reflexivity].
    destruct Hnot. apply H. reflexivity.
Qed.

End Selection.

Section ClientAndServer.

Import UserTable.

Context {L : Libs}.

Lemma Number_toString_nonempty (z : Z) : Number_toString z <> "".
Proof.
  unfold Number_toString.
  assert (H : forall p, NilEmpty.string_of_uint (Pos.to_uint p) <> "").
  { intros p E. apply (DecimalPos.Unsigned.to_uint_nonnil p).
    destruct (Pos.to_uint p); simpl in E; try discriminate; reflexivity. }
  destruct z as [|p|p]; simpl; [discriminate | apply H | discriminate].
Qed.

Lemma action_is_not_delete (s : Status) : String.eqb (action s) "delete" = false.
Proof. destruct s; reflexivity. Qed.

Lemma store_answers_after_two (n : nat) (w w' : World) :
  faults w' = tl (tl (faults w)) ->
  store_answers (S (S n)) w -> store_answers n w'.
Proof.
  unfold store_answers. intros ->.
  destruct (faults w) as [|a [|b f]]; simpl;
    try (intros _; destruct n; reflexivity).
  intros H. apply orb_false_iff in H. destruct H as [_ H].
  apply orb_false_iff in H. destruct H as [_ H]. exact H.
Qed.

Lemma status_of_rows (id : N) (w w' : World) :
  rows w' = rows w -> status_of id w' = status_of id w.
Proof. unfold status_of. intros ->. reflexivity. Qed.

(** One request of the loop that passes the gate: the answer is 200 or 404,
    and the caller passes the gate again afterwards. *)
Lemma fetch_put_allowed (s : Status) (tok : string) (id : N) (w : World)
      (cl : Claims) :
  reads_ids L ->
  bearer_of (Some ("Bearer " ++ tok)) w cl ->
  status_of (claims_id cl) w = Some active ->
  store_answers 2 w ->
  exists res w',
    fetch PUT ["api"; "users"; action s; Number_toString (Z.of_N id)]
          ("Bearer " ++ tok) w
    = (Answered res, w')
    /\ (res = mkResponse 200 (message_body (done_message s))
        \/ res = mkResponse 404 (error_body "User not found."))
    /\ rows w' = set_status_where s id (rows w)
    /\ clock w' = clock w
    /\ env_JWT_SECRET w' = env_JWT_SECRET w
    /\ faults w' = tl (tl (faults w)).
Proof.
  intros Hread Hb Hc Hst. unfold fetch.
  rewrite (serve_put_users_allowed s _ _ (JObj []) w cl id
             (Number_toString_nonempty _) Hb Hc Hst (Hread id)).
  destruct (existsb _ (rows w)) eqn:E; eexists; eexists;
    (split; [reflexivity|]); simpl.
  - repeat split. left. reflexivity.
  - rewrite (set_status_where_absent _ _ _ E). repeat split. right. reflexivity.
Qed.

(** The requests for the rows before the caller's own all pass. *)
Lemma requests_reach (s : Status) (tok : string) (cl : Claims) (c : Client)
      (more : list Z) :
  reads_ids L ->
  forall (before : list N) (w : World) (k : nat),
    bearer_of (Some ("Bearer " ++ tok)) w cl ->
    status_of (claims_id cl) w = Some active ->
    ~ In (claims_id cl) before ->
    store_answers (2 * List.length before + k) w ->
    exists w',
      Second.requests (action s) tok (map Z.of_N before ++ more) c w
      = Second.requests (action s) tok more c w'
      /\ rows w' = set_status_of_all s before (rows w)
      /\ bearer_of (Some ("Bearer " ++ tok)) w' cl
      /\ status_of (claims_id cl) w' = Some active
      /\ store_answers k w'.
Proof.
  intros Hread. induction before as [|id before IH]; intros w k Hb Hc Hn Hst.
  - exists w. repeat split; assumption.
  - assert (Hid : claims_id cl <> id) by (intros E; apply Hn; left; auto).
    assert (Hn' : ~ In (claims_id cl) before)
      by (intros E; apply Hn; right; exact E).
    replace (2 * List.length (id :: before) + k)
      with (S (S (2 * List.length before + k))) in Hst by (simpl; lia).
    assert (Hst2 : store_answers 2 w)
      by (apply (store_answers_le _ 2 w) in Hst; [exact Hst | lia]).
    destruct (fetch_put_allowed s tok id w cl Hread Hb Hc Hst2)
      as (res & w1 & Ef & Hres & Hrows & Hclock & Henv & Hfaults).
    assert (Hb1 : bearer_of (Some ("Bearer " ++ tok)) w1 cl)
      by (apply (bearer_of_same _ w); assumption).
    assert (Hc1 : status_of (claims_id cl) w1 = Some active).
    { unfold status_of. rewrite Hrows, status_of_set_status_where.
      apply N.eqb_neq in Hid. rewrite Hid. exact Hc. }
    destruct (IH w1 k Hb1 Hc1 Hn'
                 (store_answers_after_two _ w w1 Hfaults Hst))
      as (w' & E & Hrows' & Hb' & Hc' & Hst').
    exists w'. split; [|split; [|repeat split; assumption]].
    + cbn [map]. rewrite <- app_comm_cons. cbn [Second.requests].
      rewrite action_is_not_delete. cbv beta iota zeta. rewrite Ef.
      destruct Hres as [-> | ->]; exact E.
    + rewrite Hrows'. unfold set_status_of_all. simpl. rewrite Hrows.
      reflexivity.
Qed.

Lemma set_status_of_all_others (s : Status) (ids : list N) (l : list User)
      (u : User) :
  ~ In (user_id u) ids -> (In u (set_status_of_all s ids l) <-> In u l).
Proof.
  unfold set_status_of_all. revert l.
  induction ids as [|id ids IH]; intros l Hn; simpl; [reflexivity|].
  rewrite IH by (intros H; apply Hn; right; exact H).
  apply set_status_where_others. intros E. apply Hn. left. symmetry. exact E.
Qed.

Lemma set_status_of_all_in (s : Status) (ids : list N) (l : list User)
      (u : User) :
  In u (set_status_of_all s ids l) -> In (user_id u) ids -> user_status u = s.
Proof.
  unfold set_status_of_all. revert l.
  induction ids as [|id ids IH]; intros l Hin Hid; simpl in *; [destruct Hid|].
  destruct (in_dec N.eq_dec (user_id u) ids) as [Hrest|Hrest].
  - exact (IH _ Hin Hrest).
  - destruct Hid as [Hid|Hid]; [|contradiction].
    apply (set_status_where_in s id l); [|symmetry; exact Hid].
    exact (proj1 (set_status_of_all_others s ids _ u Hrest) Hin).
Qed.

(** X16.  Block or Unblock in the second client, the caller's own row not
    being selected: every selected id gets one request, ids without a row are
    passed over, and at the end every selected row has the status, the other
    rows are as before, the selection is empty and the client has emitted
    "usersUpdated". *)
Theorem handleAction_reaches_every_selected_row (s : Status) (tok : string)
        (cl : Claims) (c : Client) (ids : list N) (w : World) :
  reads_ids L ->
  token c = Some tok ->
  tok <> "" ->
  selectedUsers c = map Z.of_N ids ->
  ids <> [] ->
  bearer_of (Some ("Bearer " ++ tok)) w cl ->
  status_of (claims_id cl) w = Some active ->
  ~ In (claims_id cl) ids ->
  store_answers (2 * List.length ids) w ->
  let result := Second.handleAction (action s) c w in
  fst result = socket_emit "usersUpdated" (setSelectedUsers [] c)
  /\ rows (snd result) = set_status_of_all s ids (rows w)
  /\ (forall u, In u (rows (snd result)) -> In (user_id u) ids ->
                user_status u = s)
  /\ (forall u, ~ In (user_id u) ids ->
                (In u (rows (snd result)) <-> In u (rows w))).
Proof.
  intros Hread Htok Hne Hsel Hids Hb Hc Hn Hst result. subst result.
  unfold Second.handleAction. rewrite Htok, Hsel. simpl falsy. simpl template.
  apply String.eqb_neq in Hne. rewrite Hne, orb_false_r.
  assert (Hlen : Nat.eqb (List.length (map Z.of_N ids)) 0 = false).
  { destruct ids; [destruct Hids; reflexivity | reflexivity]. }
  rewrite Hlen.
  replace (2 * List.length ids) with (2 * List.length ids + 0) in Hst by lia.
  destruct (requests_reach s tok cl c [] Hread ids w 0 Hb Hc Hn Hst)
    as (w' & E & Hrows & _).
  rewrite app_nil_r in E. rewrite E. simpl.
  split; [reflexivity|]. split; [exact Hrows|]. rewrite Hrows. split.
  - intros u. apply set_status_of_all_in.
  - intros u. apply set_status_of_all_others.
Qed.

(** X17.  Block in the second client with the caller's own row among the
    selected ones, and not the last: the rows up to and including the caller's
    are blocked, the request for the next id is answered 403, the client shows
    that answer's message and logs out, and neither that id nor any after it
    gets a request; the selection stays. *)
Theorem handleAction_stops_after_the_own_row (tok : string) (cl : Claims)
        (c : Client) (before : list N) (next : N) (rest : list N) (w : World) :
  reads_ids L ->
  token c = Some tok ->
  tok <> "" ->
  selectedUsers c = map Z.of_N (before ++ claims_id cl :: next :: rest) ->
  bearer_of (Some ("Bearer " ++ tok)) w cl ->
  status_of (claims_id cl) w = Some active ->
  ~ In (claims_id cl) before ->
  store_answers (2 * List.length before + 3) w ->
  let result := Second.handleAction (action blocked) c w in
  fst result
  = Second.handleLogout
      (alert (Shown (Some (JStr "You are blocked. Action not allowed."))) c)
  /\ rows (snd result)
     = set_status_of_all blocked (before ++ [claims_id cl]) (rows w).
Proof.
  intros Hread Htok Hne Hsel Hb Hc Hn Hst result. subst result.
  destruct (requests_reach blocked tok cl c
              (map Z.of_N (claims_id cl :: next :: rest)) Hread before w 3
              Hb Hc Hn Hst)
    as (w1 & E & Hrows & Hb1 & Hc1 & Hst1).
  assert (Hst2 : store_answers 2 w1)
    by (apply (store_answers_le 3); [lia | exact Hst1]).
  assert (Hsome : existsb (fun u => N.eqb (user_id u) (claims_id cl)) (rows w1)
                  = true).
  { unfold status_of in Hc1.
    destruct (find _ (rows w1)) as [u|] eqn:Ef; [|discriminate].
    apply find_some in Ef. apply existsb_exists. exists u. exact Ef. }
  assert (Hb2 : bearer_of (Some ("Bearer " ++ tok))
                          (changed blocked (claims_id cl) w1) cl) by exact Hb1.
  assert (Hall : Second.handleAction (action blocked) c w
                 = (Second.handleLogout
                      (alert (Shown (Some (JStr "You are blocked. Action not allowed.")))
                             c),
                    after_query (changed blocked (claims_id cl) w1))).
  { unfold Second.handleAction. rewrite Htok, Hsel.
    cbn [falsy template].
    apply String.eqb_neq in Hne. rewrite Hne, orb_false_r.
    assert (Hlen : Nat.eqb (List.length
                              (map Z.of_N
                                   (before ++ claims_id cl :: next :: rest)))
                           0 = false).
    { rewrite length_map, length_app. simpl. apply Nat.eqb_neq. lia. }
    rewrite Hlen, map_app, E. cbn [map Second.requests].
    rewrite (action_is_not_delete blocked). cbv beta iota zeta.
    unfold fetch.
    rewrite (serve_put_users_allowed blocked _ _ (JObj []) w1 cl (claims_id cl)
               (Number_toString_nonempty _) Hb1 Hc1 Hst2 (Hread _)).
    rewrite Hsome. cbn [res_status res_body response_ok Nat.leb negb andb].
    rewrite (serve_put_users blocked _ _ (JObj []) _ cl
               (Number_toString_nonempty _) Hb2
               (store_answers_changed 1 _ _ _ Hst1)).
    rewrite status_of_changed, N.eqb_refl, Hc1. reflexivity. }
  rewrite Hall. split; [reflexivity|]. simpl.
  fold (set_status_where blocked (claims_id cl) (rows w1)).
  rewrite Hrows. unfold set_status_of_all. rewrite fold_left_app. reflexivity.
Qed.

(** X18.  The Delete button does nothing, in either client: the first DELETE
    request finds no route, Express's own 404 is not JSON, the loop ends in
    its catch, and store, selection and login state are exactly as before. *)
Theorem delete_button_does_nothing (c : Client) (w : World) :
  Second.handleAction "delete" c w = (c, w)
  /\ First.handleAction "delete" c w = (c, w).
Proof.
  unfold Second.handleAction, First.handleAction.
  destruct (Nat.eqb (List.length (selectedUsers c)) 0 || falsy (token c))
    eqn:E; [split; reflexivity|].
  destruct (selectedUsers c) as [|userId rest]; [discriminate|].
  split; reflexivity.
Qed.

End ClientAndServer.

Section ExpiredSession.

Import UserTable.

Context {L : Libs}.

Lemma error_of_error_body (msg : string) :
  js_get "error" (error_body msg) = Some (JStr msg).
Proof. reflexivity. Qed.

(** What the first client may add to its alerts. *)
Definition first_client_alert (a : Alert) : Prop :=
  a = Said "You are blocked! Logging out..." \/ exists e, a = ActionFailed e.

Lemma first_requests_alerts (action tok : string) (ids : list Z) :
  forall c w a,
    In a (alerts (fst (First.requests action tok ids c w))) ->
    In a (alerts c) \/ first_client_alert a.
Proof.
  induction ids as [|userId rest IH]; intros c w a; [simpl; auto|].
  cbn [First.requests].
  destruct (if String.eqb action "unblock" then _ else _) as [m p].
  destruct (fetch m p ("Bearer " ++ tok) w) as [[res| |e] w'] eqn:Ef;
    cbn [fst]; auto.
  destruct (Nat.eqb (res_status res) 403) eqn:E403; [|apply IH].
  apply Nat.eqb_eq in E403.
  destruct (catalogued_403 res (serve_catalogued _ _ _ _ Ef) E403)
    as [Eb|[Eb|Eb]]; rewrite Eb, error_of_error_body; simpl String.eqb;
    cbv iota.
  - intros Hin. apply IH in Hin. destruct Hin as [Hin|Hin]; [|auto].
    simpl in Hin. apply in_app_or in Hin.
    destruct Hin as [Hin|[<-|[]]]; [auto|].
    right. right. eexists. reflexivity.
  - simpl. intros Hin. apply in_app_or in Hin.
    destruct Hin as [Hin|[<-|[]]]; [auto|]. right. left. reflexivity.
  - intros Hin. apply IH in Hin. destruct Hin as [Hin|Hin]; [|auto].
    simpl in Hin. apply in_app_or in Hin.
    destruct Hin as [Hin|[<-|[]]]; [auto|].
    right. right. eexists. reflexivity.
Qed.

(** X19.  The first client tests a 403 for the message "Invalid token", and
    the server writes "Invalid token.": whatever the action, the selection and
    the state of the server, the first client's [handleAction] never says
    "Session expired or invalid. Logging out...".  Every alert it adds is "You
    are blocked! Logging out..." or an "Action failed: ..." *)
Theorem first_client_never_says_session_expired (action : string) (c : Client)
        (w : World) (a : Alert) :
  In a (alerts (fst (First.handleAction action c w))) ->
  In a (alerts c)
  \/ a = Said "You are blocked! Logging out..."
  \/ exists e, a = ActionFailed e.
Proof.
  unfold First.handleAction.
  destruct (Nat.eqb _ 0 || falsy (token c)); [simpl; auto|].
  apply first_requests_alerts.
Qed.

Lemma first_requests_rejected (s : Status) (tok t : string) (w : World) :
  nth_error (split space ("Bearer " ++ tok)) 1 = Some t ->
  jwt_verify t (JWT_SECRET w) (clock w) = None ->
  forall ids c,
    First.requests (action s) tok ids c w
    = (setSelectedUsers []
         (fold_left (fun c' _ =>
                       alert (ActionFailed (Some (JStr "Invalid token."))) c')
                    ids c), w).
Proof.
  intros Ht Hv. induction ids as [|userId rest IH]; intros c; [reflexivity|].
  cbn [First.requests fold_left].
  assert (Ef : forall path, protected PUT path ->
                 fetch PUT path ("Bearer " ++ tok) w
                 = (Answered (mkResponse 403 (error_body "Invalid token.")), w)).
  { intros path Hp. unfold fetch. apply serve_protected_rejected; [exact Hp|].
    intros req Hr.
    apply (authenticateToken_invalid _ _ _ Hr (startsWith_Bearer tok)).
    rewrite Ht. exact Hv. }
  pose proof (Ef _ (protected_put s _ (Number_toString_nonempty userId))) as E.
  destruct s; simpl action in *; simpl String.eqb; cbv iota; rewrite E;
    simpl; apply IH.
Qed.

Lemma second_requests_rejected (s : Status) (tok t : string) (w : World) :
  nth_error (split space ("Bearer " ++ tok)) 1 = Some t ->
  jwt_verify t (JWT_SECRET w) (clock w) = None ->
  forall userId rest c,
    Second.requests (action s) tok (userId :: rest) c w
    = (Second.handleLogout
         (alert (Shown (Some (JStr "Invalid token."))) c), w).
Proof.
  intros Ht Hv userId rest c. cbn [Second.requests].
  rewrite action_is_not_delete. cbv beta iota zeta.
  unfold fetch.
  rewrite (serve_protected_rejected PUT _ _ _ w
             (mkResponse 403 (error_body "Invalid token."))
             (protected_put s _ (Number_toString_nonempty userId))).
  - reflexivity.
  - intros req Hr.
    apply (authenticateToken_invalid _ _ _ Hr (startsWith_Bearer tok)).
    rewrite Ht. exact Hv.
Qed.

(** X20.  Block or Unblock with a token the server rejects, invalid or
    expired. The first client shows "Action failed: Invalid token." once for
    each selected row, clears the selection and stays logged in, token still
    in localStorage.  The second shows the message once, logs out, and sends
    no further request.  The server's state is untouched by either. *)
Theorem rejected_token_in_the_two_clients (s : Status) (tok t : string)
        (c : Client) (w : World) :
  token c = Some tok ->
  tok <> "" ->
  selectedUsers c <> [] ->
  nth_error (split space ("Bearer " ++ tok)) 1 = Some t ->
  jwt_verify t (JWT_SECRET w) (clock w) = None ->
  First.handleAction (action s) c w
  = (setSelectedUsers []
       (fold_left (fun c' _ =>
                     alert (ActionFailed (Some (JStr "Invalid token."))) c')
                  (selectedUsers c) c), w)
  /\ Second.handleAction (action s) c w
     = (Second.handleLogout (alert (Shown (Some (JStr "Invalid token."))) c), w).
Proof.
  intros Htok Hne Hsel Ht Hv.
  unfold First.handleAction, Second.handleAction. rewrite Htok.
  cbn [falsy template]. apply String.eqb_neq in Hne. rewrite Hne, orb_false_r.
  destruct (selectedUsers c) as [|userId rest] eqn:E; [destruct Hsel; reflexivity|].
  cbn [List.length Nat.eqb]. split.
  - apply (first_requests_rejected s tok t w Ht Hv).
  - apply (second_requests_rejected s tok t w Ht Hv).
Qed.

(** X21.  [fetchUsers] of the second client with a token that verifies: the
    roster becomes the list the server sends, whatever the status of the
    holder, a blocked one included, and the server's state is as before. *)
Theorem fetchUsers_lists_for_any_holder (storedToken : option string)
        (cl : Claims) (c : Client) (w : World) :
  bearer_of (Some ("Bearer " ++ template storedToken)) w cl ->
  store_answers 1 w ->
  fst (Second.fetchUsers storedToken c w)
  = setUsers (Some (JArr (map (select_columns listed_columns)
                              (order_by_last_login_desc (rows w))))) c
  /\ same_state w (snd (Second.fetchUsers storedToken c w)).
Proof.
  intros Hb Hst. unfold Second.fetchUsers, fetch.
  rewrite serve_get_users.
  rewrite (authenticateToken_valid
             (incoming GET ["api"; "users"]
                       (Some ("Bearer " ++ template storedToken)) (JObj []))
             w cl Hb).
  rewrite get_api_users_answer.
  apply store_answers_hd in Hst. rewrite Hst. simpl. repeat split.
Qed.

(** X22.  [fetchUsers] of the second client with a token the server rejects:
    the client logs out, and the message "You have been blocked. ..." it sets
    first is overwritten at once by [handleLogout], so the error message ends
    empty; the register form is shown and the token is gone from localStorage. *)
Theorem fetchUsers_rejected_logs_out (storedToken : option string)
        (t : string) (c : Client) (w : World) :
  nth_error (split space ("Bearer " ++ template storedToken)) 1 = Some t ->
  jwt_verify t (JWT_SECRET w) (clock w) = None ->
  Second.fetchUsers storedToken c w = (Second.handleLogout c, w)
  /\ errorMessage (Second.handleLogout c) = ""
  /\ isLoggedIn (Second.handleLogout c) = false
  /\ showRegister (Second.handleLogout c) = true
  /\ stored_token (Second.handleLogout c) = None.
Proof.
  intros Ht Hv. unfold Second.fetchUsers, fetch.
  rewrite (serve_protected_rejected GET _ _ _ w
             (mkResponse 403 (error_body "Invalid token.")) protected_list).
  - repeat split.
  - intros req Hr.
    apply (authenticateToken_invalid _ _ _ Hr (startsWith_Bearer _)).
    rewrite Ht. exact Hv.
Qed.

End ExpiredSession.

Section PushAndRefresh.

Import UserTable.

Context {L : Libs}.

(** X23.  From one client to the other.  An active caller blocks one row in
    the second client: the request is answered 200, [usersUpdated] is pushed.
    The client of the blocked user, holding a token that still verifies,
    answers the push with [fetchUsers]: it gets the whole list and stays
    logged in, for the list route does not look at the status.  Only the next
    Block or Unblock of the blocked user is answered 403: the client shows
    "You are blocked. Action not allowed." and logs out, and the table is as
    the block left it. *)
Theorem blocked_user_learns_at_the_next_action (s : Status)
        (admin_token tok : string) (admin cl : Claims) (a c : Client)
        (w : World) :
  reads_ids L ->
  token a = Some admin_token ->
  admin_token <> "" ->
  selectedUsers a = [Z.of_N (claims_id cl)] ->
  bearer_of (Some ("Bearer " ++ admin_token)) w admin ->
  status_of (claims_id admin) w = Some active ->
  token c = Some tok ->
  tok <> "" ->
  selectedUsers c <> [] ->
  bearer_of (Some ("Bearer " ++ tok)) w cl ->
  status_of (claims_id cl) w = Some active ->
  store_answers 4 w ->
  let w1 := changed blocked (claims_id cl) w in
  let c1 :=
    setUsers (Some (JArr (map (select_columns listed_columns)
                              (order_by_last_login_desc (rows w1))))) c in
  Second.handleAction (action blocked) a w
  = (socket_emit "usersUpdated" (setSelectedUsers [] a), w1)
  /\ status_of (claims_id cl) w1 = Some blocked
  /\ Second.on_usersUpdated c w1 = (c1, after_query w1)
  /\ isLoggedIn c1 = isLoggedIn c
  /\ Second.handleAction (action s) c1 (after_query w1)
     = (Second.handleLogout
          (alert (Shown (Some (JStr "You are blocked. Action not allowed.")))
                 c1),
        after_query (after_query w1)).
Proof.
  intros Hread Hta Hnea Hsela Hba Hca Htok Hne Hsel Hb Hc Hst w1 c1.
  assert (Hst2 : store_answers 2 w)
    by (apply (store_answers_le 4); [lia | exact Hst]).
  assert (Hst1 : store_answers 2 w1)
    by (apply store_answers_changed; exact Hst).
  destruct (store_answers_next 1 w1 Hst1) as [Hlist Hnext].
  assert (Hsome : existsb (fun u => N.eqb (user_id u) (claims_id cl)) (rows w)
                  = true).
  { unfold status_of in Hc.
    destruct (find _ (rows w)) as [u|] eqn:Ef; [|discriminate].
    apply find_some in Ef. apply existsb_exists. exists u. exact Ef. }
  assert (Hb1 : bearer_of (Some ("Bearer " ++ tok)) w1 cl) by exact Hb.
  assert (Hb2 : bearer_of (Some ("Bearer " ++ tok)) (after_query w1) cl)
    by exact Hb.
  assert (Hc1 : status_of (claims_id cl) w1 = Some blocked).
  { unfold w1. rewrite status_of_changed, N.eqb_refl, Hc. reflexivity. }
  apply String.eqb_neq in Hnea. apply String.eqb_neq in Hne.
  split; [|split; [exact Hc1|split; [|split; [reflexivity|]]]].
  - unfold Second.handleAction. rewrite Hta, Hsela.
    cbn [falsy template List.length Nat.eqb orb]. rewrite Hnea.
    cbn [Second.requests]. rewrite (action_is_not_delete blocked).
    cbv beta iota zeta. unfold fetch.
    rewrite (serve_put_users_allowed blocked _ _ (JObj []) w admin
               (claims_id cl) (Number_toString_nonempty _) Hba Hca Hst2
               (Hread _)).
    rewrite Hsome. reflexivity.
  - unfold Second.on_usersUpdated. rewrite Htok. cbn [falsy]. rewrite Hne.
    unfold Second.fetchUsers, fetch. rewrite serve_get_users.
    rewrite (authenticateToken_valid
               (incoming GET ["api"; "users"]
                         (Some ("Bearer " ++ template (Some tok))) (JObj []))
               w1 cl Hb1).
    rewrite get_api_users_answer.
    apply store_answers_hd in Hlist. rewrite Hlist. reflexivity.
  - unfold Second.handleAction.
    change (token c1) with (token c).
    change (selectedUsers c1) with (selectedUsers c).
    rewrite Htok. cbn [falsy template]. rewrite Hne, orb_false_r.
    destruct (selectedUsers c) as [|userId rest];
      [destruct Hsel; reflexivity|].
    cbn [List.length Nat.eqb Second.requests].
    rewrite (action_is_not_delete s). cbv beta iota zeta. unfold fetch.
    rewrite (serve_put_users s _ _ (JObj []) _ cl
               (Number_toString_nonempty _) Hb2 Hnext).
    rewrite (status_of_rows (claims_id cl) w1 (after_query w1) eq_refl), Hc1.
    reflexivity.
Qed.

End PushAndRefresh.

Section FirstFetchUsers.

Import UserTable.

Context {L : Libs}.

(** X24.  [fetchUsers] of the first client, for a stored token that is not
    empty.  What it does depends on the token and on the store, never on the
    status of the holder: a token the server rejects, invalid or expired,
    makes the client say "You have been blocked. Please contact an
    administrator." and log out; a token that verifies gives the list, or
    "Session expired. Please log in again." when the store fails.  So a
    blocked user is never told so here, and a user whose token ran out is
    told they were blocked. *)
Theorem first_fetchUsers_blames_a_block (storedToken : option string)
        (t : string) (c : Client) (w : World) :
  falsy storedToken = false ->
  nth_error (split space ("Bearer " ++ template storedToken)) 1 = Some t ->
  First.fetchUsers storedToken c w
  = match jwt_verify t (JWT_SECRET w) (clock w) with
    | None =>
        (setIsLoggedIn false
           (removeItem_token
              (setErrorMessage
                 "You have been blocked. Please contact an administrator." c)),
         w)
    | Some _ =>
        if hd false (faults w)
        then (First.session_expired c, after_query w)
        else (setUsers
                (Some (JArr (map (select_columns listed_columns)
                                 (order_by_last_login_desc (rows w))))) c,
              after_query w)
    end.
Proof.
  intros Hf Ht. unfold First.fetchUsers. rewrite Hf. unfold fetch.
  destruct (jwt_verify t (JWT_SECRET w) (clock w)) as [cl|] eqn:Hv.
  - rewrite serve_get_users.
    rewrite (authenticateToken_valid
               (incoming GET ["api"; "users"]
                         (Some ("Bearer " ++ template storedToken)) (JObj []))
               w cl).
    + rewrite get_api_users_answer.
      destruct (hd false (faults w)); reflexivity.
    + exists ("Bearer " ++ template storedToken), t.
      repeat split; [apply startsWith_Bearer | exact Ht | exact Hv].
  - rewrite (serve_protected_rejected GET _ _ _ w
               (mkResponse 403 (error_body "Invalid token.")) protected_list).
    + reflexivity.
    + intros req Hr.
      apply (authenticateToken_invalid _ _ _ Hr (startsWith_Bearer _)).
      rewrite Ht. exact Hv.
Qed.

End FirstFetchUsers.

(** * The reference libraries *)

Module ReferenceFacts.

Import Reference.

Lemma split_without (sep : ascii) (s : string) :
  lacks sep s = true -> split sep s = [s].
Proof.
  induction s as [|c s IH]; simpl; [reflexivity|].
  intros H. apply andb_prop in H. destruct H as [Hc Hs].
  apply negb_true_iff in Hc. rewrite Hc, (IH Hs). reflexivity.
Qed.

Lemma split_append (sep : ascii) (a b : string) :
  lacks sep a = true -> split sep (a ++ String sep b) = a :: split sep b.
Proof.
  induction a as [|c a IH]; simpl.
  - intros _. rewrite Ascii.eqb_refl. reflexivity.
  - intros H. apply andb_prop in H. destruct H as [Hc Ha].
    apply negb_true_iff in Hc. rewrite Hc, (IH Ha). reflexivity.
Qed.

(** The two digits of a byte: neither is a dot or a space, and they read
    back as the byte. *)
Lemma hex_byte (a : ascii) :
  let hi := hex_digit (N_of_ascii a / 16) in
  let lo := hex_digit (N_of_ascii a mod 16) in
  Ascii.eqb hi dot = false /\ Ascii.eqb lo dot = false
  /\ Ascii.eqb hi space = false /\ Ascii.eqb lo space = false
  /\ match hex_value hi, hex_value lo with
     | Some x, Some y => ascii_of_N (16 * x + y) = a
     | _, _ => False
     end.
Proof.
  destruct a as [[] [] [] [] [] [] [] []]; vm_compute; repeat split.
Qed.

Lemma hex_lacks_dot (s : string) : lacks dot (hex s) = true.
Proof.
  induction s as [|a s IH]; simpl; [reflexivity|].
  destruct (hex_byte a) as (H1 & H2 & _). cbv zeta in H1, H2.
  rewrite H1, H2, IH. reflexivity.
Qed.

Lemma hex_lacks_space (s : string) : lacks space (hex s) = true.
Proof.
  induction s as [|a s IH]; simpl; [reflexivity|].
  destruct (hex_byte a) as (_ & _ & H1 & H2 & _). cbv zeta in H1, H2.
  rewrite H1, H2, IH. reflexivity.
Qed.

Lemma unhex_hex (s : string) : unhex (hex s) = Some s.
Proof.
  induction s as [|a s IH]; [reflexivity|]. cbn [hex unhex].
  destruct (hex_byte a) as (_ & _ & _ & _ & H). cbv zeta in H.
  destruct (hex_value (hex_digit (N_of_ascii a / 16))) as [x|]; [|destruct H].
  destruct (hex_value (hex_digit (N_of_ascii a mod 16))) as [y|]; [|destruct H].
  rewrite IH, H. reflexivity.
Qed.

Lemma digits_lack (c : ascii) (d : Decimal.uint) :
  (N_of_ascii c <? 48)%N = true ->
  lacks c (NilEmpty.string_of_uint d) = true.
Proof.
  intros Hc.
  assert (Hd : forall a, (48 <=? N_of_ascii a)%N = true -> Ascii.eqb a c = false).
  { intros a Ha. apply Ascii.eqb_neq. intros ->.
    apply N.ltb_lt in Hc. apply N.leb_le in Ha. lia. }
  induction d; cbn [NilEmpty.string_of_uint lacks];
    rewrite ?IHd, ?Hd; reflexivity.
Qed.

Lemma dec_lacks_dot (n : N) : lacks dot (dec n) = true.
Proof. apply digits_lack. reflexivity. Qed.

Lemma dec_lacks_space (n : N) : lacks space (dec n) = true.
Proof. apply digits_lack. reflexivity. Qed.

Lemma undec_dec (n : N) : undec (dec n) = Some n.
Proof.
  unfold undec, dec.
  destruct (String.eqb_spec (NilEmpty.string_of_uint (N.to_uint n)) "") as [E|E].
  - exfalso. destruct n as [|q]; simpl in E; [discriminate|].
    apply (DecimalPos.Unsigned.to_uint_nonnil q).
    destruct (Pos.to_uint q); simpl in E; try discriminate; reflexivity.
  - rewrite NilEmpty.usu. simpl. rewrite DecimalN.Unsigned.of_to. reflexivity.
Qed.

(** The reference [verify] reads back what the reference [sign] wrote. *)
Lemma reference_jwt_sound : jwt_sound libs.
Proof.
  intros [i e] secret iat d t Ht. simpl. unfold verify, sign. simpl.
  rewrite (split_append dot (hex secret)) by apply hex_lacks_dot.
  rewrite (split_append dot (hex e)) by apply hex_lacks_dot.
  rewrite (split_append dot (dec i)) by apply dec_lacks_dot.
  rewrite (split_append dot (dec iat)) by apply dec_lacks_dot.
  rewrite (split_without dot (dec (iat + d))) by apply dec_lacks_dot.
  rewrite !unhex_hex, !undec_dec, String.eqb_refl.
  apply N.ltb_lt in Ht. rewrite Ht. reflexivity.
Qed.

End ReferenceFacts.

(** * The reference instance keeps the laws of the libraries *)

Module ReferenceLaws.

Import Reference ReferenceFacts.

Lemma concat_split (sep : ascii) (s : string) :
  String.concat (String sep "") (split sep s) = s.
Proof.
  induction s as [|c s IH]; [reflexivity|]. cbn [split].
  destruct (split_nonempty sep s) as (h & t & E). rewrite E in *.
  destruct (Ascii.eqb_spec c sep) as [->|_].
  - cbn [String.concat]. cbn [String.concat] in IH. rewrite IH. reflexivity.
  - destruct t as [|h' t]; cbn [String.concat] in *; rewrite <- IH;
      reflexivity.
Qed.

Lemma reference_bcrypt_sound : bcrypt_sound libs.
Proof.
  intros p rounds salt. simpl. unfold compare, hash.
  change ("$" ++ p) with (String "$"%char p).
  rewrite split_append by (apply digits_lack; reflexivity).
  apply String.eqb_eq. apply (concat_split "$"%char).
Qed.

Lemma lacks_append (c : ascii) (a b : string) :
  lacks c (a ++ b) = lacks c a && lacks c b.
Proof.
  induction a as [|x a IH]; simpl; [reflexivity|].
  rewrite IH, andb_assoc. reflexivity.
Qed.

Lemma reference_jwt_compact : jwt_compact libs.
Proof.
  intros p secret iat d. simpl. unfold sign.
  repeat (rewrite lacks_append;
          rewrite ?hex_lacks_space, ?dec_lacks_space; cbn [andb]).
  repeat (change ("." ++ ?x) with (String dot x)).
  cbn [append lacks].
  repeat (rewrite lacks_append;
          rewrite ?hex_lacks_space, ?dec_lacks_space; cbn [andb]).
  reflexivity.
Qed.

Lemma reference_reads_ids : reads_ids libs.
Proof.
  intros id. simpl.
  replace (NilEmpty.string_of_int (Z.to_int (Z.of_N id))) with (dec id)
    by (destruct id; reflexivity).
  apply undec_dec.
Qed.

Lemma reference_jwt_expires : jwt_expires libs.
Proof.
  intros [i e] secret iat d t Ht. simpl. unfold verify, sign. simpl.
  rewrite (split_append dot (hex secret)) by apply hex_lacks_dot.
  rewrite (split_append dot (hex e)) by apply hex_lacks_dot.
  rewrite (split_append dot (dec i)) by apply dec_lacks_dot.
  rewrite (split_append dot (dec iat)) by apply dec_lacks_dot.
  rewrite (split_without dot (dec (iat + d))) by apply dec_lacks_dot.
  rewrite !unhex_hex, !undec_dec, String.eqb_refl.
  apply N.ltb_ge in Ht. rewrite Ht. reflexivity.
Qed.

End ReferenceLaws.

(** * The claims on concrete requests *)

Import Reference.

Ltac run_model := vm_compute; reflexivity.

Ltac bearer_token := eexists; eexists; repeat split; run_model.

Lemma table_ok_w0 : table_ok w0.
Proof. repeat split; constructor. Qed.

Lemma table_ok_w_alice : table_ok w_alice.
Proof. apply (run_keeps_table (L := libs)). exact table_ok_w0. Qed.

Lemma table_ok_w_two : table_ok w_two.
Proof. apply (run_keeps_table (L := libs)). exact table_ok_w_alice. Qed.

Lemma table_ok_w_alice_blocked : table_ok w_alice_blocked.
Proof. apply (run_keeps_table (L := libs)). exact table_ok_w_two. Qed.

Example rows_w_two : rows w_two = [alice_row active; bob_row].
Proof. run_model. Qed.

Example rows_w_alice_blocked :
  rows w_alice_blocked = [alice_row blocked; bob_row].
Proof. run_model. Qed.

Example login_alice_returns_alice_token :
  fst (serve (L := libs) login_alice
             (run (L := libs)
                  [Tick 60; Http register_bob; Tick 60; Http login_bob; Tick 60]
                  w_alice))
  = Answered (mkResponse 200 (JObj [("message", JStr "Login successful!");
                                    ("token", JStr alice_token)])).
Proof. run_model. Qed.

(** Without a header and with a forged token nobody lists users; Alice,
    blocked by Bob after her login, cannot lift her own block with the token
    she still holds. *)
Lemma authorization_gate_witness :
  serve (L := libs) (incoming GET ["api"; "users"] None JNull) w_two
  = (Answered (mkResponse 401 (error_body "Access denied. No token provided.")),
     w_two)
  /\ serve (L := libs)
           (incoming GET ["api"; "users"] (Some "Bearer forged") JNull) w_two
     = (Answered (mkResponse 403 (error_body "Invalid token.")), w_two)
  /\ (fst (serve (L := libs)
                 (incoming PUT ["api"; "users"; action active; "1"]
                           (bearer alice_token) JNull)
                 w_alice_blocked)
      = Answered (mkResponse 403
                    (error_body "You are blocked. Action not allowed."))
      /\ same_state w_alice_blocked
           (snd (serve (L := libs)
                       (incoming PUT ["api"; "users"; action active; "1"]
                                 (bearer alice_token) JNull)
                       w_alice_blocked))).
Proof.
  destruct (authorization_gate (L := libs)) as (H1 & H2 & H3).
  split; [|split].
  - apply H1; [apply protected_list | left; reflexivity].
  - apply (H2 GET ["api"; "users"] "Bearer forged" "forged" JNull w_two);
      [apply protected_list | run_model | run_model | run_model].
  - apply (H3 active "1" (bearer alice_token) JNull w_alice_blocked alice_claims);
      [discriminate | bearer_token | run_model | run_model].
Defined.

(** A token for id 9, which no row carries, against Bob's row. *)
Lemma unknown_caller_not_found_witness :
  fst (serve (L := libs)
             (incoming PUT ["api"; "users"; action blocked; "2"]
                       (bearer ghost_token) JNull) w_two)
  = Answered (mkResponse 404 (error_body "User not found."))
  /\ same_state w_two
       (snd (serve (L := libs)
                   (incoming PUT ["api"; "users"; action blocked; "2"]
                             (bearer ghost_token) JNull) w_two)).
Proof.
  apply (unknown_caller_not_found (L := libs) blocked "2"
           (bearer ghost_token) JNull w_two ghost_claims);
    [discriminate | bearer_token | run_model | ].
  intros u Hin. rewrite rows_w_two in Hin.
  destruct Hin as [E|[E|[]]]; subst u; discriminate.
Defined.

(** Alice, blocked, logs in with her right password. *)
Lemma blocked_user_cannot_login_witness :
  fst (serve (L := libs) login_alice w_alice_blocked)
  = Answered (mkResponse 403 (error_body "User is blocked.")).
Proof.
  apply (proj2 (blocked_user_cannot_login (L := libs) None
                  (credentials "Alice" "alice@x.com" "pw123")
                  w_alice_blocked (alice_row blocked)
                  (proj1 (proj2 table_ok_w_alice_blocked))
                  (or_introl eq_refl) eq_refl eq_refl));
    run_model.
Defined.

(** Bob blocks Alice: her row changes, Bob's does not, and the one
    connected client is told.  Bob blocks id 9, which no row carries: 404,
    and nothing changes. *)
Lemma block_unblock_effect_witness :
  (fst (serve (L := libs) bob_blocks_alice w_two)
   = Answered (mkResponse 200 (message_body "User has been blocked."))
   /\ rows (snd (serve (L := libs) bob_blocks_alice w_two))
      = [alice_row blocked; bob_row]
   /\ delivered (snd (serve (L := libs) bob_blocks_alice w_two))
      = [(5%N, "usersUpdated")])
  /\ (fst (serve (L := libs)
                 (incoming PUT ["api"; "users"; action blocked; "9"]
                           (bearer bob_token) JNull) w_two)
      = Answered (mkResponse 404 (error_body "User not found."))
      /\ same_state w_two
           (snd (serve (L := libs)
                       (incoming PUT ["api"; "users"; action blocked; "9"]
                                 (bearer bob_token) JNull) w_two))).
Proof.
  split.
  - destruct (block_unblock_effect (L := libs) blocked "1" (bearer bob_token)
                JNull w_two bob_claims 1) as [_ H];
      [discriminate | bearer_token | run_model | run_model | run_model |].
    destruct H as (Hres & Hrows & _ & _ & Hpush & _).
    + exists (alice_row active). split; [left; run_model | reflexivity].
    + unfold bob_blocks_alice.
      split; [exact Hres|]. split; [rewrite Hrows | rewrite Hpush]; run_model.
  - destruct (block_unblock_effect (L := libs) blocked "9" (bearer bob_token)
                JNull w_two bob_claims 9) as [H _];
      [discriminate | bearer_token | run_model | run_model | run_model |].
    apply H. intros u Hin. rewrite rows_w_two in Hin.
    destruct Hin as [E|[E|[]]]; subst u; discriminate.
Defined.


(** Alice registers a second time: 409, and still one row with her email. *)
Lemma registration_errors_witness :
  http_status (fst (serve (L := libs) register_alice w_two)) = Some 409
  /\ List.length (filter (fun u => String.eqb (user_email u) "alice@x.com")
                         (rows (snd (serve (L := libs) register_alice w_two))))
     = 1.
Proof.
  destruct (registration_errors (L := libs) None
              (credentials "Alice" "alice@x.com" "pw123") w_two)
    as (_ & H409 & Hone).
  assert (H : http_status (fst (serve (L := libs) register_alice w_two))
              = Some 409).
  { apply H409. split; [run_model|]. split; [run_model|].
    split; [exists "pw123"; split; [run_model | discriminate]|].
    split; [run_model|].
    exists (alice_row active). split; [left; run_model | reflexivity]. }
  split; [exact H|].
  apply (proj2 (Hone H)). exact (proj1 (proj2 table_ok_w_two)).
Defined.

(** C6, as the claim states it, fails: a registration whose name is the
    empty string carries all three fields, none is absent, and it is
    answered 400. *)
Lemma registration_empty_name_rejected :
  js_get "name" (req_body register_empty_name) = Some (JStr "")
  /\ js_get "email" (req_body register_empty_name) = Some (JStr "alice@x.com")
  /\ js_get "password" (req_body register_empty_name) = Some (JStr "pw123")
  /\ serve (L := libs) register_empty_name w0
     = (Answered (mkResponse 400 (error_body "All fields are required.")), w0).
Proof. repeat split. Qed.

(** Alice logs in with her password: the token carries her id and email
    and verifies for the hour to come. *)
Lemma login_issues_token_witness :
  user_last_login (alice_row active) = 1180%N
  /\ In (alice_row active) (rows (run (L := libs) [Tick 60] w_two))
  /\ fst (serve (L := libs) login_alice (run (L := libs) [Tick 60] w_two))
     = Answered (mkResponse 200
                   (JObj [("message", JStr "Login successful!");
                          ("token",
                           JStr (sign (mkPayload 1 "alice@x.com")
                                      "your_secret_key" 1240 3600))]))
  /\ In (mkUser 1 "Alice" "alice@x.com" "7$pw123" active 1240)
        (rows (snd (serve (L := libs) login_alice
                          (run (L := libs) [Tick 60] w_two))))
  /\ In bob_row
        (rows (snd (serve (L := libs) login_alice
                          (run (L := libs) [Tick 60] w_two))))
  /\ verify (sign (mkPayload 1 "alice@x.com") "your_secret_key" 1240 3600)
            "your_secret_key" 4839
     = Some (mkClaims 1 "alice@x.com" 1240 4840).
Proof.
  assert (Hrows : rows (run (L := libs) [Tick 60] w_two)
                  = [alice_row active; bob_row]) by run_model.
  destruct (login_issues_token (L := libs) None
              (credentials "Alice" "alice@x.com" "pw123")
              (run (L := libs) [Tick 60] w_two) (alice_row active) "pw123")
    as (Hres & _ & Hnew & _ & Hothers & _ & Hverify);
    [apply (run_keeps_table (L := libs)); exact table_ok_w_two
    | rewrite Hrows; left; reflexivity | reflexivity | reflexivity
    | reflexivity | discriminate | reflexivity | run_model | run_model |].
  unfold login_alice, json_post.
  split; [reflexivity|]. split; [rewrite Hrows; left; reflexivity|].
  split; [rewrite Hres; run_model|]. split; [exact Hnew|]. split.
  - apply Hothers; [rewrite Hrows; right; left; reflexivity | discriminate].
  - apply (Hverify ReferenceFacts.reference_jwt_sound 4839%N). reflexivity.
Defined.

(** Alice registers against the empty table. *)
Lemma registration_success_witness :
  fst (serve (L := libs) register_alice w0)
  = Answered (mkResponse 201 (message_body "User registered successfully!"))
  /\ rows (snd (serve (L := libs) register_alice w0))
     = [mkUser 1 "Alice" "alice@x.com" (hash "pw123" 10 7) active 1000]
  /\ delivered (snd (serve (L := libs) register_alice w0)) = [].
Proof.
  destruct (registration_success (L := libs) None
              (credentials "Alice" "alice@x.com" "pw123") w0) as [Hrow Hok].
  assert (H : fst (serve (L := libs) register_alice w0)
              = Answered (mkResponse 201
                            (message_body "User registered successfully!"))).
  { apply (Hok "pw123");
      [run_model | run_model | run_model | discriminate | run_model |].
    intros u []. }
  split; [exact H|]. unfold register_alice, json_post.
  destruct Hrow as (p & Hp & Hrows & Hpush).
  { unfold register_alice, json_post in H. rewrite H. reflexivity. }
  injection Hp as <-.
  split; [exact Hrows | exact Hpush].
Defined.

(** Bob blocks Alice, who is blocked already, and then once more. *)
Lemma block_unblock_idempotent_witness :
  (fst (serve (L := libs) bob_blocks_alice w_alice_blocked)
   = Answered (mkResponse 200 (message_body "User has been blocked."))
   /\ rows (snd (serve (L := libs) bob_blocks_alice w_alice_blocked))
      = rows w_alice_blocked)
  /\ rows (snd (serve (L := libs) bob_blocks_alice
                      (snd (serve (L := libs) bob_blocks_alice w_alice_blocked))))
     = rows (snd (serve (L := libs) bob_blocks_alice w_alice_blocked))
  /\ fst (serve (L := libs) bob_blocks_alice
                (snd (serve (L := libs) bob_blocks_alice w_alice_blocked)))
     = fst (serve (L := libs) bob_blocks_alice w_alice_blocked).
Proof.
  destruct (block_unblock_idempotent (L := libs) blocked "1" (bearer bob_token)
              JNull w_alice_blocked bob_claims 1) as (Hsame & Hrows & Hagain);
    [discriminate | bearer_token | run_model | run_model | run_model | |].
  - exists (alice_row blocked). split; [left; run_model | reflexivity].
  - split; [|split; [exact Hrows | apply Hagain; run_model]].
    apply Hsame. intros u Hin Hid. rewrite rows_w_alice_blocked in Hin.
    destruct Hin as [E|[E|[]]]; subst u; [reflexivity | discriminate].
Defined.

(** C5 at the requests the client sends for Bob's row, with Alice's valid
    token: neither URL has a route, Express answers 404 by itself, and Bob's
    row is still in the table. *)
Theorem delete_request_finds_no_route :
  serve (L := libs)
        (incoming DELETE ["api"; "users"; "2"] (bearer alice_token) JNull) w_two
  = (NoRoute, w_two)
  /\ serve (L := libs)
           (incoming DELETE ["api"; "users"; "delete"; "2"]
                     (bearer alice_token) JNull) w_two
     = (NoRoute, w_two)
  /\ In bob_row (rows w_two).
Proof.
  split; [apply delete_is_not_routed|].
  split; [apply delete_is_not_routed|].
  rewrite rows_w_two. right. left. reflexivity.
Qed.

(** * The further properties on concrete requests *)

Import Scenario UserTable.

Ltac distinct :=
  repeat (apply NoDup_cons; [simpl; intuition discriminate|]); apply NoDup_nil.

Lemma error_answers_change_nothing_witness :
  fst (serve (L := libs) register_alice w_two)
  = Answered (mkResponse 409 (error_body "Email already exists."))
  /\ rows (snd (serve (L := libs) register_alice w_two)) = rows w_two
  /\ delivered (snd (serve (L := libs) register_alice w_two))
     = delivered w_two.
Proof.
  split; [run_model|].
  apply (error_answers_change_nothing (L := libs)); vm_compute; discriminate.
Defined.

Lemma answers_are_catalogued_witness :
  In (mkRoute PUT [Lit "api"; Lit "users"; Lit "block"; Param "id"]
              [authenticateToken (L := libs); checkIfBlocked;
               put_api_users_block (L := libs)])
     (app (L := libs))
  /\ exists res w',
       run_stack [authenticateToken (L := libs); checkIfBlocked;
                  put_api_users_block (L := libs)]
                 (set_params [("id", "1")]
                    (incoming PUT ["api"; "users"; action blocked; "1"]
                              (bearer bob_token) JNull))
                 w_two
       = (Ok (Send res), w')
       /\ catalogued res
       /\ has_key "password" (res_body res) = false.
Proof.
  assert (Hr : In (mkRoute PUT
                           [Lit "api"; Lit "users"; Lit "block"; Param "id"]
                           [authenticateToken (L := libs); checkIfBlocked;
                            put_api_users_block (L := libs)])
                  (app (L := libs)))
    by (do 3 right; left; reflexivity).
  split; [exact Hr|].
  exact (answers_are_catalogued (L := libs) _
           (set_params [("id", "1")]
              (incoming PUT ["api"; "users"; action blocked; "1"]
                        (bearer bob_token) JNull))
           w_two Hr).
Defined.

Lemma table_constraints_hold_witness :
  table_ok (run (L := libs)
                [Http bob_blocks_alice; Tick 5; Http register_empty_name;
                 Http login_alice] w_two).
Proof.
  apply (table_constraints_hold (L := libs)). exact table_ok_w_two.
Defined.

Lemma login_failures_look_alike_witness :
  fst (serve (L := libs)
             (incoming POST ["api"; "login"] None
                       (credentials "" "nobody@x.com" "pw123")) w_two)
  = Answered (mkResponse 401 (error_body "Invalid email or password."))
  /\ fst (serve (L := libs)
                (incoming POST ["api"; "login"] None
                          (credentials "" "alice@x.com" "pw124")) w_two)
     = Answered (mkResponse 401 (error_body "Invalid email or password.")).
Proof.
  destruct (login_failures_look_alike (L := libs) None
              (credentials "" "nobody@x.com" "pw123")
              (credentials "" "alice@x.com" "pw124") w_two
              (alice_row active) "pw124")
    as (Hunknown & Hwrong & _);
    [exact (proj1 (proj2 table_ok_w_two)) | run_model | reflexivity
    | reflexivity | | reflexivity | rewrite rows_w_two; left; reflexivity
    | reflexivity | reflexivity | reflexivity | discriminate | run_model |].
  - intros u Hin. rewrite rows_w_two in Hin.
    destruct Hin as [E|[E|[]]]; subst u; vm_compute; discriminate.
  - split; [exact Hunknown | rewrite Hwrong; exact Hunknown].
Defined.

Lemma login_fails_when_update_fails_witness :
  fst (serve (L := libs) login_alice w_flaky)
  = Answered (mkResponse 500 (error_body "Login failed."))
  /\ same_state w_flaky (snd (serve (L := libs) login_alice w_flaky)).
Proof.
  unfold login_alice, json_post.
  apply (login_fails_when_update_fails (L := libs) None
           (credentials "Alice" "alice@x.com" "pw123") w_flaky
           (alice_row active) "pw123");
    [exact (proj1 (proj2 table_ok_w_two)) | left; run_model | reflexivity
    | reflexivity | reflexivity | discriminate | reflexivity | run_model
    | run_model | run_model].
Defined.

Lemma unblock_undoes_block_witness :
  fst (serve (L := libs) bob_blocks_alice w_two)
  = Answered (mkResponse 200 (message_body "User has been blocked."))
  /\ rows (snd (serve (L := libs)
                      (incoming PUT ["api"; "users"; action active; "1"]
                                (bearer bob_token) JNull)
                      (snd (serve (L := libs) bob_blocks_alice w_two))))
     = rows w_two.
Proof.
  destruct (unblock_undoes_block (L := libs) "1" (bearer bob_token) JNull
              JNull w_two bob_claims 1) as (Hblock & _ & Hrows);
    [discriminate | bearer_token | run_model | vm_compute; discriminate
    | run_model | run_model | | |].
  - exists (alice_row active).
    split; [rewrite rows_w_two; left; reflexivity | reflexivity].
  - intros u Hin. rewrite rows_w_two in Hin.
    destruct Hin as [E|[E|[]]]; subst u; intros E;
      [reflexivity | discriminate E].
  - unfold bob_blocks_alice. split; [exact Hblock | exact Hrows].
Defined.

Lemma self_block_locks_out_witness :
  fst (serve (L := libs)
             (incoming PUT ["api"; "users"; action blocked; "2"]
                       (bearer bob_token) JNull) w_two)
  = Answered (mkResponse 200 (message_body "User has been blocked."))
  /\ fst (serve (L := libs)
                (incoming PUT ["api"; "users"; action active; "2"]
                          (bearer bob_token) JNull)
                (snd (serve (L := libs)
                            (incoming PUT ["api"; "users"; action blocked; "2"]
                                      (bearer bob_token) JNull) w_two)))
     = Answered (mkResponse 403
                   (error_body "You are blocked. Action not allowed.")).
Proof.
  destruct (self_block_locks_out (L := libs) "2" (bearer bob_token) JNull
              w_two bob_claims) as [Hblock Hafter];
    [discriminate | bearer_token | run_model | run_model | run_model |].
  split; [exact Hblock|].
  destruct (Hafter active "2" JNull) as [H _]; [discriminate | exact H].
Defined.

Lemma register_then_login_witness :
  fst (serve (L := libs) (incoming POST ["api"; "register"] None carol) w_two)
  = Answered (mkResponse 201 (message_body "User registered successfully!"))
  /\ fst (serve (L := libs) (incoming POST ["api"; "login"] None carol)
                (snd (serve (L := libs)
                            (incoming POST ["api"; "register"] None carol)
                            w_two)))
     = Answered
         (mkResponse 200
            (JObj [("message", JStr "Login successful!");
                   ("token",
                    JStr (sign (mkPayload 3 "carol@x.com") "your_secret_key"
                               1180 3600))])).
Proof.
  destruct (register_then_login (L := libs) None None carol w_two "s3cret")
    as [Hregister Hlogin];
    [exact ReferenceLaws.reference_bcrypt_sound | reflexivity | reflexivity
    | reflexivity | discriminate | | run_model |].
  - intros u Hin. rewrite rows_w_two in Hin.
    destruct Hin as [E|[E|[]]]; subst u; vm_compute; discriminate.
  - split; [exact Hregister | rewrite Hlogin; run_model].
Defined.

Lemma text_after_the_token_is_ignored_witness :
  serve (L := libs)
        (incoming GET ["api"; "users"]
                  (Some ("Bearer " ++ alice_token ++ " " ++ "and more")) JNull)
        w_two
  = serve (L := libs)
          (incoming GET ["api"; "users"] (bearer alice_token) JNull) w_two.
Proof.
  destruct (text_after_the_token_is_ignored (L := libs) alice_token "and more")
    as [_ H]; [run_model|].
  exact (H JNull w_two).
Defined.

Lemma token_lifetime_witness :
  fst (serve (L := libs)
             (incoming GET ["api"; "users"] (bearer alice_token) JNull) w_two)
  = Answered
      (mkResponse 200
         (JObj [("users",
                 JArr (map (select_columns listed_columns)
                           [alice_row active; bob_row]))]))
  /\ serve (L := libs)
           (incoming PUT ["api"; "users"; action blocked; "2"]
                     (bearer alice_token) JNull) w_later
     = (Answered (mkResponse 403 (error_body "Invalid token.")), w_later).
Proof.
  split.
  - destruct (token_lifetime (L := libs) (mkPayload 1 "alice@x.com") 1180 JNull
                w_two ReferenceFacts.reference_jwt_sound
                ReferenceLaws.reference_jwt_expires
                ReferenceLaws.reference_jwt_compact) as [H _].
    unfold bearer, alice_token. simpl jwt_sign in H.
    change (JWT_SECRET w_two) with "your_secret_key" in H.
    rewrite H; [run_model | run_model | run_model].
  - destruct (token_lifetime (L := libs) (mkPayload 1 "alice@x.com") 1180 JNull
                w_later ReferenceFacts.reference_jwt_sound
                ReferenceLaws.reference_jwt_expires
                ReferenceLaws.reference_jwt_compact) as [_ H].
    apply (H ltac:(vm_compute; discriminate) PUT
             ["api"; "users"; action blocked; "2"]).
    apply protected_put. discriminate.
Defined.

Lemma toggleSelection_twice_witness :
  Permutation (toggleSelection 2 (toggleSelection 2 [1; 2; 3]%Z)) [1; 2; 3]%Z
  /\ toggleSelection 4 (toggleSelection 4 [1; 2; 3]%Z) = [1; 2; 3]%Z.
Proof.
  split.
  - apply (toggleSelection_twice 2 [1; 2; 3]%Z). distinct.
  - apply (toggleSelection_twice 4 [1; 2; 3]%Z); [distinct|].
    simpl. intuition discriminate.
Defined.

Lemma head_box_is_accurate_witness :
  all_checked [3; 1; 2]%Z [1; 2; 3]%Z = true
  /\ toggle_all [3; 1; 2]%Z [1; 2; 3]%Z = []
  /\ toggle_all [3; 1]%Z [1; 2; 3]%Z = [1; 2; 3]%Z.
Proof.
  destruct (head_box_is_accurate [3; 1; 2]%Z [1; 2; 3]%Z) as (Hall & Hoff & _);
    [distinct | distinct | intros x Hx; simpl in *; intuition |].
  destruct (head_box_is_accurate [3; 1]%Z [1; 2; 3]%Z) as (_ & _ & Hon);
    [distinct | distinct | intros x Hx; simpl in *; intuition |].
  assert (Hincl : incl [1; 2; 3]%Z [3; 1; 2]%Z)
    by (intros x Hx; simpl in *; intuition).
  split; [apply Hall; exact Hincl|]. split; [apply Hoff; exact Hincl|].
  apply Hon. intros H. specialize (H 2%Z (or_intror (or_introl eq_refl))).
  simpl in H. intuition discriminate.
Defined.

Lemma handleAction_reaches_every_selected_row_witness :
  fst (Second.handleAction (L := libs) (action blocked)
                           (logged_in bob_token [1%Z]) w_two)
  = socket_emit "usersUpdated" (logged_in bob_token [])
  /\ rows (snd (Second.handleAction (L := libs) (action blocked)
                                    (logged_in bob_token [1%Z]) w_two))
     = [alice_row blocked; bob_row].
Proof.
  destruct (handleAction_reaches_every_selected_row (L := libs) blocked
              bob_token bob_claims (logged_in bob_token [1%Z]) [1%N] w_two)
    as (Hclient & Hrows & _);
    [exact ReferenceLaws.reference_reads_ids | reflexivity
    | vm_compute; discriminate | reflexivity | discriminate | bearer_token
    | run_model | simpl; intuition discriminate | run_model |].
  split; [exact Hclient | rewrite Hrows; run_model].
Defined.

Lemma handleAction_stops_after_the_own_row_witness :
  fst (Second.handleAction (L := libs) (action blocked)
                           (logged_in bob_token [2%Z; 1%Z]) w_two)
  = Second.handleLogout
      (alert (Shown (Some (JStr "You are blocked. Action not allowed.")))
             (logged_in bob_token [2%Z; 1%Z]))
  /\ rows (snd (Second.handleAction (L := libs) (action blocked)
                                    (logged_in bob_token [2%Z; 1%Z]) w_two))
     = [alice_row active; mkUser 2 "Bob" "bob@x.com" "8$hunter2" blocked 1120].
Proof.
  destruct (handleAction_stops_after_the_own_row (L := libs) bob_token
              bob_claims (logged_in bob_token [2%Z; 1%Z]) [] 1%N [] w_two)
    as [Hclient Hrows];
    [exact ReferenceLaws.reference_reads_ids | reflexivity
    | vm_compute; discriminate | reflexivity | bearer_token | run_model
    | simpl; intuition | run_model |].
  split; [exact Hclient | rewrite Hrows; run_model].
Defined.

Lemma first_client_never_says_session_expired_witness :
  In (Said "You are blocked! Logging out...")
     (alerts (fst (First.handleAction (L := libs) "block"
                                      (logged_in alice_token [2%Z])
                                      w_alice_blocked)))
  /\ (In (Said "You are blocked! Logging out...")
         (alerts (logged_in alice_token [2%Z]))
      \/ Said "You are blocked! Logging out..."
         = Said "You are blocked! Logging out..."
      \/ exists e, Said "You are blocked! Logging out..." = ActionFailed e).
Proof.
  assert (H : In (Said "You are blocked! Logging out...")
                 (alerts (fst (First.handleAction (L := libs) "block"
                                 (logged_in alice_token [2%Z])
                                 w_alice_blocked))))
    by (vm_compute; left; reflexivity).
  split; [exact H|].
  exact (first_client_never_says_session_expired (L := libs) "block"
           (logged_in alice_token [2%Z]) w_alice_blocked _ H).
Defined.

Lemma rejected_token_in_the_two_clients_witness :
  First.handleAction (L := libs) (action blocked)
                     (logged_in "garbage" [1%Z; 2%Z]) w_two
  = (alert (ActionFailed (Some (JStr "Invalid token.")))
       (alert (ActionFailed (Some (JStr "Invalid token.")))
              (logged_in "garbage" [])), w_two)
  /\ Second.handleAction (L := libs) (action blocked)
                         (logged_in "garbage" [1%Z; 2%Z]) w_two
     = (Second.handleLogout
          (alert (Shown (Some (JStr "Invalid token.")))
                 (logged_in "garbage" [1%Z; 2%Z])), w_two).
Proof.
  destruct (rejected_token_in_the_two_clients (L := libs) blocked "garbage"
              "garbage" (logged_in "garbage" [1%Z; 2%Z]) w_two)
    as [Hfirst Hsecond];
    [reflexivity | discriminate | discriminate | reflexivity | run_model |].
  split; [rewrite Hfirst; reflexivity | exact Hsecond].
Defined.

Lemma fetchUsers_lists_for_any_holder_witness :
  status_of 1 w_alice_blocked = Some blocked
  /\ users (fst (Second.fetchUsers (L := libs) (Some alice_token)
                                   (logged_in alice_token []) w_alice_blocked))
     = Some (JArr (map (select_columns listed_columns)
                       [alice_row blocked; bob_row])).
Proof.
  split; [run_model|].
  destruct (fetchUsers_lists_for_any_holder (L := libs) (Some alice_token)
              alice_claims (logged_in alice_token []) w_alice_blocked)
    as [H _]; [bearer_token | run_model |].
  rewrite H. run_model.
Defined.

Lemma fetchUsers_rejected_logs_out_witness :
  Second.fetchUsers (L := libs) None (logged_in "stale" [1%Z]) w_two
  = (mkClient (Some (JArr [])) false [1%Z] true "" None None [] [], w_two).
Proof.
  destruct (fetchUsers_rejected_logs_out (L := libs) None "null"
              (logged_in "stale" [1%Z]) w_two) as [H _];
    [reflexivity | run_model |].
  rewrite H. reflexivity.
Defined.

Lemma blocked_user_learns_at_the_next_action_witness :
  Second.handleAction (L := libs) (action blocked) (logged_in bob_token [1%Z])
                      w_two
  = (socket_emit "usersUpdated" (logged_in bob_token []),
     changed blocked 1 w_two)
  /\ users (fst (Second.on_usersUpdated (L := libs)
                   (logged_in alice_token [2%Z]) (changed blocked 1 w_two)))
     = Some (JArr (map (select_columns listed_columns)
                       [alice_row blocked; bob_row]))
  /\ fst (Second.handleAction (L := libs) (action active)
            (fst (Second.on_usersUpdated (L := libs)
                    (logged_in alice_token [2%Z]) (changed blocked 1 w_two)))
            (snd (Second.on_usersUpdated (L := libs)
                    (logged_in alice_token [2%Z]) (changed blocked 1 w_two))))
     = mkClient (Some (JArr (map (select_columns listed_columns)
                                 [alice_row blocked; bob_row])))
                false [2%Z] true "" None None
                [Shown (Some (JStr "You are blocked. Action not allowed."))] [].
Proof.
  destruct (blocked_user_learns_at_the_next_action (L := libs) active bob_token
              alice_token bob_claims alice_claims (logged_in bob_token [1%Z])
              (logged_in alice_token [2%Z]) w_two)
    as (Hblock & _ & Hpush & _ & Hnext);
    [exact ReferenceLaws.reference_reads_ids | reflexivity
    | vm_compute; discriminate | reflexivity | bearer_token | run_model
    | reflexivity | vm_compute; discriminate | discriminate | bearer_token
    | run_model | run_model |].
  change (claims_id alice_claims) with 1%N in *.
  split; [exact Hblock|]. rewrite Hpush. cbn [fst snd].
  split; [run_model | rewrite Hnext; run_model].
Defined.

Lemma first_fetchUsers_blames_a_block_witness :
  status_of 1 w_later = Some active
  /\ First.fetchUsers (L := libs) (Some alice_token)
                      (logged_in alice_token []) w_later
     = (mkClient (Some (JArr [])) false [] false
                 "You have been blocked. Please contact an administrator."
                 (Some alice_token) None [] [], w_later)
  /\ users (fst (First.fetchUsers (L := libs) (Some alice_token)
                                  (logged_in alice_token []) w_alice_blocked))
     = Some (JArr (map (select_columns listed_columns)
                       [alice_row blocked; bob_row])).
Proof.
  split; [run_model|]. split.
  - rewrite (first_fetchUsers_blames_a_block (L := libs) (Some alice_token)
               alice_token (logged_in alice_token []) w_later);
      [run_model | run_model | run_model].
  - rewrite (first_fetchUsers_blames_a_block (L := libs) (Some alice_token)
               alice_token (logged_in alice_token []) w_alice_blocked);
      [run_model | run_model | run_model].
Defined.
